(** * AI wallpaper scheduler: a shallow embedding of the TypeScript sources

    The development models, function by function, the parts of the
    repository that its specification talks about:

    - [JS]       the JavaScript built-ins the sources rely on (strings,
                 [Number], comparison, [||]);
    - [Update]   [src/services/updateService.ts];
    - [Sched]    [src/services/scheduler.ts] with the timers it arms;
    - [Config]   [src/config.ts];
    - [EnvFile]  the settings handlers of the Electron main process
                 ([load-config], [save-config], [loadFreshConfig]);
    - [ImageGen] the error handler of [ImageGenerator.generateImage];
    - [Repo], [Script], [Install]  the address of the repository, the
                 paths of the update script and the [install-update]
                 handler;
    - [ApiKey], [LoadConfig], [EnvRewrite]  [hasApiKey], the file that
                 [load-config] writes back and the rewriting of the
                 [.env] file in [src/config.ts];
    - [Generator], [Generate]  the image generator: its constructor, its
                 file names and [generateImage] with what it calls;
    - [Wallpaper] [WallpaperService.setWallpaper] and [Scheduler.runOnce];
    - [Setup]    [setup()] of the command line.

    Strings are sequences of code units below 256 (Rocq's [string]); the
    white space and case rules are those of ECMAScript on that range. *)

From Stdlib Require Import ZArith String Ascii List Bool Lia.
From stdpp Require Import gmap strings.
Import ListNotations.

(* ================================================================== *)
(** * JavaScript built-ins *)
(* ================================================================== *)

Module JS.
Local Open Scope Z_scope.

Definition code (c : ascii) : Z := Z.of_N (N_of_ascii c).

(** ** Strings *)

(** [WhiteSpace] and [LineTerminator] code units below 256: TAB, LF, VT,
    FF, CR, SP and NBSP.  [String.prototype.trim] and the white space
    around a numeric literal use the same set. *)
Definition isWhiteSpace (c : ascii) : bool :=
  let n := code c in
  ((9 <=? n) && (n <=? 13)) || (n =? 32) || (n =? 160).

Fixpoint trimStart (s : string) : string :=
  match s with
  | EmptyString => EmptyString
  | String c s' => if isWhiteSpace c then trimStart s' else s
  end.

Fixpoint trimEnd (s : string) : string :=
  match s with
  | EmptyString => EmptyString
  | String c s' =>
      match trimEnd s' with
      | EmptyString => if isWhiteSpace c then EmptyString else String c EmptyString
      | r => String c r
      end
  end.

Definition trim (s : string) : string := trimEnd (trimStart s).

(** [s.split(sep)] for a one-character separator: never empty, the empty
    string gives one empty piece. *)
Fixpoint split (sep : ascii) (s : string) : list string :=
  match s with
  | EmptyString => [EmptyString]
  | String c s' =>
      if Ascii.eqb c sep then EmptyString :: split sep s'
      else match split sep s' with
           | h :: t => String c h :: t
           | [] => [String c EmptyString]
           end
  end.

(** [parts.join(sep)] *)
Fixpoint join (sep : string) (parts : list string) : string :=
  match parts with
  | [] => EmptyString
  | [p] => p
  | p :: rest => String.append p (String.append sep (join sep rest))
  end.

Fixpoint startsWith (s pre : string) {struct pre} : bool :=
  match pre, s with
  | EmptyString, _ => true
  | String a pre', String b s' => Ascii.eqb a b && startsWith s' pre'
  | String _ _, EmptyString => false
  end.

Fixpoint includes (s sub : string) : bool :=
  startsWith s sub ||
  match s with
  | EmptyString => false
  | String _ s' => includes s' sub
  end.

Fixpoint endsWith (s suf : string) : bool :=
  String.eqb s suf ||
  match s with
  | EmptyString => false
  | String _ s' => endsWith s' suf
  end.

(** [s.slice(1, -1)] *)
Fixpoint dropLast (s : string) : string :=
  match s with
  | EmptyString => EmptyString
  | String c EmptyString => EmptyString
  | String c s' => String c (dropLast s')
  end.

Definition slice_1_m1 (s : string) : string :=
  match s with
  | EmptyString => EmptyString
  | String _ s' => dropLast s'
  end.

(** [s.replace(/c/g, by)] for a single character [c]. *)
Fixpoint replaceAllChar (c : ascii) (by_ : string) (s : string) : string :=
  match s with
  | EmptyString => EmptyString
  | String a s' =>
      if Ascii.eqb a c then String.append by_ (replaceAllChar c by_ s')
      else String a (replaceAllChar c by_ s')
  end.

Definition lowerChar (c : ascii) : ascii :=
  let n := code c in
  if ((65 <=? n) && (n <=? 90))
     || ((192 <=? n) && (n <=? 222) && negb (n =? 215))
  then ascii_of_N (Z.to_N (n + 32)) else c.

Fixpoint toLowerCase (s : string) : string :=
  match s with
  | EmptyString => EmptyString
  | String c s' => String (lowerChar c) (toLowerCase s')
  end.

(** Truthiness of a possibly undefined string: [undefined] and [""] are
    falsy. *)
Definition truthy (v : option string) : bool :=
  match v with
  | Some s => negb (String.eqb s EmptyString)
  | None => false
  end.

(** [a || b] on strings where [b] is a string. *)
Definition orElse (v : option string) (d : string) : string :=
  match v with
  | Some s => if String.eqb s EmptyString then d else s
  | None => d
  end.

(** ** Numbers *)

(** A Number value.  Every finite double is an integer multiple of
    2^-1074, the least subnormal: [Fin k] is k * 2^-1074.  The two zeros
    are one value here; both are falsy and compare equal, and nothing in
    the modelled code tells them apart. *)
Inductive number : Type :=
  | NaN
  | NegInf
  | Fin (k : Z)
  | PosInf.

Definition unit_exp : Z := 1074.

(** The Number of an integer that a double holds exactly. *)
Definition ofZ (n : Z) : number := Fin (n * 2 ^ unit_exp).

(** Round the rational p/q (p >= 0, q > 0) to the nearest double, ties to
    even; 2^1024 and above is Infinity. *)
Definition roundToDouble (p q : Z) : number :=
  let P := p * 2 ^ unit_exp in
  let n := P / q in
  let s := Z.max 0 (Z.log2 n + 1 - 53) in
  let d := q * 2 ^ s in
  let a := P / d in
  let r := P mod d in
  let a' := if 2 * r <? d then a
            else if d <? 2 * r then a + 1
            else if Z.even a then a else a + 1 in
  let k := a' * 2 ^ s in
  if 2 ^ (unit_exp + 1024) <=? k then PosInf else Fin k.

Definition negate (x : number) : number :=
  match x with
  | NaN => NaN
  | NegInf => PosInf
  | PosInf => NegInf
  | Fin k => Fin (- k)
  end.

Definition digitValue (c : ascii) : option Z :=
  let n := code c in
  if (48 <=? n) && (n <=? 57) then Some (n - 48)
  else if (97 <=? n) && (n <=? 102) then Some (n - 87)
  else if (65 <=? n) && (n <=? 70) then Some (n - 55)
  else None.

Definition isDigitIn (base : Z) (c : ascii) : bool :=
  match digitValue c with
  | Some d => d <? base
  | None => false
  end.

(** The longest prefix of digits, and what follows it. *)
Fixpoint takeDigits (s : string) : string * string :=
  match s with
  | EmptyString => (EmptyString, EmptyString)
  | String c s' =>
      if isDigitIn 10 c
      then let '(d, r) := takeDigits s' in (String c d, r)
      else (EmptyString, s)
  end.

(** The value of a string of digits in the base, most significant first;
    [None] when a character is not a digit of the base. *)
Fixpoint digitsValue (base : Z) (acc : Z) (s : string) : option Z :=
  match s with
  | EmptyString => Some acc
  | String c s' =>
      match digitValue c with
      | Some d => if d <? base then digitsValue base (base * acc + d) s' else None
      | None => None
      end
  end.

Definition decimalValue (s : string) : Z :=
  match digitsValue 10 0 s with
  | Some v => v
  | None => 0
  end.

Definition isEmpty (s : string) : bool := String.eqb s EmptyString.

(** [ExponentPart], or nothing: the power of ten it stands for. *)
Definition parseExponent (s : string) : option Z :=
  match s with
  | EmptyString => Some 0
  | String c r =>
      if Ascii.eqb c "e" || Ascii.eqb c "E" then
        let '(sgn, r') :=
          match r with
          | String "+" r' => (1, r')
          | String "-" r' => (-1, r')
          | _ => (1, r)
          end in
        let '(d, rest) := takeDigits r' in
        if negb (isEmpty d) && isEmpty rest then Some (sgn * decimalValue d)
        else None
      else None
  end.

(** [StrUnsignedDecimalLiteral] other than [Infinity]: the pair (m, e)
    stands for m * 10^e. *)
Definition parseUnsignedDecimal (s : string) : option (Z * Z) :=
  let '(ip, r1) := takeDigits s in
  match r1 with
  | String "." r2 =>
      let '(fp, r3) := takeDigits r2 in
      if isEmpty ip && isEmpty fp then None
      else match parseExponent r3 with
           | Some e => Some (decimalValue (String.append ip fp),
                             e - Z.of_nat (String.length fp))
           | None => None
           end
  | _ =>
      if isEmpty ip then None
      else match parseExponent r1 with
           | Some e => Some (decimalValue ip, e)
           | None => None
           end
  end.

Definition decimalToNumber (me : Z * Z) : number :=
  let '(m, e) := me in
  if 0 <=? e then roundToDouble (m * 10 ^ e) 1
  else roundToDouble m (10 ^ (- e)).

Definition parseUnsigned (s : string) : number :=
  if String.eqb s "Infinity" then PosInf
  else match parseUnsignedDecimal s with
       | Some me => decimalToNumber me
       | None => NaN
       end.

Definition parseRadix (base : Z) (s : string) : number :=
  if isEmpty s then NaN
  else match digitsValue base 0 s with
       | Some v => roundToDouble v 1
       | None => NaN
       end.

Fixpoint dropChars (n : nat) (s : string) : string :=
  match n, s with
  | O, _ => s
  | S n', String _ s' => dropChars n' s'
  | S _, EmptyString => EmptyString
  end.

(** [Number(s)] for a string: the StringToNumber conversion.  White space
    around the literal is dropped and the empty literal is 0; a literal
    with a radix prefix takes no sign. *)
Definition Number (s : string) : number :=
  let t := trim s in
  if isEmpty t then Fin 0
  else if startsWith t "0x" || startsWith t "0X" then parseRadix 16 (dropChars 2 t)
  else if startsWith t "0o" || startsWith t "0O" then parseRadix 8 (dropChars 2 t)
  else if startsWith t "0b" || startsWith t "0B" then parseRadix 2 (dropChars 2 t)
  else if startsWith t "+" then parseUnsigned (dropChars 1 t)
  else if startsWith t "-" then negate (parseUnsigned (dropChars 1 t))
  else parseUnsigned t.

(** [a < b] on Numbers: false as soon as one side is NaN. *)
Definition lt (a b : number) : bool :=
  match a, b with
  | NaN, _ | _, NaN => false
  | _, NegInf => false
  | NegInf, _ => true
  | PosInf, _ => false
  | _, PosInf => true
  | Fin x, Fin y => x <? y
  end.

Definition gt (a b : number) : bool := lt b a.

Definition isNaN (x : number) : bool :=
  match x with NaN => true | _ => false end.

(** [x || 0] where [x] is a Number or undefined: undefined, NaN and zero
    are falsy. *)
Definition orZero (x : option number) : number :=
  match x with
  | None | Some NaN => Fin 0
  | Some (Fin k) => if k =? 0 then Fin 0 else Fin k
  | Some v => v
  end.

End JS.

Local Open Scope string_scope.

(* ================================================================== *)
(** * Logging and exceptions *)
(* ================================================================== *)

(** What the winston logger receives.  The logger only records; it is
    taken not to throw. *)
Module Log.

Inductive level : Type := Info | Debug | Warn | Error.

Definition entry : Type := level * string.

End Log.

(** Code that logs and may throw: the log so far is threaded through, and
    a computation ends with a value or with the thrown exception. *)
Module Exn.

Inductive result (E A : Type) : Type :=
  | Ok (a : A)
  | Throw (e : E).
Arguments Ok {E A} a.
Arguments Throw {E A} e.

Definition M (E A : Type) : Type :=
  list Log.entry -> list Log.entry * result E A.

Definition ret {E A : Type} (a : A) : M E A := fun l => (l, Ok a).

Definition throw {E A : Type} (e : E) : M E A := fun l => (l, Throw e).

Definition bind {E A B : Type} (c : M E A) (k : A -> M E B) : M E B :=
  fun l =>
    match c l with
    | (l', Ok a) => k a l'
    | (l', Throw e) => (l', Throw e)
    end.

Definition log {E : Type} (lv : Log.level) (msg : string) : M E unit :=
  fun l => ((l ++ [(lv, msg)])%list, Ok tt).

(** [try { body } catch (error) { handler }] *)
Definition tryCatch {E A : Type} (body : M E A) (handler : E -> M E A) : M E A :=
  fun l =>
    match body l with
    | (l', Ok a) => (l', Ok a)
    | (l', Throw e) => handler e l'
    end.

(** Using a value that may be undefined: reading a member of undefined
    throws. *)
Definition member {E A : Type} (typeError : E) (v : option A) : M E A :=
  match v with
  | Some a => ret a
  | None => throw typeError
  end.

Declare Scope exn_scope.
Delimit Scope exn_scope with exn.
Notation "'let!' x ':=' c 'in' k" := (bind c (fun x => k))
  (at level 10, x name, c at level 100, k at level 200) : exn_scope.
Notation "c ';;!' k" := (bind c (fun _ => k))
  (at level 100, k at level 200, right associativity) : exn_scope.

End Exn.

(* ================================================================== *)
(** * The update service *)
(* ================================================================== *)

Module Update.
Import Exn.

(** The fields of the release feed's answer that the code reads; a field
    that is missing, or [null], is [None]. *)
Record asset : Type := {
  name : option string;
  browser_download_url : option string
}.

Record release : Type := {
  tag_name : option string;
  assets : option (list asset);
  body : option string;
  published_at : option string
}.

Record UpdateInfo : Type := {
  version : string;
  available : bool;
  downloadUrl : string;
  releaseNotes : option string;
  publishedAt : option string
}.

(** What can be thrown inside [checkForUpdates]: axios rejects with an
    AxiosError, carrying the HTTP status when a response came back
    (any status outside 2xx) and none for a timeout or a transport
    failure; reading a member of undefined is a TypeError. *)
Inductive thrown : Type :=
  | AxiosError (status : option Z)
  | TypeError
  | OtherError (message : string).

(** The outcome of [axios.get(githubApiUrl, ...)]. *)
Inductive getOutcome : Type :=
  | Resolved (data : option release)
  | Rejected (e : thrown).

Definition axiosGet (o : getOutcome) : M thrown (option release) :=
  match o with
  | Resolved d => ret d
  | Rejected e => throw e
  end.

(** The loop of [isNewerVersion]: [i] is the index, [n] the number of
    iterations left before [i] reaches the larger length. *)
Fixpoint versionLoop (newParts currentParts : list JS.number) (i n : nat) : bool :=
  match n with
  | O => false
  | S n' =>
      let newPart := JS.orZero (nth_error newParts i) in
      let currentPart := JS.orZero (nth_error currentParts i) in
      if JS.gt newPart currentPart then true
      else if JS.lt newPart currentPart then false
      else versionLoop newParts currentParts (S i) n'
  end.

Definition isNewerVersion (newVersion currentVersion : string) : bool :=
  let newParts := map JS.Number (JS.split "." newVersion) in
  let currentParts := map JS.Number (JS.split "." currentVersion) in
  versionLoop newParts currentParts 0
    (Nat.max (length newParts) (length currentParts)).

(** [tag.replace(/^v/, '')] *)
Definition stripV (tag : string) : string :=
  match tag with
  | String "v" rest => rest
  | _ => tag
  end.

(** [assets?.find(asset => asset.name.includes('windows') &&
    asset.name.endsWith('.zip'))]: the callback reads [name] of every
    asset up to the first match. *)
Fixpoint findAsset (l : list asset) : M thrown (option asset) :=
  match l with
  | [] => ret None
  | a :: rest =>
      match name a with
      | None => throw TypeError
      | Some n =>
          if JS.includes n "windows" && JS.endsWith n ".zip"
          then ret (Some a) else findAsset rest
      end
  end.

Definition findWindowsAsset (l : option (list asset)) : M thrown (option asset) :=
  match l with
  | None => ret None
  | Some l => findAsset l
  end.

Definition showBool (b : bool) : string := if b then "true" else "false".

Definition noUpdate (currentVersion : string) : UpdateInfo :=
  {| version := currentVersion; available := false; downloadUrl := "";
     releaseNotes := None; publishedAt := None |}.

Definition isNotFound (e : thrown) : bool :=
  match e with
  | AxiosError (Some 404%Z) => true
  | _ => false
  end.

Local Open Scope exn_scope.

Definition checkForUpdates (currentVersion : string) (feed : getOutcome)
  : M thrown UpdateInfo :=
  tryCatch
    (log Log.Info "Checking for updates..." ;;!
     let! data := axiosGet feed in
     let! latestRelease := member TypeError data in
     let! tag := member TypeError (tag_name latestRelease) in
     let latestVersion := stripV tag in
     let isUpdateAvailable := isNewerVersion latestVersion currentVersion in
     log Log.Info ("Latest version: " ++ latestVersion ++ ", Current: "
                   ++ currentVersion ++ ", Update available: "
                   ++ showBool isUpdateAvailable) ;;!
     let! windowsAsset := findWindowsAsset (assets latestRelease) in
     ret {| version := latestVersion;
            available := isUpdateAvailable;
            downloadUrl :=
              JS.orElse (match windowsAsset with
                         | Some a => browser_download_url a
                         | None => None
                         end) "";
            releaseNotes := Some (JS.orElse (body latestRelease) "");
            publishedAt := published_at latestRelease |})
    (fun error =>
       if isNotFound error then
         log Log.Debug "No releases found or repository does not exist" ;;!
         ret (noUpdate currentVersion)
       else
         log Log.Debug "Update check failed" ;;!
         ret (noUpdate currentVersion)).

End Update.

(* ================================================================== *)
(** * Configuration *)
(* ================================================================== *)

Module Config.

Record Google : Type := { apiKey : option string; apiUrl : string }.

Record App : Type := {
  imagePrompt : string;
  aspectRatio : string;
  imageSize : string;
  imagesDir : string;
  logLevel : string
}.

Record Schedule : Type := { time : string; timezone : string }.

Record Config : Type := { google : Google; app : App; schedule : Schedule }.

(** [process.env]: a finite map from names to strings. *)
Abbreviation env := (gmap string string).

(** The three places a [.env] file is looked for, each with the key-value
    pairs dotenv parses from it when the file exists. *)
Record envFiles : Type := {
  userEnv : option env;
  appEnv : option env;
  cwdEnv : option env
}.

(** [dotenv.config({ path })]: every parsed key that [process.env] does
    not have yet is added; a variable already set is kept (dotenv does not
    override), and a missing file changes nothing. *)
Definition dotenvConfig (file : option env) (e : env) : env :=
  match file with
  | Some f => e ∪ f
  | None => e
  end.

Definition loadEnv (fs : envFiles) (e : env) : env :=
  match userEnv fs with
  | Some f => dotenvConfig (Some f) e
  | None =>
      match appEnv fs with
      | Some f => dotenvConfig (Some f) e
      | None => dotenvConfig (cwdEnv fs) e
      end
  end.

Definition getEnvVar (e : env) (key : string) (defaultValue : option string)
  : option string :=
  let value := e !! key in
  if negb (JS.truthy value) && negb (JS.truthy defaultValue) then None
  else if JS.truthy value then value else defaultValue.

Definition correctUrl : string :=
  "https://generativelanguage.googleapis.com/v1beta/models/gemini-3-pro-image-preview:generateContent".

(** The test of [correctApiUrl]. *)
Definition isOldUrl (rawUrl : string) : bool :=
  JS.includes rawUrl "nano-banana-pro" || JS.includes rawUrl "api.google.com"
  || JS.includes rawUrl "-exp" || JS.includes rawUrl "gemini-2.5-flash-image"
  || JS.includes rawUrl "flash-image".

(** [correctApiUrl(url, defaultValue)]: the corrected URL and
    [process.env] after the call.  The rewrite of the [.env] file that
    follows is best effort and changes neither. *)
Definition correctApiUrl (url : option string) (defaultValue : string) (e : env)
  : string * env :=
  let rawUrl := JS.orElse url defaultValue in
  if isOldUrl rawUrl then (correctUrl, <["GOOGLE_API_URL" := correctUrl]> e)
  else (JS.orElse (Some rawUrl) correctUrl, e).

(** The test of the initialisation that runs when the module is loaded. *)
Definition isOldUrlAtInit (rawUrl : string) : bool :=
  JS.includes rawUrl "nano-banana-pro" || JS.includes rawUrl "api.google.com"
  || JS.includes rawUrl "-exp".

(** The function run at module load: [correctedApiUrl] and [process.env]
    after it. *)
Definition initApiUrl (e : env) : string * env :=
  let rawUrl := getEnvVar e "GOOGLE_API_URL" None in
  let defaultValue := correctUrl in
  if JS.truthy rawUrl && isOldUrlAtInit (JS.orElse rawUrl "")
  then (defaultValue, <["GOOGLE_API_URL" := defaultValue]> e)
  else (JS.orElse rawUrl defaultValue, e).

Definition defaultPrompt : string :=
  "A beautiful serene landscape with mountains and a river at sunrise".

(** [path.join(dir, leaf)] with the platform's separator, for an absolute
    directory in normal form (as [path.join], [path.dirname] and
    [os.homedir] return it) and a plain name: a directory that ends in a
    separator, which a root does, takes no second one. *)
Definition pathJoin (sep dir leaf : string) : string :=
  if JS.endsWith dir sep then dir ++ leaf else dir ++ sep ++ leaf.

(** The exported [config], from [process.env] as it is once the [.env]
    file has been read. *)
Definition config (sep userDataDir : string) (e0 : env) : Config :=
  let '(correctedApiUrl, e) := initApiUrl e0 in
  {| google := {| apiKey := getEnvVar e "GOOGLE_API_KEY" None;
                  apiUrl := correctedApiUrl |};
     app := {| imagePrompt :=
                 JS.orElse (getEnvVar e "IMAGE_PROMPT" (Some defaultPrompt)) defaultPrompt;
               aspectRatio := JS.orElse (getEnvVar e "ASPECT_RATIO" (Some "16:9")) "16:9";
               imageSize := JS.orElse (getEnvVar e "IMAGE_SIZE" (Some "1K")) "1K";
               imagesDir := pathJoin sep userDataDir "images";
               logLevel := JS.orElse (getEnvVar e "LOG_LEVEL" (Some "info")) "info" |};
     schedule := {| time := JS.orElse (getEnvVar e "SCHEDULE_TIME" (Some "09:00")) "09:00";
                    timezone :=
                      JS.orElse (getEnvVar e "TIMEZONE" (Some "America/New_York"))
                                "America/New_York" |} |}.

(** Loading the configuration: the [.env] file found first is merged into
    the inherited environment, then [config] is built. *)
Definition load (sep userDataDir : string) (fs : envFiles) (inherited : env) : Config :=
  config sep userDataDir (loadEnv fs inherited).

End Config.

(* ================================================================== *)
(** * Dates *)
(* ================================================================== *)

(** The time value of a [Date]: milliseconds since the epoch, or [None]
    for NaN (an invalid date).  The functions are those of ECMAScript's
    "Date objects"; the host's time zone is an offset in milliseconds
    that does not change over the days the scheduler looks at, and sums
    of milliseconds are exact (every intermediate value of a valid date
    is far below 2^53). *)
Module Date.
Local Open Scope Z_scope.

Definition timeValue : Type := option Z.

Definition msPerDay : Z := 86400000.
Definition msPerHour : Z := 3600000.
Definition msPerMinute : Z := 60000.
Definition msPerSecond : Z := 1000.

Definition Day (t : Z) : Z := t / msPerDay.
Definition TimeWithinDay (t : Z) : Z := t mod msPerDay.

Definition DaysInYear (y : Z) : Z :=
  if negb (y mod 4 =? 0) then 365
  else if negb (y mod 100 =? 0) then 366
  else if negb (y mod 400 =? 0) then 365
  else 366.

Definition DayFromYear (y : Z) : Z :=
  365 * (y - 1970) + (y - 1969) / 4 - (y - 1901) / 100 + (y - 1601) / 400.

(** The year of a day number: the largest y with [DayFromYear y <= d]. *)
Definition YearFromDay (d : Z) : Z :=
  let y := 1970 + d * 400 / 146097 in
  if d <? DayFromYear y then y - 1
  else if DayFromYear (y + 1) <=? d then y + 1
  else y.

Definition YearFromTime (t : Z) : Z := YearFromDay (Day t).

Definition InLeapYear (t : Z) : Z :=
  if DaysInYear (YearFromTime t) =? 366 then 1 else 0.

Definition DayWithinYear (t : Z) : Z := Day t - DayFromYear (YearFromTime t).

(** The day within the year on which month [m] (0 to 11) starts. *)
Definition monthStart (leap m : Z) : Z :=
  if m =? 0 then 0 else if m =? 1 then 31
  else if m =? 2 then 59 + leap else if m =? 3 then 90 + leap
  else if m =? 4 then 120 + leap else if m =? 5 then 151 + leap
  else if m =? 6 then 181 + leap else if m =? 7 then 212 + leap
  else if m =? 8 then 243 + leap else if m =? 9 then 273 + leap
  else if m =? 10 then 304 + leap else 334 + leap.

Definition MonthFromTime (t : Z) : Z :=
  let d := DayWithinYear t in
  let leap := InLeapYear t in
  if d <? 31 then 0 else if d <? 59 + leap then 1
  else if d <? 90 + leap then 2 else if d <? 120 + leap then 3
  else if d <? 151 + leap then 4 else if d <? 181 + leap then 5
  else if d <? 212 + leap then 6 else if d <? 243 + leap then 7
  else if d <? 273 + leap then 8 else if d <? 304 + leap then 9
  else if d <? 334 + leap then 10 else 11.

Definition DateFromTime (t : Z) : Z :=
  DayWithinYear t - monthStart (InLeapYear t) (MonthFromTime t) + 1.

Definition HourFromTime (t : Z) : Z := (t / msPerHour) mod 24.
Definition MinFromTime (t : Z) : Z := (t / msPerMinute) mod 60.
Definition SecFromTime (t : Z) : Z := (t / msPerSecond) mod 60.
Definition msFromTime (t : Z) : Z := t mod msPerSecond.

(** [ToIntegerOrInfinity] of a finite Number: truncation. *)
Definition toInteger (x : JS.number) : option Z :=
  match x with
  | JS.Fin k => Some (Z.quot k (2 ^ JS.unit_exp))
  | _ => None
  end.

Definition MakeTime (hour min sec ms : JS.number) : option Z :=
  match toInteger hour, toInteger min, toInteger sec, toInteger ms with
  | Some h, Some m, Some s, Some milli =>
      Some (h * msPerHour + m * msPerMinute + s * msPerSecond + milli)
  | _, _, _, _ => None
  end.

Definition MakeDay (year month date : option Z) : option Z :=
  match year, month, date with
  | Some y, Some m, Some dt =>
      let ym := y + m / 12 in
      let mn := m mod 12 in
      let leap := if DaysInYear ym =? 366 then 1 else 0 in
      Some (DayFromYear ym + monthStart leap mn + dt - 1)
  | _, _, _ => None
  end.

Definition MakeDate (day time : option Z) : option Z :=
  match day, time with
  | Some d, Some t => Some (d * msPerDay + t)
  | _, _ => None
  end.

Definition TimeClip (t : option Z) : timeValue :=
  match t with
  | Some t => if 8640000000000000 <? Z.abs t then None else Some t
  | None => None
  end.

(** [LocalTime] and [UTC], given the host's offset from UTC.  One offset
    serves both directions and every date of one computation: that is
    exact on a host whose offset does not change, and on any host as long
    as no change of offset (daylight saving) lies between the instants
    that are converted. *)
Definition LocalTime (tza t : Z) : Z := t + tza.
Definition UTC (tza t : Z) : Z := t - tza.

(** [d.setHours(hour, min, sec, ms)], all four arguments given. *)
Definition setHours (tza : Z) (d : timeValue) (hour min sec ms : JS.number)
  : timeValue :=
  match d with
  | None => None
  | Some t =>
      let t := LocalTime tza t in
      let date := MakeDate (Some (Day t)) (MakeTime hour min sec ms) in
      TimeClip (option_map (UTC tza) date)
  end.

(** [d.getDate()] *)
Definition getDate (tza : Z) (d : timeValue) : option Z :=
  option_map (fun t => DateFromTime (LocalTime tza t)) d.

(** [d.setDate(date)] *)
Definition setDate (tza : Z) (d : timeValue) (date : option Z) : timeValue :=
  match d with
  | None => None
  | Some t =>
      let t := LocalTime tza t in
      let newDate :=
        MakeDate (MakeDay (Some (YearFromTime t)) (Some (MonthFromTime t)) date)
                 (Some (TimeWithinDay t)) in
      TimeClip (option_map (UTC tza) newDate)
  end.

(** [a <= b] on dates: on their time values, false when one is NaN. *)
Definition le (a b : timeValue) : bool :=
  match a, b with
  | Some x, Some y => x <=? y
  | _, _ => false
  end.

(** [a.getTime() - b.getTime()] *)
Definition diff (a b : timeValue) : option Z :=
  match a, b with
  | Some x, Some y => Some (x - y)
  | _, _ => None
  end.

(** Decimal digits, [width] of them, least significant last. *)
Fixpoint digits (width : nat) (v : Z) : string :=
  match width with
  | O => EmptyString
  | S w =>
      String.append (digits w (v / 10))
        (String (ascii_of_N (Z.to_N (48 + v mod 10))) EmptyString)
  end.

(** [d.toISOString()] of a valid date. *)
Definition isoString (t : Z) : string :=
  let y := YearFromTime t in
  let year :=
    if (0 <=? y) && (y <=? 9999) then digits 4 y
    else if y <? 0 then String.append "-" (digits 6 (- y))
    else String.append "+" (digits 6 y) in
  (year ++ "-" ++ digits 2 (MonthFromTime t + 1) ++ "-" ++ digits 2 (DateFromTime t)
   ++ "T" ++ digits 2 (HourFromTime t) ++ ":" ++ digits 2 (MinFromTime t)
   ++ ":" ++ digits 2 (SecFromTime t) ++ "." ++ digits 3 (msFromTime t) ++ "Z")%string.

End Date.

(* ================================================================== *)
(** * The scheduler and its timers *)
(* ================================================================== *)

Module Sched.
Import Exn.
Local Open Scope Z_scope.

(** The two closures handed to the timers: the one given to [setTimeout]
    (run the job, then start the daily interval) and the one given to
    [setInterval] (run the job). *)
Inductive callback : Type := FirstRun | DailyRun.

Inductive timerKind : Type := Timeout | Interval.

Record timer : Type := {
  handle : nat;
  kind : timerKind;
  after : Z;
  due : Z;
  action : callback
}.

(** The process as the scheduler sees it: the clock, the host's offset
    from UTC, the armed timers of the event loop, the scheduler's own
    [intervalId] field, the instants at which [runOnce] was started and
    the log. *)
Record world : Type := {
  clock : Z;
  localTZA : Z;
  timers : list timer;
  nextHandle : nat;
  intervalId : option nat;
  runs : list Z;
  logged : list Log.entry
}.

Inductive thrown : Type := RangeError.

Definition logInfo (msg : string) (w : world) : world :=
  {| clock := clock w; localTZA := localTZA w; timers := timers w;
     nextHandle := nextHandle w; intervalId := intervalId w; runs := runs w;
     logged := (logged w ++ [(Log.Info, msg)])%list |}.

Definition TIMEOUT_MAX : Z := 2147483647.

(** Node's timers: a delay that is NaN, below 1 or above [TIMEOUT_MAX] is
    replaced by 1. *)
Definition timerDelay (delay : option Z) : Z :=
  match delay with
  | Some d => if (1 <=? d) && (d <=? TIMEOUT_MAX) then d else 1
  | None => 1
  end.

(** [setTimeout] and [setInterval]: the world with the timer armed, and
    its handle. *)
Definition arm (k : timerKind) (cb : callback) (delay : option Z) (w : world)
  : world * nat :=
  let h := nextHandle w in
  let t := {| handle := h; kind := k; after := timerDelay delay;
              due := clock w + timerDelay delay; action := cb |} in
  ({| clock := clock w; localTZA := localTZA w;
      timers := (timers w ++ [t])%list;
      nextHandle := S h; intervalId := intervalId w; runs := runs w;
      logged := logged w |}, h).

(** [clearInterval(h)] (which clears a timer of either kind). *)
Definition clearInterval (h : nat) (w : world) : world :=
  {| clock := clock w; localTZA := localTZA w;
     timers := List.filter (fun t => negb (Nat.eqb (handle t) h)) (timers w);
     nextHandle := nextHandle w; intervalId := intervalId w; runs := runs w;
     logged := logged w |}.

Definition setIntervalId (v : option nat) (w : world) : world :=
  {| clock := clock w; localTZA := localTZA w; timers := timers w;
     nextHandle := nextHandle w; intervalId := v; runs := runs w;
     logged := logged w |}.

(** [this.runOnce().catch(...)]: the job is started; it finishes later,
    outside the scheduler, and its failure is only logged. *)
Definition runOnce (w : world) : world :=
  let w := logInfo "Starting wallpaper update process" w in
  {| clock := clock w; localTZA := localTZA w; timers := timers w;
     nextHandle := nextHandle w; intervalId := intervalId w;
     runs := (runs w ++ [clock w])%list; logged := logged w |}.

(** An argument that may be undefined, converted by ToNumber. *)
Definition toNumber (x : option JS.number) : JS.number :=
  match x with
  | Some v => v
  | None => JS.NaN
  end.

(** [scheduledTime] as [startDailySchedule] computes it. *)
Definition scheduledTime (time : string) (tza now : Z) : Date.timeValue :=
  let parts := map JS.Number (JS.split ":" time) in
  let hours := nth_error parts 0 in
  let minutes := nth_error parts 1 in
  let scheduled :=
    Date.setHours tza (Some now) (toNumber hours) (toNumber minutes)
                  (JS.ofZ 0) (JS.ofZ 0) in
  if Date.le scheduled (Some now)
  then Date.setDate tza scheduled (option_map (Z.add 1) (Date.getDate tza scheduled))
  else scheduled.

Definition msUntilNext (time : string) (tza now : Z) : option Z :=
  Date.diff (scheduledTime time tza now) (Some now).

(** [msUntilNext > 3600000] *)
Definition moreThanAnHour (ms : option Z) : bool :=
  match ms with
  | Some d => 3600000 <? d
  | None => false
  end.

Definition dailyInterval : Z := 24 * 60 * 60 * 1000.

(** The call [startDailySchedule()]: the world it leaves and how it
    ends.  [toISOString] throws a RangeError on an invalid date, once the
    first line is logged and before anything is armed. *)
Definition callStartDailySchedule (cfg : Config.Config) (w : world)
  : world * result thrown unit :=
  let w := logInfo "Starting daily scheduler" w in
  let time := Config.time (Config.schedule cfg) in
  let now := clock w in
  let ms := msUntilNext time (localTZA w) now in
  match scheduledTime time (localTZA w) now with
  | None => (w, Throw RangeError)
  | Some target =>
      let w := logInfo ("Next wallpaper update scheduled for: "
                        ++ Date.isoString target)%string w in
      let w := if moreThanAnHour ms then runOnce w else w in
      (fst (arm Timeout FirstRun ms w), Ok tt)
  end.

(** [startDailySchedule()]: the world after the call when it returns, and
    what it throws otherwise. *)
Definition startDailySchedule (cfg : Config.Config) (w : world)
  : result thrown world :=
  match callStartDailySchedule cfg w with
  | (w', Ok _) => Ok w'
  | (_, Throw e) => Throw e
  end.

(** [stop()] *)
Definition stop (w : world) : world :=
  match intervalId w with
  | Some h =>
      logInfo "Scheduler stopped" (setIntervalId None (clearInterval h w))
  | None => w
  end.

(** What a callback does when its timer fires. *)
Definition runCallback (cb : callback) (w : world) : world :=
  match cb with
  | FirstRun =>
      let w := runOnce w in
      let '(w, h) := arm Interval DailyRun (Some dailyInterval) w in
      setIntervalId (Some h) w
  | DailyRun => runOnce w
  end.

Definition setTimers (ts : list timer) (now : Z) (w : world) : world :=
  {| clock := now; localTZA := localTZA w; timers := ts;
     nextHandle := nextHandle w; intervalId := intervalId w; runs := runs w;
     logged := logged w |}.

(** One turn of the event loop: the armed timer that is due first fires,
    at its due time or now if that is already past.  A timeout is
    disarmed, an interval is armed again one period later. *)
Fixpoint earliest (ts : list timer) : option timer :=
  match ts with
  | [] => None
  | t :: rest =>
      match earliest rest with
      | Some t' => if due t' <? due t then Some t' else Some t
      | None => Some t
      end
  end.

Definition rearm (now : Z) (t : timer) : list timer :=
  match kind t with
  | Timeout => []
  | Interval =>
      [{| handle := handle t; kind := Interval; after := after t;
          due := now + after t; action := action t |}]
  end.

Definition fireNext (w : world) : option world :=
  match earliest (timers w) with
  | None => None
  | Some t =>
      let now := Z.max (clock w) (due t) in
      let others := List.filter (fun t' => negb (Nat.eqb (handle t') (handle t))) (timers w) in
      Some (runCallback (action t) (setTimers (others ++ rearm now t)%list now w))
  end.

(** A scheduler that was just constructed, in a process with no timers. *)
Definition fresh (now tza : Z) : world :=
  {| clock := now; localTZA := tza; timers := []; nextHandle := 0%nat;
     intervalId := None; runs := []; logged := [] |}.

End Sched.

(* ================================================================== *)
(** * The settings handlers of the Electron main process *)
(* ================================================================== *)

Module EnvFile.

Definition LF : ascii := "010"%char.
Definition CR : ascii := "013"%char.
Definition DQUOTE : ascii := "034"%char.
Definition SQUOTE : ascii := "'"%char.
Definition BACKSLASH : ascii := "\"%char.

(** A [Record<string, string>]: the own properties of a plain object, in
    insertion order.  (The keys are names of settings; none is an array
    index, which JavaScript would enumerate first.) *)
Definition record : Type := list (string * string).

(** [o[key]] for a key that only a property of the object itself can
    answer: the value stored under it, if any. *)
Fixpoint get (key : string) (o : record) : option string :=
  match o with
  | [] => None
  | (k, v) :: rest => if String.eqb k key then Some v else get key rest
  end.

(** [o[key] = value] for a string [value]: in place when the object has
    the key, else at the end.  A plain object that has no [__proto__] of
    its own inherits an accessor of that name, and the assignment goes to
    its setter, which ignores a value that is neither an object nor null:
    nothing is stored. *)
Fixpoint set (key value : string) (o : record) : record :=
  match o with
  | [] => if String.eqb key "__proto__" then [] else [(key, value)]
  | (k, v) :: rest =>
      if String.eqb k key then (k, value) :: rest
      else (k, v) :: set key value rest
  end.

Definition correctUrl : string := Config.correctUrl.

(** The test both handlers apply to [GOOGLE_API_URL]. *)
Definition isOldUrl (url : string) : bool :=
  JS.includes url "nano-banana-pro" || JS.includes url "-exp"
  || JS.includes url "gemini-2.5-flash-image"
  || (JS.includes url "gemini-3-pro" && negb (JS.includes url "image")).

(** The correction both handlers make, on the record they hold. *)
Definition correctConfig (config : record) : record :=
  let c := config in
  let c :=
    if JS.truthy (get "GOOGLE_API_URL" c)
       && isOldUrl (JS.orElse (get "GOOGLE_API_URL" c) "")
    then set "GOOGLE_API_URL" correctUrl c else c in
  if negb (JS.truthy (get "GOOGLE_API_URL" c))
  then set "GOOGLE_API_URL" correctUrl c else c.

(** The match of the line pattern (one or more characters other than [#]
    and [=], then [=], then any characters up to the end): the text before
    the first [=], which is not empty and has no [#], and the text after
    it, which has no line terminator. *)
Fixpoint keyAndRest (line : string) : option (string * string) :=
  match line with
  | EmptyString => None
  | String c s' =>
      if Ascii.eqb c "=" then Some (EmptyString, s')
      else if Ascii.eqb c "#" then None
      else match keyAndRest s' with
           | Some (k, r) => Some (String c k, r)
           | None => None
           end
  end.

(** No line terminator, which the [.] of a pattern does not match: of
    the code units below 256 these are LF and CR (the other two are
    U+2028 and U+2029). *)
Fixpoint noLineTerminator (s : string) : bool :=
  match s with
  | EmptyString => true
  | String c s' => negb (Ascii.eqb c LF) && negb (Ascii.eqb c CR) && noLineTerminator s'
  end.

Definition matchLine (line : string) : option (string * string) :=
  match keyAndRest line with
  | Some (k, r) =>
      if JS.isEmpty k then None
      else if noLineTerminator r then Some (k, r) else None
  | None => None
  end.

Definition quote (q : ascii) : string := String q EmptyString.

(** "Remove surrounding quotes if present" *)
Definition unquote (value : string) : string :=
  if (JS.startsWith value (quote DQUOTE) && JS.endsWith value (quote DQUOTE))
     || (JS.startsWith value (quote SQUOTE) && JS.endsWith value (quote SQUOTE))
  then JS.slice_1_m1 value else value.

(** The body of the [forEach] over the lines in [loadFreshConfig]. *)
Definition readLine (config : record) (line : string) : record :=
  match matchLine line with
  | Some (k, r) => set (JS.trim k) (unquote (JS.trim r)) config
  | None => config
  end.

Definition readContent (config : record) (content : string) : record :=
  fold_left readLine (JS.split LF content) config.

(** [loadFreshConfig()]: the candidate files in order, each with its
    content when it exists; the first one that leaves the record non-empty
    ends the search. *)
Fixpoint loadFrom (config : record) (candidates : list (option string)) : record :=
  match candidates with
  | [] => config
  | None :: rest => loadFrom config rest
  | Some content :: rest =>
      let config := readContent config content in
      match config with
      | [] => loadFrom config rest
      | _ => config
      end
  end.

Definition loadFreshConfig (candidates : list (option string)) : record :=
  loadFrom [] candidates.

(** The body of the [forEach] in the [load-config] handler: no unquoting. *)
Definition readLineRaw (config : record) (line : string) : record :=
  match matchLine line with
  | Some (k, r) => set (JS.trim k) (JS.trim r) config
  | None => config
  end.

(** The [load-config] handler, on the content of the file it reads (the
    empty string when there is none). *)
Definition loadConfig (content : string) : record :=
  let config :=
    if JS.isEmpty content then []
    else fold_left readLineRaw (JS.split LF content) [] in
  correctConfig config.

(** "Escape values that contain spaces or special characters" *)
Definition escapeValue (value : string) : string :=
  if JS.includes value " " || JS.includes value "#" || JS.includes value "="
  then (quote DQUOTE
        ++ JS.replaceAllChar DQUOTE (String BACKSLASH (quote DQUOTE)) value
        ++ quote DQUOTE)%string
  else value.

Definition formatEntry (kv : string * string) : string :=
  (fst kv ++ "=" ++ escapeValue (snd kv))%string.

Definition formatEnv (config : record) : string :=
  JS.join (quote LF) (map formatEntry config).

(** The answer of the [save-config] handler. *)
Inductive saveResult : Type :=
  | Success
  | Failure (error : string).

(** The [save-config] handler: [writeError] tells how [fs.writeFile] ends
    on the content, with [None] when it succeeds and the message of the
    error it throws otherwise; the handler gives the content it wrote, if
    any, and its answer. *)
Definition saveConfig (config : record) (writeError : string -> option string)
  : option string * saveResult :=
  let content := formatEnv (correctConfig config) in
  match writeError content with
  | None => (Some content, Success)
  | Some message => (None, Failure message)
  end.

End EnvFile.

(* ================================================================== *)
(** * The image generator's error handler *)
(* ================================================================== *)

Module ImageGen.
Import Exn.

(** What the [catch] of [generateImage] may receive: an [Error] with its
    message, or a value that is not an [Error]. *)
Inductive thrown : Type :=
  | ErrorObject (message : string)
  | NotAnError (value : string).

Definition isCredential (m : string) : bool :=
  JS.includes m "api key" || JS.includes m "authentication"
  || JS.includes m "401" || JS.includes m "403".

Definition isNotFound (m : string) : bool :=
  JS.includes m "not found" || JS.includes m "404".

Definition isQuota (m : string) : bool :=
  JS.includes m "quota" || JS.includes m "rate limit".

Definition isMalformed (m : string) : bool :=
  JS.includes m "invalid" || JS.includes m "400".

Definition credentialMessage : string :=
  "Invalid API key. Please check your GOOGLE_API_KEY in settings.".

Definition notFoundMessage (modelName : string) : string :=
  "Model " ++ modelName ++ " not found. Please check your model configuration.".

Definition quotaMessage : string :=
  "API quota exceeded or rate limit reached. Please try again later.".

Definition malformedMessage (message : string) : string :=
  "Invalid request: " ++ message.

(** The [catch (err)] block: what it throws. *)
Definition rethrow (modelName : string) (err : thrown) : thrown :=
  match err with
  | ErrorObject message =>
      let errorMessage := JS.toLowerCase message in
      if isCredential errorMessage then ErrorObject credentialMessage
      else if isNotFound errorMessage then ErrorObject (notFoundMessage modelName)
      else if isQuota errorMessage then ErrorObject quotaMessage
      else if isMalformed errorMessage then ErrorObject (malformedMessage message)
      else err
  | NotAnError _ => err
  end.

(** [generateImage(prompt)], given how the work inside its [try] ends:
    with the path of the saved image or with a thrown value. *)
Definition generateImage (modelName : string) (attempt : result thrown string)
  : M thrown string :=
  match attempt with
  | Ok path => ret path
  | Throw err =>
      fun l => ((l ++ [(Log.Error, "Failed to generate image")])%list,
                Throw (rethrow modelName err))
  end.

End ImageGen.

(* ================================================================== *)
(** * Notions the specification uses *)
(* ================================================================== *)

Module Spec.
Local Open Scope Z_scope.

(** [parts[i] || 0] *)
Definition partAt (parts : list JS.number) (i : nat) : JS.number :=
  JS.orZero (nth_error parts i).

(** The numeric value of component [i] of a version string: the Number of
    the i-th piece between dots, and 0 for a piece that is missing or is
    not a number. *)
Definition component (v : string) (i : nat) : JS.number :=
  partAt (map JS.Number (JS.split "." v)) i.

(** A version string with every component that is not a number replaced
    by the component 0. *)
Definition zeroed (v : string) : string :=
  JS.join "."
    (map (fun c => if JS.isNaN (JS.Number c) then "0" else c) (JS.split "." v)).

(** The process the scenarios run in: the default configuration (schedule
    time 09:00, time zone America/New_York) and a host on UTC. *)
Definition defaultConfig : Config.Config :=
  Config.load "/" "/home/user/.config/screensaver"
    {| Config.userEnv := None; Config.appEnv := None; Config.cwdEnv := None |} ∅.

(** 2024-01-15 at 08:00, 10:00 and 23:00 UTC. *)
Definition jan15_0800 : Z := 1705305600000.
Definition jan15_1000 : Z := 1705312800000.
Definition jan15_2300 : Z := 1705359600000.

(** What [load] does with a setting that has a default: it reads it; it
    reads it and replaces an endpoint of an earlier release; or it does
    not read it. *)
Inductive treatment : Type := Read | ReadEndpoint | NotRead.

(** The settings with a default, those of the README's table and the two
    of the image format: the name in the environment, the field of the
    configuration it fills, the default and the treatment.  The default
    of the images directory is the folder [images] of the user data
    directory. *)
Definition settings (sep userDataDir : string)
  : list (string * (Config.Config -> string) * string * treatment) :=
  [ ("GOOGLE_API_URL", fun c => Config.apiUrl (Config.google c),
     "https://generativelanguage.googleapis.com/v1beta/models/gemini-3-pro-image-preview:generateContent",
     ReadEndpoint);
    ("IMAGE_PROMPT", fun c => Config.imagePrompt (Config.app c),
     "A beautiful serene landscape with mountains and a river at sunrise", Read);
    ("ASPECT_RATIO", fun c => Config.aspectRatio (Config.app c), "16:9", Read);
    ("IMAGE_SIZE", fun c => Config.imageSize (Config.app c), "1K", Read);
    ("IMAGES_DIR", fun c => Config.imagesDir (Config.app c),
     Config.pathJoin sep userDataDir "images", NotRead);
    ("LOG_LEVEL", fun c => Config.logLevel (Config.app c), "info", Read);
    ("SCHEDULE_TIME", fun c => Config.time (Config.schedule c), "09:00", Read);
    ("TIMEZONE", fun c => Config.timezone (Config.schedule c), "America/New_York", Read) ].

(** An endpoint of an earlier release, which [load] replaces. *)
Definition replacedEndpoint (url : string) : bool :=
  existsb (JS.includes url) ["nano-banana-pro"; "api.google.com"; "-exp"].

(** The message mentions one of the markers, whatever the case of its
    letters. *)
Definition mentions (message : string) (markers : list string) : bool :=
  existsb (JS.includes (JS.toLowerCase message)) markers.

(** The [.env] file that is read: the first that exists. *)
Definition configFile (fs : Config.envFiles) : option (gmap string string) :=
  match Config.userEnv fs with
  | Some f => Some f
  | None =>
      match Config.appEnv fs with
      | Some f => Some f
      | None => Config.cwdEnv fs
      end
  end.

(** What is stored for a key: the variable of the inherited environment
    if there is one, else the entry of the file that is read. *)
Definition stored (fs : Config.envFiles) (inherited : gmap string string)
           (key : string) : option string :=
  match inherited !! key with
  | Some v => Some v
  | None =>
      match configFile fs with
      | Some f => f !! key
      | None => None
      end
  end.

Definition onlyUserEnv (f : gmap string string) : Config.envFiles :=
  {| Config.userEnv := Some f; Config.appEnv := None; Config.cwdEnv := None |}.

Definition urlGoogleApi : string := "https://api.google.com/v1/images:generate".
Definition urlGemini3Pro : string :=
  "https://generativelanguage.googleapis.com/v1beta/models/gemini-3-pro-preview:generateContent".
Definition urlFlashImage : string :=
  "https://generativelanguage.googleapis.com/v1beta/models/gemini-2.5-flash-image:generateContent".

(** A schedule time HH:MM, two digits each. *)
Definition hhmm (h m : Z) : string :=
  (Date.digits 2 h ++ ":" ++ Date.digits 2 m)%string.

(** The next instant at which it is h:m in the zone with the given offset
    from UTC: today's, in that zone, if it is still ahead, else
    tomorrow's. *)
Definition targetInZone (zone h m now : Z) : Z :=
  let today :=
    Date.Day (now + zone) * Date.msPerDay
    + h * Date.msPerHour + m * Date.msPerMinute - zone in
  if today <=? now then today + Date.msPerDay else today.

(** Every character of the string passes the test. *)
Fixpoint allChars (p : ascii -> bool) (s : string) : bool :=
  match s with
  | EmptyString => true
  | String c s' => p c && allChars p s'
  end.

Definition isNot (a c : ascii) : bool := negb (Ascii.eqb c a).




(** A name of a setting: not empty, without [#], [=] or a line feed, and
    without white space at either end. *)
Definition keyOk (k : string) : bool :=
  negb (JS.isEmpty k)
  && allChars (fun c => isNot "#" c && isNot "=" c && isNot EnvFile.LF c) k
  && String.eqb (JS.trim k) k.




End Spec.


(* ================================================================== *)
(** * The repository of the releases *)
(* ================================================================== *)

(** [extractRepoInfo] (the same function in the command-line entry point
    and in the Electron main process) and the address that the
    constructor of [UpdateService] builds from its result. *)
Module Repo.

(** The longest prefix without the character, and what follows it. *)
Fixpoint takeNot (stop : ascii) (s : string) : string * string :=
  match s with
  | EmptyString => (EmptyString, EmptyString)
  | String c s' =>
      if Ascii.eqb c stop then (EmptyString, s)
      else let '(p, r) := takeNot stop s' in (String c p, r)
  end.

(** The pattern of [extractRepoInfo] tried at the start of the text:
    [github.com/], then one or more characters other than a slash, a
    slash, and one or more characters other than a slash.  Both groups
    are greedy, and the first must be followed by a slash, so each is the
    whole run of characters up to the next slash. *)
Definition matchAtStart (s : string) : option (string * string) :=
  if JS.startsWith s "github.com/" then
    let '(owner, r) := takeNot "/" (JS.dropChars 11 s) in
    if JS.isEmpty owner then None
    else match r with
         | EmptyString => None
         | String _ r' =>
             let '(name, _) := takeNot "/" r' in
             if JS.isEmpty name then None else Some (owner, name)
         end
  else None.

(** [repoUrl.match(...)]: the leftmost position where the pattern
    matches. *)
Fixpoint search (s : string) : option (string * string) :=
  match matchAtStart s with
  | Some m => Some m
  | None =>
      match s with
      | EmptyString => None
      | String _ s' => search s'
      end
  end.

Fixpoint takeChars (n : nat) (s : string) : string :=
  match n, s with
  | O, _ => EmptyString
  | S n', String c s' => String c (takeChars n' s')
  | S _, EmptyString => EmptyString
  end.

(** [name.replace(/\.git$/, '')] *)
Definition stripGit (name : string) : string :=
  if JS.endsWith name ".git"
  then takeChars (String.length name - 4) name
  else name.

Record RepoInfo : Type := { owner : string; name : string }.

Definition extractRepoInfo (repoUrl : string) : RepoInfo :=
  match search repoUrl with
  | Some (o, n) => {| owner := o; name := stripGit n |}
  | None => {| owner := "AgentBurgundy"; name := "screensaver" |}
  end.

(** [githubApiUrl], as the constructor of [UpdateService] sets it. *)
Definition githubApiUrl (repoOwner repoName : string) : string :=
  "https://api.github.com/repos/" ++ repoOwner ++ "/" ++ repoName
  ++ "/releases/latest".

End Repo.

(* ================================================================== *)
(** * The update script *)
(* ================================================================== *)

Module Script.

Definition SQUOTE : ascii := "'"%char.
Definition BACKSLASH : ascii := "\"%char.

(** The escaping of a path in [generateUpdateScript]: every backslash is
    doubled, then every single quote is doubled. *)
Definition escapePath (path : string) : string :=
  JS.replaceAllChar SQUOTE (String SQUOTE (String SQUOTE EmptyString))
    (JS.replaceAllChar BACKSLASH (String BACKSLASH (String BACKSLASH EmptyString)) path).

End Script.


(* ================================================================== *)
(** * Whether an API key is configured *)
(* ================================================================== *)

(** [hasApiKey] of the Electron main process. *)
Module ApiKey.

(** A file as the function meets it: absent, there but failing to be
    read, or read with its content. *)
Inductive file : Type :=
  | Absent
  | Unreadable
  | Readable (content : string).

Definition marker : string := "GOOGLE_API_KEY=".

Definition placeholder : string := "your_api_key_here".

(** The match of the key pattern on a line: the line starts with
    [GOOGLE_API_KEY=] and goes on with one or more characters, none of
    them a line terminator, up to its end; the group is what follows the
    equals sign. *)
Definition keyLine (line : string) : option string :=
  if JS.startsWith line marker then
    let rest := JS.dropChars 15 line in
    if negb (JS.isEmpty rest) && EnvFile.noLineTerminator rest
    then Some rest else None
  else None.

(** The callback of [some]. *)
Definition configured (line : string) : bool :=
  match keyLine line with
  | Some v =>
      negb (JS.isEmpty (JS.trim v)) && negb (String.eqb (JS.trim v) placeholder)
  | None => false
  end.

Definition hasKey (content : string) : bool :=
  JS.includes content marker
  && existsb configured (JS.split EnvFile.LF content).

(** [hasApiKey()]: the file of the user data directory first; in
    development the file of the project after it.  A file that is there
    but cannot be read ends the function in its [catch]. *)
Definition hasApiKey (isDev : bool) (userEnv devEnv : file) : bool :=
  let devCheck :=
    if isDev then
      hasKey (match devEnv with
              | Readable content => content
              | _ => EmptyString
              end)
    else false in
  match userEnv with
  | Unreadable => false
  | Readable content => if hasKey content then true else devCheck
  | Absent => devCheck
  end.

End ApiKey.

(* ================================================================== *)
(** * The image generator's model and file names *)
(* ================================================================== *)

Module Generator.
Import Exn.
Local Open Scope exn_scope.

(** The pattern of the constructor tried at the start of the text:
    [models/], then one or more characters other than a colon, as many
    as there are. *)
Definition matchAtStart (s : string) : option string :=
  if JS.startsWith s "models/" then
    let '(model, _) := Repo.takeNot ":" (JS.dropChars 7 s) in
    if JS.isEmpty model then None else Some model
  else None.

(** [config.google.apiUrl.match(...)]: the leftmost match. *)
Fixpoint search (s : string) : option string :=
  match matchAtStart s with
  | Some m => Some m
  | None =>
      match s with
      | EmptyString => None
      | String _ s' => search s'
      end
  end.

Definition latestModel : string := "gemini-3-pro-image-preview".

Record ImageGenerator : Type := {
  modelName : string;
  imagesDir : string
}.

Definition noKeyMessage : string :=
  "Google API key is not configured. Please set GOOGLE_API_KEY in your .env file or use the Settings UI.".

(** The model the constructor settles on, with what it logs on the
    way. *)
Definition chooseModel (apiUrl : string) : M ImageGen.thrown string :=
  match search apiUrl with
  | Some extractedModel =>
      if JS.includes extractedModel "gemini-2.5-flash-image"
         || JS.includes extractedModel "flash-image"
      then
        log Log.Info ("Upgrading from " ++ extractedModel
                      ++ " to gemini-3-pro-image-preview for high-resolution support") ;;!
        ret latestModel
      else if JS.includes extractedModel "gemini-3-pro"
              && negb (JS.includes extractedModel "image")
      then
        log Log.Info ("Upgrading from " ++ extractedModel
                      ++ " to gemini-3-pro-image-preview") ;;!
        ret latestModel
      else ret extractedModel
  | None => ret latestModel
  end.

(** [new ImageGenerator()] *)
Definition construct (config : Config.Config) : M ImageGen.thrown ImageGenerator :=
  if negb (JS.truthy (Config.apiKey (Config.google config)))
  then throw (ImageGen.ErrorObject noKeyMessage)
  else
    let! model := chooseModel (Config.apiUrl (Config.google config)) in
    log Log.Info ("Initialized ImageGenerator with model: " ++ model) ;;!
    ret {| modelName := model;
           imagesDir := Config.imagesDir (Config.app config) |}.

(** [.replace(/[:.]/g, '-')] *)
Fixpoint dashes (s : string) : string :=
  match s with
  | EmptyString => EmptyString
  | String c s' =>
      String (if Ascii.eqb c ":" || Ascii.eqb c "." then "-"%char else c)
             (dashes s')
  end.

(** [generateFilename(extension)], at the instant [now] of the clock. *)
Definition generateFilename (now : Z) (extension : string) : string :=
  let timestamp := dashes (Date.isoString now) in
  "wallpaper-" ++ timestamp ++ "." ++ extension.

(** The extension [saveBase64Image] takes from the MIME type. *)
Definition extensionOfMime (mimeType : string) : string :=
  if JS.includes mimeType "jpeg" || JS.includes mimeType "jpg" then "jpg"
  else if JS.includes mimeType "png" then "png"
  else if JS.includes mimeType "webp" then "webp"
  else "jpg".

(** The extension [downloadImageFromUrl] takes from the content type. *)
Definition extensionOfContentType (contentType : string) : string :=
  if JS.includes contentType "png" then "png"
  else if JS.includes contentType "jpeg" || JS.includes contentType "jpg" then "jpg"
  else if JS.includes contentType "webp" then "webp"
  else "jpg".

End Generator.

(* ================================================================== *)
(** * Installing an update from the Electron main process *)
(* ================================================================== *)

Module Install.
Import Exn.
Local Open Scope exn_scope.

(** What the handler does to the outside: a download is started, the
    update script is written, the restart of the application is
    scheduled. *)
Inductive effect : Type :=
  | Download (downloadUrl downloadPath : string)
  | WriteScript (scriptPath : string)
  | Relaunch.

Record answer : Type := { success : bool; error : option string }.

Record outcome : Type := {
  answered : answer;
  effects : list effect;
  logged : list Log.entry
}.

(** [downloadUpdate(downloadUrl, downloadPath)]: [failure] is what the
    request, the creation of the directory or the writing of the file
    throws, if one of them does. *)
Definition downloadUpdate (downloadUrl downloadPath : string)
           (failure : option ImageGen.thrown) : M ImageGen.thrown unit :=
  tryCatch
    (log Log.Info ("Downloading update from: " ++ downloadUrl) ;;!
     match failure with
     | Some e => throw e
     | None => log Log.Info ("Update downloaded to: " ++ downloadPath)
     end)
    (fun error => log Log.Error "Failed to download update" ;;! throw error).

(** [installUpdate(zipPath, appDir)]: the script is generated and
    written next to the application; [failure] is what the writing
    throws, if it does.  It gives the path of the script. *)
Definition installUpdate (sep zipPath appDir : string)
           (failure : option ImageGen.thrown) : M ImageGen.thrown string :=
  tryCatch
    (log Log.Info ("Installing update from: " ++ zipPath) ;;!
     let scriptPath := Config.pathJoin sep appDir "update.ps1" in
     match failure with
     | Some e => throw e
     | None =>
         log Log.Info ("Update script created: " ++ scriptPath) ;;!
         ret scriptPath
     end)
    (fun error => log Log.Error "Failed to install update" ;;! throw error).

(** [error instanceof Error ? error.message : 'Unknown error'] *)
Definition errorText (e : ImageGen.thrown) : string :=
  match e with
  | ImageGen.ErrorObject message => message
  | ImageGen.NotAnError _ => "Unknown error"
  end.

Definition failed (message : string) : answer :=
  {| success := false; error := Some message |}.

(** The handler of [install-update].  [messageOf] gives the message of
    what [checkForUpdates] throws. *)
Definition installUpdateHandler (sep appDir currentVersion : string)
           (feed : Update.getOutcome) (messageOf : Update.thrown -> string)
           (downloadFailure writeFailure : option ImageGen.thrown)
           (l : list Log.entry) : outcome :=
  match Update.checkForUpdates currentVersion feed l with
  | (l, Throw e) =>
      {| answered := failed (messageOf e); effects := []; logged := l |}
  | (l, Ok updateInfo) =>
      if negb (Update.available updateInfo)
         || negb (JS.truthy (Some (Update.downloadUrl updateInfo)))
      then {| answered := failed "No update available"; effects := []; logged := l |}
      else
        let downloadPath := Config.pathJoin sep appDir "update.zip" in
        let started := [Download (Update.downloadUrl updateInfo) downloadPath] in
        match downloadUpdate (Update.downloadUrl updateInfo) downloadPath
                             downloadFailure l with
        | (l, Throw e) =>
            {| answered := failed (errorText e); effects := started; logged := l |}
        | (l, Ok _) =>
            match installUpdate sep downloadPath appDir writeFailure l with
            | (l, Throw e) =>
                {| answered := failed (errorText e); effects := started; logged := l |}
            | (l, Ok scriptPath) =>
                {| answered := {| success := true; error := None |};
                   effects := (started ++ [WriteScript scriptPath; Relaunch])%list;
                   logged := l |}
            end
        end
  end.

End Install.

(* ================================================================== *)
(** * The correction of the endpoint in the [.env] file *)
(* ================================================================== *)

(** The rewriting of the file that [correctApiUrl] and the
    initialisation of the configuration both make. *)
Module EnvRewrite.

Definition marker : string := "GOOGLE_API_URL=".

(** What the tail of the pattern leaves of the text after the marker: it
    takes every character up to the first line terminator, and that one
    too when it is a line feed. *)
Fixpoint skipLine (s : string) : string :=
  match s with
  | EmptyString => EmptyString
  | String c s' =>
      if Ascii.eqb c EnvFile.LF then s'
      else if Ascii.eqb c EnvFile.CR then s
      else skipLine s'
  end.

(** The global replacement of the pattern by the empty string: the text
    is read from left to right, every match is left out and the reading
    goes on after it.  Each step takes at least one character, so a fuel
    above the length of the text is never used up. *)
Fixpoint removeUrlLines (fuel : nat) (s : string) : string :=
  match fuel with
  | O => s
  | S fuel' =>
      if JS.startsWith s marker
      then removeUrlLines fuel' (skipLine (JS.dropChars 15 s))
      else match s with
           | EmptyString => EmptyString
           | String c s' => String c (removeUrlLines fuel' s')
           end
  end.

(** The new content of the file. *)
Definition rewriteEnv (content : string) : string :=
  removeUrlLines (S (String.length content)) content
  ++ String EnvFile.LF (marker ++ Config.correctUrl).

End EnvRewrite.

(* ================================================================== *)
(** * Generating an image *)
(* ================================================================== *)

(** [generateImage] of the image generator with what it calls: the API
    of the SDK, the file system, the network and the clock.  What these
    answer is given by a [world]; the calls made are recorded in order.
    The bytes of the image that are written are not part of the
    model. *)
Module Generate.
Import Exn.

(** The arguments of [models.generateImages] and of
    [models.generateContent]; a field left out of a request is [None]. *)
Record imagesRequest : Type := {
  imagesModel : string;
  imagesPrompt : string;
  imagesAspectRatio : string;
  numberOfImages : Z;
  imagesSize : option string
}.

Record contentRequest : Type := {
  contentModel : string;
  contents : string;
  responseModalities : list string;
  contentAspectRatio : string;
  contentSize : option string
}.

(** The fields of the answers that the code reads. *)
Record imageData : Type := {
  imageBytes : option string;
  imageMimeType : option string
}.

Record generatedImage : Type := { image : option imageData }.

Record imagesResponse : Type := { generatedImages : option (list generatedImage) }.

Record inlineDataPart : Type := {
  data : option string;
  mimeType : option string
}.

Record fileDataPart : Type := { fileUri : option string }.

Record part : Type := {
  inlineData : option inlineDataPart;
  fileData : option fileDataPart
}.

Record contentParts : Type := { parts : option (list part) }.

Record candidate : Type := { content : option contentParts }.

Record contentResponse : Type := { candidates : option (list candidate) }.

(** The answer of [fetch]: [bodyFailure] is what reading the body
    throws, if it does. *)
Record fetched : Type := {
  ok : bool;
  status : string;
  statusText : string;
  contentType : option string;
  bodyFailure : option ImageGen.thrown
}.

Record world : Type := {
  mkdirFailure : option ImageGen.thrown;
  generateImages : imagesRequest -> result ImageGen.thrown imagesResponse;
  generateContent : contentRequest -> result ImageGen.thrown contentResponse;
  writeFailure : string -> option ImageGen.thrown;
  fetch : string -> result ImageGen.thrown fetched;
  clock : nat -> Z
}.

Inductive call : Type :=
  | MkDir (dir : string)
  | GenerateImages (request : imagesRequest)
  | GenerateContent (request : contentRequest)
  | Fetch (url : string)
  | WriteFile (path : string).

(** The log, the calls made so far and the number of times the clock has
    been read. *)
Record state : Type := {
  logged : list Log.entry;
  calls : list call;
  clockReads : nat
}.

Definition M (A : Type) : Type := state -> state * result ImageGen.thrown A.

Definition ret {A : Type} (a : A) : M A := fun s => (s, Ok a).

Definition throw {A : Type} (e : ImageGen.thrown) : M A := fun s => (s, Throw e).

Definition bind {A B : Type} (c : M A) (k : A -> M B) : M B :=
  fun s =>
    match c s with
    | (s', Ok a) => k a s'
    | (s', Throw e) => (s', Throw e)
    end.

Definition tryCatch {A : Type} (body : M A) (handler : ImageGen.thrown -> M A) : M A :=
  fun s =>
    match body s with
    | (s', Ok a) => (s', Ok a)
    | (s', Throw e) => handler e s'
    end.

Definition log (lv : Log.level) (msg : string) : M unit :=
  fun s => ({| logged := (logged s ++ [(lv, msg)])%list; calls := calls s;
               clockReads := clockReads s |}, Ok tt).

Definition called (c : call) : M unit :=
  fun s => ({| logged := logged s; calls := (calls s ++ [c])%list;
               clockReads := clockReads s |}, Ok tt).

(** How a call ends. *)
Definition answer {A : Type} (r : result ImageGen.thrown A) : M A := fun s => (s, r).

Definition failing (failure : option ImageGen.thrown) : M unit :=
  match failure with
  | Some e => throw e
  | None => ret tt
  end.

(** [new Date()] *)
Definition now (w : world) : M Z :=
  fun s => ({| logged := logged s; calls := calls s; clockReads := S (clockReads s) |},
            Ok (clock w (clockReads s))).

Declare Scope gen_scope.
Delimit Scope gen_scope with gen.
Notation "'let!' x ':=' c 'in' k" := (bind c (fun x => k))
  (at level 10, x name, c at level 100, k at level 200) : gen_scope.
Notation "c ';;!' k" := (bind c (fun _ => k))
  (at level 100, k at level 200, right associativity) : gen_scope.
Local Open Scope gen_scope.

Section Run.

Variable w : world.
Variable sep : string.
Variable config : Config.Config.
Variable this : Generator.ImageGenerator.

Definition ensureImagesDir : M unit :=
  tryCatch
    (called (MkDir (Generator.imagesDir this)) ;;!
     failing (mkdirFailure w) ;;!
     log Log.Debug ("Images directory ensured: " ++ Generator.imagesDir this))
    (fun error =>
       log Log.Error "Failed to create images directory" ;;! throw error).

(** The end of both ways of saving: the file name is made from the
    clock, and the file is written in the images directory. *)
Definition writeImage (extension : string) : M string :=
  let! t := now w in
  let filename := Generator.generateFilename t extension in
  let filepath := Config.pathJoin sep (Generator.imagesDir this) filename in
  called (WriteFile filepath) ;;!
  failing (writeFailure w filepath) ;;!
  log Log.Info ("Image saved to: " ++ filepath) ;;!
  ret filepath.

(** [saveBase64Image(base64Data, prompt, mimeType)]: the data are the
    bytes that are written, and the prompt is not used. *)
Definition saveBase64Image (mimeType : string) : M string :=
  log Log.Info "Saving base64 encoded image" ;;!
  writeImage (Generator.extensionOfMime mimeType).

(** [downloadImageFromUrl(imageUrl)] *)
Definition downloadImageFromUrl (imageUrl : string) : M string :=
  log Log.Info ("Downloading image from URL: " ++ imageUrl) ;;!
  called (Fetch imageUrl) ;;!
  let! response := answer (fetch w imageUrl) in
  if negb (ok response)
  then throw (ImageGen.ErrorObject
                ("Failed to download image: " ++ status response ++ " "
                 ++ statusText response))
  else
    failing (bodyFailure response) ;;!
    let contentType := JS.orElse (contentType response) "image/jpeg" in
    writeImage (Generator.extensionOfContentType contentType).

Definition enhance (prompt : string) : string :=
  "Create a stunning desktop wallpaper image. " ++ prompt ++ ". "
  ++ String EnvFile.LF
       "Style: High quality, photorealistic or artistic, cinematic composition, beautiful lighting.".

Definition noImageData : ImageGen.thrown :=
  ImageGen.ErrorObject "No image data in generateImages response".

(** The [try] block inside: [generateImages]. *)
Definition viaGenerateImages (aspectRatio imageSize enhancedPrompt : string)
  : M string :=
  let! size :=
    if String.eqb imageSize "1K" || String.eqb imageSize "2K" then ret (Some imageSize)
    else if String.eqb imageSize "4K"
    then throw (ImageGen.ErrorObject
                  "generateImages does not support 4K, using generateContent")
    else ret None in
  let request :=
    {| imagesModel := Generator.modelName this; imagesPrompt := enhancedPrompt;
       imagesAspectRatio := aspectRatio; numberOfImages := 1; imagesSize := size |} in
  called (GenerateImages request) ;;!
  let! response := answer (generateImages w request) in
  match generatedImages response with
  | Some (first :: _) =>
      match image first with
      | Some found =>
          if JS.truthy (imageBytes found) then
            let mimeType := JS.orElse (imageMimeType found) "image/png" in
            log Log.Info "Found image bytes in generateImages response" ;;!
            saveBase64Image mimeType
          else throw noImageData
      | None => throw noImageData
      end
  | _ => throw noImageData
  end.

(** [part.inlineData?.data], [part.inlineData.mimeType] and
    [part.fileData?.fileUri] *)
Definition inlineOf (p : part) : option string :=
  match inlineData p with
  | Some inline => data inline
  | None => None
  end.

Definition mimeOf (p : part) : option string :=
  match inlineData p with
  | Some inline => mimeType inline
  | None => None
  end.

Definition fileUriOf (p : part) : option string :=
  match fileData p with
  | Some file => fileUri file
  | None => None
  end.

(** The loop over the parts of the first candidate, and what follows it
    when no part has given an image. *)
Fixpoint fromParts (l : list part) : M string :=
  match l with
  | [] =>
      log Log.Error "Unexpected API response format" ;;!
      throw (ImageGen.ErrorObject
               "Unexpected API response format. No image data found in response.")
  | p :: rest =>
      if JS.truthy (inlineOf p) then
        let mimeType := JS.orElse (mimeOf p) "image/png" in
        log Log.Info "Found inline image data in response" ;;!
        saveBase64Image mimeType
      else if JS.truthy (fileUriOf p) then
        log Log.Info "Found file data URI in response" ;;!
        downloadImageFromUrl (JS.orElse (fileUriOf p) "")
      else fromParts rest
  end.

(** The test of the model that can be given an image size. *)
Definition highResolution (model : string) : bool :=
  JS.includes model "gemini-3" && JS.includes model "pro" && JS.includes model "image".

(** The [catch] block inside: [generateContent]. *)
Definition viaGenerateContent (aspectRatio imageSize enhancedPrompt : string)
  : M string :=
  log Log.Debug "generateImages failed, trying generateContent with imageConfig" ;;!
  let model := Generator.modelName this in
  (if highResolution model
   then log Log.Info ("Using high-resolution mode: " ++ imageSize)
   else if negb (String.eqb imageSize "1K")
        then log Log.Warn ("Model " ++ model ++ " only supports 1K resolution. For "
                           ++ imageSize ++ ", use Gemini 3 Pro Image Preview model.")
        else ret tt) ;;!
  let request :=
    {| contentModel := model; contents := enhancedPrompt;
       responseModalities := ["IMAGE"]; contentAspectRatio := aspectRatio;
       contentSize := if highResolution model then Some imageSize else None |} in
  called (GenerateContent request) ;;!
  let! response := answer (generateContent w request) in
  match candidates response with
  | Some (first :: _) =>
      match match content first with
            | Some c => parts c
            | None => None
            end with
      | Some (p :: rest) => fromParts (p :: rest)
      | _ => throw (ImageGen.ErrorObject "No content parts in response")
      end
  | _ => throw (ImageGen.ErrorObject "No candidates returned from API")
  end.

(** The body of the outer [try]. *)
Definition attempt (prompt : string) : M string :=
  ensureImagesDir ;;!
  log Log.Info ("Generating image with prompt: " ++ prompt) ;;!
  let enhancedPrompt := enhance prompt in
  let aspectRatio := JS.orElse (Some (Config.aspectRatio (Config.app config))) "16:9" in
  let imageSize := JS.orElse (Some (Config.imageSize (Config.app config))) "1K" in
  log Log.Info ("Using aspect ratio: " ++ aspectRatio ++ ", image size: " ++ imageSize
                ++ ", model: " ++ Generator.modelName this) ;;!
  log Log.Debug "Generating image with config" ;;!
  tryCatch (viaGenerateImages aspectRatio imageSize enhancedPrompt)
           (fun _ => viaGenerateContent aspectRatio imageSize enhancedPrompt).

(** [generateImage(prompt)]: the body, then the outer [catch], which is
    [ImageGen.generateImage]. *)
Definition generateImage (prompt : string) : M string :=
  fun s =>
    let '(s', r) := attempt prompt s in
    let '(l, r') := ImageGen.generateImage (Generator.modelName this) r (logged s') in
    ({| logged := l; calls := calls s'; clockReads := clockReads s' |}, r').

End Run.

End Generate.

(* ================================================================== *)
(** * Setting the wallpaper *)
(* ================================================================== *)

(** [setWallpaper] of the wallpaper service and [runOnce] of the
    scheduler, which calls it. *)
Module Wallpaper.
Import Exn.
Local Open Scope exn_scope.

(** The commands given to [exec]: the three [reg add] commands, for the
    path of the wallpaper, its style and its tiling, and the run of the
    PowerShell script. *)
Inductive command : Type :=
  | RegWallpaper (wallpaperPath : string)
  | RegWallpaperStyle
  | RegTileWallpaper
  | RunScript (scriptPath : string).

(** The host: the platform, its directories, which files exist, and how
    each call to the outside ends, with what it throws if it fails. *)
Record host : Type := {
  win32 : bool;
  sep : string;
  homedir : string;
  tmpdir : string;
  resolve : string -> string;
  existsSync : string -> bool;
  mkdirFailure : option ImageGen.thrown;
  copyFailure : option ImageGen.thrown;
  execFailure : command -> option ImageGen.thrown;
  writeFailure : option ImageGen.thrown;
  packageFailure : option ImageGen.thrown
}.

Definition failing (failure : option ImageGen.thrown) : M ImageGen.thrown unit :=
  match failure with
  | Some e => throw e
  | None => ret tt
  end.

(** The path between single quotes in the PowerShell script: every
    single quote is doubled. *)
Definition escapePath (path : string) : string :=
  JS.replaceAllChar Script.SQUOTE
    (String Script.SQUOTE (String Script.SQUOTE EmptyString)) path.

(** The registry method.  (The removal of the script at its end cannot
    make it fail.) *)
Definition viaRegistry (h : host) (wallpaperPath : string) : M ImageGen.thrown unit :=
  failing (execFailure h (RegWallpaper wallpaperPath)) ;;!
  failing (execFailure h RegWallpaperStyle) ;;!
  failing (execFailure h RegTileWallpaper) ;;!
  let scriptPath := Config.pathJoin (sep h) (tmpdir h) "set-wallpaper.ps1" in
  failing (writeFailure h) ;;!
  failing (execFailure h (RunScript scriptPath)) ;;!
  log Log.Info "Wallpaper set via registry + SystemParametersInfo successfully".

(** The wallpaper package. *)
Definition viaPackage (h : host) : M ImageGen.thrown unit :=
  failing (packageFailure h) ;;!
  log Log.Info "Wallpaper set via wallpaper package successfully".

(** [setWallpaper(imagePath)] *)
Definition setWallpaper (h : host) (imagePath : string) : M ImageGen.thrown unit :=
  tryCatch
    (let absolutePath := resolve h imagePath in
     (if negb (existsSync h absolutePath)
      then throw (ImageGen.ErrorObject ("Image file not found: " ++ absolutePath))
      else ret tt) ;;!
     log Log.Info ("Setting wallpaper to: " ++ absolutePath) ;;!
     let wallpaperDir :=
       Config.pathJoin (sep h) (Config.pathJoin (sep h) (homedir h) "Pictures")
                       "Screensaver" in
     failing (mkdirFailure h) ;;!
     let wallpaperPath := Config.pathJoin (sep h) wallpaperDir "current-wallpaper.png" in
     failing (copyFailure h) ;;!
     log Log.Info ("Copied wallpaper to: " ++ wallpaperPath) ;;!
     if win32 h then
       tryCatch (viaRegistry h wallpaperPath)
         (fun regError =>
            log Log.Warn "Registry method failed, trying alternatives" ;;!
            tryCatch (viaPackage h)
              (fun apiError => log Log.Warn "Wallpaper package failed"))
     else viaPackage h)
    (fun error => log Log.Error "Failed to set wallpaper" ;;! throw error).

(** [runOnce()] of the scheduler, given how [generateImage] ends. *)
Definition runOnce (h : host) (generated : result ImageGen.thrown string)
  : M ImageGen.thrown unit :=
  tryCatch
    (log Log.Info "Starting wallpaper update process" ;;!
     let! imagePath := (fun l => (l, generated)) in
     setWallpaper h imagePath ;;!
     log Log.Info "Wallpaper update completed successfully")
    (fun error => log Log.Error "Wallpaper update failed" ;;! throw error).

End Wallpaper.

(* ================================================================== *)
(** * The setup of the command line *)
(* ================================================================== *)

(** [setup()]: the questions it asks and the [.env] file it writes. *)
Module Setup.

(** What the user types at each question. *)
Record answers : Type := {
  overwrite : string;
  apiKey : string;
  apiUrl : string;
  imagePrompt : string;
  scheduleTime : string;
  timezone : string
}.

Definition defaultApiUrl : string := "https://api.google.com/nano-banana-pro/generate".

(** The lines of the template; the last, empty, one stands for the line
    feed that ends the file. *)
Definition envLines (a : answers) : list string :=
  let apiUrl := JS.orElse (Some (apiUrl a)) defaultApiUrl in
  let imagePrompt := JS.orElse (Some (imagePrompt a)) Config.defaultPrompt in
  let scheduleTime := JS.orElse (Some (scheduleTime a)) "09:00" in
  let timezone := JS.orElse (Some (timezone a)) "America/New_York" in
  [ "# Google API Configuration";
    "# Get your API key from: https://aistudio.google.com/ (or your Google API provider)";
    "GOOGLE_API_KEY=" ++ JS.trim (apiKey a);
    "GOOGLE_API_URL=" ++ JS.trim apiUrl;
    "";
    "# Application Configuration";
    "IMAGE_PROMPT=" ++ imagePrompt;
    "IMAGES_DIR=./images";
    "LOG_LEVEL=info";
    "";
    "# Scheduling Configuration (if using built-in scheduler)";
    "SCHEDULE_TIME=" ++ scheduleTime;
    "TIMEZONE=" ++ timezone;
    "" ].

Definition envContent (a : answers) : string :=
  JS.join (String EnvFile.LF "") (envLines a).

(** How [setup] ends: cancelled, with the exit code 1, or with the file
    written. *)
Inductive ending : Type :=
  | Cancelled
  | Exit1
  | Written (content : string).

(** [setup()], given whether a [.env] file is there already and whether
    the writing of the file fails. *)
Definition setup (envExists : bool) (a : answers) (writeFails : bool) : ending :=
  if envExists && negb (String.eqb (JS.toLowerCase (overwrite a)) "y") then Cancelled
  else if negb (JS.truthy (Some (apiKey a))) || String.eqb (JS.trim (apiKey a)) ""
  then Exit1
  else if writeFails then Exit1
  else Written (envContent a).

End Setup.

(* ================================================================== *)
(** * The file that [load-config] writes back *)
(* ================================================================== *)

(** When the [load-config] handler has corrected a deprecated endpoint,
    it writes the corrected settings back to the file of the user. *)
Module LoadConfig.

(** The record the handler reads from the content, before any
    correction. *)
Definition readRaw (content : string) : EnvFile.record :=
  if JS.isEmpty content then []
  else fold_left EnvFile.readLineRaw (JS.split EnvFile.LF content) [].

(** The test of the correction that is written back. *)
Definition deprecated (config : EnvFile.record) : bool :=
  JS.truthy (EnvFile.get "GOOGLE_API_URL" config)
  && EnvFile.isOldUrl (JS.orElse (EnvFile.get "GOOGLE_API_URL" config) "").

(** An entry as it is written back: the key, [=] and the value, with no
    quoting. *)
Definition rawEntry (kv : string * string) : string :=
  (fst kv ++ "=" ++ snd kv)%string.

(** The content written back, if any. *)
Definition writeBack (content : string) : option string :=
  let config := readRaw content in
  if deprecated config
  then Some (JS.join (EnvFile.quote EnvFile.LF)
               (map rawEntry (EnvFile.set "GOOGLE_API_URL" EnvFile.correctUrl config)))
  else None.

End LoadConfig.

(* ================================================================== *)
(** * Notions of the further properties *)
(* ================================================================== *)

Module SpecX.
Local Open Scope Z_scope.

(** Reading an escaped path back: a pair of backslashes is one backslash,
    a pair of single quotes is one single quote, and a single quote that
    is alone ends the reading without a result. *)
Fixpoint unescapePath (s : string) : option string :=
  match s with
  | EmptyString => Some EmptyString
  | String c r =>
      if Ascii.eqb c Script.SQUOTE then
        match r with
        | String c' r' =>
            if Ascii.eqb c' Script.SQUOTE
            then option_map (String c) (unescapePath r') else None
        | EmptyString => None
        end
      else if Ascii.eqb c Script.BACKSLASH then
        match r with
        | String c' r' =>
            if Ascii.eqb c' Script.BACKSLASH
            then option_map (String c) (unescapePath r')
            else option_map (String c) (unescapePath r)
        | EmptyString => Some (String c EmptyString)
        end
      else option_map (String c) (unescapePath r)
  end.

(** The text between single quotes as PowerShell reads it: a pair of
    single quotes is one single quote, a single quote that is alone ends
    the text, and no other character is special. *)
Fixpoint singleQuoted (s : string) : option string :=
  match s with
  | EmptyString => Some EmptyString
  | String c r =>
      if Ascii.eqb c Script.SQUOTE then
        match r with
        | String c' r' =>
            if Ascii.eqb c' Script.SQUOTE
            then option_map (String c) (singleQuoted r') else None
        | EmptyString => None
        end
      else option_map (String c) (singleQuoted r)
  end.

(** An asset that [checkForUpdates] takes for the Windows build, and
    one it passes over. *)
Definition windowsZip (a : Update.asset) : Prop :=
  exists n, Update.name a = Some n
            /\ JS.includes n "windows" = true /\ JS.endsWith n ".zip" = true.

Definition otherAsset (a : Update.asset) : Prop :=
  exists n, Update.name a = Some n
            /\ JS.includes n "windows" && JS.endsWith n ".zip" = false.

(** The address is that of the first asset of the release that is taken
    for the Windows build. *)
Definition firstWindowsZip (release : Update.release) (url : string) : Prop :=
  exists before a after,
    Update.assets release = Some (before ++ a :: after)%list
    /\ Update.browser_download_url a = Some url
    /\ windowsZip a
    /\ Forall otherAsset before.

(** The beginnings of the addresses of a repository on GitHub. *)
Definition githubPrefixes : list string :=
  ["https://github.com/"; "http://github.com/"; "git+https://github.com/";
   "git://github.com/"; "github.com/"].

Definition noSlash (s : string) : bool := Spec.allChars (Spec.isNot "/") s.

(** The event loop turned [n] times. *)
Fixpoint fireMany (n : nat) (w : Sched.world) : option Sched.world :=
  match n with
  | O => Some w
  | S n' =>
      match Sched.fireNext w with
      | Some w' => fireMany n' w'
      | None => None
      end
  end.

(** [n] instants one day apart, from [first] on. *)
Definition daily (first : Z) (n : nat) : list Z :=
  map (fun i => first + Z.of_nat i * Sched.dailyInterval) (seq 0 n).

(** The models the image generator may end with. *)
Definition usable (model : string) : Prop :=
  model <> EmptyString
  /\ Spec.allChars (Spec.isNot ":") model = true
  /\ JS.includes model "flash-image" = false
  /\ (JS.includes model "gemini-3-pro" = true -> JS.includes model "image" = true).

(** The requests to the API among the calls. *)
Definition apiOf (l : list Generate.call) : list Generate.call :=
  List.filter (fun c => match c with
                        | Generate.GenerateImages _ | Generate.GenerateContent _ => true
                        | _ => false
                        end) l.

(** A path the generator may give: that of a file in its images
    directory, named after a reading of the clock, with one of the three
    extensions, whose writing has gone through. *)
Definition written (w : Generate.world) (sep : string)
           (this : Generator.ImageGenerator) (path : string) : Prop :=
  exists (k : nat) (extension : string),
    path = Config.pathJoin sep (Generator.imagesDir this)
             (Generator.generateFilename (Generate.clock w k) extension)
    /\ In extension ["jpg"; "png"; "webp"]
    /\ Generate.writeFailure w path = None.

(** What a computation adds to the calls, with how it ends. *)
Definition adds {A : Type}
           (P : list Generate.call -> Exn.result ImageGen.thrown A -> Prop)
           (c : Generate.M A) : Prop :=
  forall s : Generate.state,
  exists tail : list Generate.call,
    Generate.calls (fst (c s)) = (Generate.calls s ++ tail)%list
    /\ P tail (snd (c s)).

(** No request to the API among the calls, and no path given but that
    of a file that has been written. *)
Definition wrote (w : Generate.world) (sep : string)
           (this : Generator.ImageGenerator)
           (tail : list Generate.call) (r : Exn.result ImageGen.thrown string) : Prop :=
  apiOf tail = []
  /\ forall path : string,
       r = Exn.Ok path ->
       In (Generate.WriteFile path) tail /\ written w sep this path.

(** A Windows host on which the registry commands and the wallpaper
    package all fail. *)
Definition failingHost : Wallpaper.host :=
  {| Wallpaper.win32 := true; Wallpaper.sep := "\";
     Wallpaper.homedir := "C:\Users\me"; Wallpaper.tmpdir := "C:\Temp";
     Wallpaper.resolve := fun p => p; Wallpaper.existsSync := fun _ => true;
     Wallpaper.mkdirFailure := None; Wallpaper.copyFailure := None;
     Wallpaper.execFailure := fun _ => Some (ImageGen.ErrorObject "Command failed");
     Wallpaper.writeFailure := None;
     Wallpaper.packageFailure := Some (ImageGen.ErrorObject "not supported") |}.

(** Answers to the questions of the setup: a key with a space on
    either side, and the other questions left unanswered. *)
Definition typed : Setup.answers :=
  {| Setup.overwrite := ""; Setup.apiKey := " AIza-key "; Setup.apiUrl := "";
     Setup.imagePrompt := ""; Setup.scheduleTime := ""; Setup.timezone := "" |}.

(** An entry as the [load-config] handler reads one from a file: the
    key is a name of a setting, or empty; the value is on one line and
    has no white space at either end. *)
Definition rawOk (kv : string * string) : Prop :=
  (fst kv = EmptyString \/ Spec.keyOk (fst kv) = true)
  /\ EnvFile.noLineTerminator (snd kv) = true
  /\ JS.trim (snd kv) = snd kv.

(** A configuration whose schedule time has no colon. *)
Definition noColonConfig : Config.Config :=
  {| Config.google := {| Config.apiKey := None; Config.apiUrl := Config.correctUrl |};
     Config.app := Config.app Spec.defaultConfig;
     Config.schedule := {| Config.time := "0900"; Config.timezone := "UTC" |} |}.

(** The first instant of the year 10000. *)
Definition year10000 : Z := 253402300800000.

(** A line of a [.env] file that the rewriting of the endpoint takes out
    as a whole or leaves as a whole: it has the marker at its start and
    no carriage return, or it has no marker. *)
Definition plainLine (line : string) : bool :=
  if JS.includes line EnvRewrite.marker
  then JS.startsWith line EnvRewrite.marker
       && Spec.allChars (Spec.isNot EnvFile.CR) line
  else true.

End SpecX.


(* ================================================================== *)
(** * Properties *)
(* ================================================================== *)

(** ** Splitting and joining *)

Lemma split_not_nil (sep : ascii) (s : string) : JS.split sep s <> [].
Proof.
  induction s as [|c s IH]; simpl; [discriminate |].
  destruct (Ascii.eqb c sep); [discriminate |].
  destruct (JS.split sep s); discriminate.
Qed.

Lemma split_pieces (sep : ascii) (s : string) :
  Forall (fun c => Spec.allChars (Spec.isNot sep) c = true) (JS.split sep s).
Proof.
  induction s as [|c s IH]; simpl.
  - constructor; [reflexivity | constructor].
  - destruct (Ascii.eqb c sep) eqn:E.
    + constructor; [reflexivity | exact IH].
    + destruct (JS.split sep s) as [|h t].
      * constructor; [| constructor].
        simpl. unfold Spec.isNot. rewrite E. reflexivity.
      * inversion IH as [|? ? Hh Ht]; subst. constructor; [| exact Ht].
        simpl. unfold Spec.isNot at 1. rewrite E. exact Hh.
Qed.

Lemma split_append (sep : ascii) (c r : string) :
  Spec.allChars (Spec.isNot sep) c = true ->
  JS.split sep (c ++ String sep r) = c :: JS.split sep r.
Proof.
  induction c as [|a c IH]; simpl; intros H.
  - rewrite Ascii.eqb_refl. reflexivity.
  - apply andb_true_iff in H. destruct H as [Ha Hc].
    unfold Spec.isNot in Ha. apply negb_true_iff in Ha. rewrite Ha.
    rewrite (IH Hc). reflexivity.
Qed.

Lemma split_one (sep : ascii) (c : string) :
  Spec.allChars (Spec.isNot sep) c = true -> JS.split sep c = [c].
Proof.
  induction c as [|a c IH]; simpl; intros H; [reflexivity |].
  apply andb_true_iff in H. destruct H as [Ha Hc].
  unfold Spec.isNot in Ha. apply negb_true_iff in Ha. rewrite Ha.
  rewrite (IH Hc). reflexivity.
Qed.

Lemma split_join (sep : ascii) (parts : list string) :
  parts <> [] ->
  Forall (fun c => Spec.allChars (Spec.isNot sep) c = true) parts ->
  JS.split sep (JS.join (String sep "") parts) = parts.
Proof.
  induction parts as [|c rest IH]; intros Hne Hall; [congruence |].
  inversion Hall as [|? ? Hc Hrest]; subst.
  destruct rest as [|c' rest].
  - simpl. apply split_one. exact Hc.
  - change (JS.join (String sep "") (c :: c' :: rest))
      with (c ++ String sep (JS.join (String sep "") (c' :: rest))).
    rewrite split_append by exact Hc.
    rewrite IH; [reflexivity | discriminate | exact Hrest].
Qed.

(** ** Numbers and their order *)

Lemma orZero_not_NaN (x : option JS.number) : JS.orZero x <> JS.NaN.
Proof.
  destruct x as [[| |k|]|]; simpl; try discriminate.
  destruct (k =? 0)%Z; discriminate.
Qed.

Lemma lt_irrefl (a : JS.number) : JS.lt a a = false.
Proof. destruct a; simpl; auto using Z.ltb_irrefl. Qed.

Lemma lt_connected (a b : JS.number) :
  a <> JS.NaN -> b <> JS.NaN ->
  JS.lt a b = false -> JS.lt b a = false -> a = b.
Proof.
  destruct a, b; simpl; try congruence.
  intros _ _ H1 H2. apply Z.ltb_ge in H1, H2. f_equal. lia.
Qed.

(** ** Decimal numerals *)

Lemma allChars_impl (p q : ascii -> bool) (s : string) :
  (forall c, p c = true -> q c = true) ->
  Spec.allChars p s = true -> Spec.allChars q s = true.
Proof.
  intros Hpq. induction s as [|c s IH]; simpl; [reflexivity |].
  intros H. apply andb_true_iff in H. destruct H as [Hc Hs].
  rewrite (Hpq c Hc), (IH Hs). reflexivity.
Qed.

Lemma allChars_app (p : ascii -> bool) (s1 s2 : string) :
  Spec.allChars p (s1 ++ s2) = Spec.allChars p s1 && Spec.allChars p s2.
Proof.
  induction s1 as [|c s1 IH]; simpl; [reflexivity |].
  rewrite IH, andb_assoc. reflexivity.
Qed.

(** A decimal digit is no white space and none of the characters that
    start another kind of literal. *)
Lemma digit_plain (c : ascii) :
  JS.isDigitIn 10 c = true ->
  JS.isWhiteSpace c = false
  /\ Ascii.eqb "x" c = false /\ Ascii.eqb "X" c = false
  /\ Ascii.eqb "o" c = false /\ Ascii.eqb "O" c = false
  /\ Ascii.eqb "b" c = false /\ Ascii.eqb "B" c = false
  /\ Ascii.eqb "+" c = false /\ Ascii.eqb "-" c = false
  /\ Ascii.eqb c "I" = false /\ Ascii.eqb c ":" = false.
Proof.
  destruct c as [[] [] [] [] [] [] [] []]; vm_compute; intros H;
    try discriminate H; repeat split.
Qed.

Lemma trimEnd_plain (s : string) :
  Spec.allChars (fun c => negb (JS.isWhiteSpace c)) s = true -> JS.trimEnd s = s.
Proof.
  induction s as [|c s IH]; simpl; [reflexivity |].
  intros H. apply andb_true_iff in H. destruct H as [Hc Hs].
  rewrite (IH Hs). apply negb_true_iff in Hc. rewrite Hc.
  destruct s; reflexivity.
Qed.

Lemma trim_plain (s : string) :
  Spec.allChars (fun c => negb (JS.isWhiteSpace c)) s = true -> JS.trim s = s.
Proof.
  intros H. unfold JS.trim.
  assert (JS.trimStart s = s) as ->.
  { destruct s as [|c s]; simpl in *; [reflexivity |].
    apply andb_true_iff in H. destruct H as [Hc _].
    apply negb_true_iff in Hc. rewrite Hc. reflexivity. }
  apply trimEnd_plain. exact H.
Qed.

Lemma takeDigits_all (s : string) :
  Spec.allChars (JS.isDigitIn 10) s = true -> JS.takeDigits s = (s, "").
Proof.
  induction s as [|c s IH]; simpl; [reflexivity |].
  intros H. apply andb_true_iff in H. destruct H as [Hc Hs].
  rewrite Hc, (IH Hs). reflexivity.
Qed.

(** An integer below 2^53 is a double: rounding changes nothing. *)
Lemma roundToDouble_exact (m : Z) :
  (0 <= m < 2 ^ 53)%Z -> JS.roundToDouble m 1 = JS.ofZ m.
Proof.
  intros [H0 H1].
  destruct (Z.eq_dec m 0%Z) as [-> | Hne]; [vm_compute; reflexivity |].
  assert (0 < m)%Z as Hpos by lia.
  unfold JS.roundToDouble, JS.ofZ.
  set (U := JS.unit_exp). assert (U = 1074)%Z as HU by reflexivity.
  rewrite Z.div_1_r, Z.mul_1_l.
  rewrite Z.log2_mul_pow2 by lia.
  pose proof (Z.log2_nonneg m) as Hl0.
  assert (Z.log2 m < 53)%Z as Hl1 by (apply Z.log2_lt_pow2; lia).
  rewrite Z.max_r by lia.
  set (s := (U + Z.log2 m + 1 - 53)%Z).
  assert (2 ^ U = 2 ^ (U - s) * 2 ^ s)%Z as Hs.
  { rewrite <- Z.pow_add_r by lia. f_equal. lia. }
  assert (0 < 2 ^ s)%Z as Hps by (apply Z.pow_pos_nonneg; lia).
  replace (m * 2 ^ U)%Z with (m * 2 ^ (U - s) * 2 ^ s)%Z by (rewrite Hs; ring).
  rewrite Z.div_mul, Z.mod_mul by lia.
  change (2 * 0)%Z with 0%Z.
  destruct (0 <? 2 ^ s)%Z eqn:E; [| apply Z.ltb_ge in E; lia].
  destruct (2 ^ (U + 1024) <=? m * 2 ^ (U - s) * 2 ^ s)%Z eqn:E2; [| reflexivity].
  exfalso. apply Z.leb_le in E2. rewrite <- Z.mul_assoc, <- Hs in E2.
  assert (0 < 2 ^ U)%Z as HpU by (apply Z.pow_pos_nonneg; lia).
  assert (m * 2 ^ U < 2 ^ 53 * 2 ^ U)%Z as Hlt
      by (apply Z.mul_lt_mono_pos_r; assumption).
  rewrite <- Z.pow_add_r in Hlt by lia.
  assert (2 ^ (53 + U) <= 2 ^ (U + 1024))%Z as Hle
      by (apply Z.pow_le_mono_r; lia).
  lia.
Qed.

(** The Number of a plain decimal numeral below 2^53 is its value. *)
Lemma Number_decimal (s : string) :
  s <> "" -> Spec.allChars (JS.isDigitIn 10) s = true ->
  (JS.decimalValue s < 2 ^ 53)%Z ->
  JS.Number s = JS.ofZ (JS.decimalValue s).
Proof.
  intros Hne Hd Hlt. unfold JS.Number.
  rewrite trim_plain
    by (apply (allChars_impl (JS.isDigitIn 10)); [| exact Hd];
        intros c Hc; apply digit_plain in Hc; destruct Hc as [-> _]; reflexivity).
  destruct s as [|c1 s1]; [congruence |]. clear Hne.
  pose proof Hd as Hd'. simpl in Hd'. apply andb_true_iff in Hd'.
  destruct Hd' as [Hc1 Hs1].
  pose proof (digit_plain c1 Hc1) as (_ & _ & _ & _ & _ & _ & _ & Hplus & Hminus & HI & _).
  assert (forall a b, (a = "x" \/ a = "X" \/ a = "o" \/ a = "O" \/ a = "b" \/ a = "B")%char ->
                      JS.startsWith (String c1 s1) (String b (String a "")) = false) as Hpre.
  { intros a b Ha. destruct s1 as [|c2 s2].
    - simpl. apply andb_false_r.
    - simpl in Hs1. apply andb_true_iff in Hs1. destruct Hs1 as [Hc2 _].
      pose proof (digit_plain c2 Hc2) as (_ & Hx & HX & Ho & HO & Hb & HB & _).
      destruct Ha as [-> | [-> | [-> | [-> | [-> | ->]]]]]; cbn [JS.startsWith];
        rewrite ?Hx, ?HX, ?Ho, ?HO, ?Hb, ?HB; apply andb_false_r. }
  cbv [JS.isEmpty]. simpl String.eqb.
  rewrite !Hpre by tauto. simpl orb.
  assert (JS.startsWith (String c1 s1) "+" = false) as ->
      by (cbn [JS.startsWith]; rewrite Hplus; reflexivity).
  assert (JS.startsWith (String c1 s1) "-" = false) as ->
      by (cbn [JS.startsWith]; rewrite Hminus; reflexivity).
  unfold JS.parseUnsigned.
  assert (String.eqb (String c1 s1) "Infinity" = false) as ->
      by (cbn [String.eqb]; rewrite HI; reflexivity).
  unfold JS.parseUnsignedDecimal. rewrite (takeDigits_all _ Hd).
  cbv [JS.isEmpty]. simpl String.eqb. cbv [JS.parseExponent JS.decimalToNumber].
  simpl Z.leb. cbv iota. rewrite Z.pow_0_r, Z.mul_1_r.
  apply roundToDouble_exact. split; [| exact Hlt].
  unfold JS.decimalValue.
  assert (forall t acc, (0 <= acc)%Z ->
            match JS.digitsValue 10 acc t with Some v => (0 <= v)%Z | None => True end) as Hnn.
  { induction t as [|c t IH]; intros acc Hacc; simpl; [exact Hacc |].
    unfold JS.digitValue.
    pose proof (N2Z.is_nonneg (N_of_ascii c)) as Hc. fold (JS.code c) in Hc.
    repeat match goal with
           | |- context [if ?b then _ else _] => destruct b eqn:?
           end; try exact I; apply IH;
      repeat match goal with
             | H : (_ && _)%bool = true |- _ => apply andb_true_iff in H; destruct H
             | H : (_ <=? _)%Z = true |- _ => apply Z.leb_le in H
             end; lia. }
  specialize (Hnn (String c1 s1) 0%Z (Z.le_refl 0)).
  destruct (JS.digitsValue 10 0 (String c1 s1)); [exact Hnn | lia].
Qed.

Lemma digitsValue_app (b acc : Z) (s1 s2 : string) :
  JS.digitsValue b acc (s1 ++ s2)
  = match JS.digitsValue b acc s1 with
    | Some a => JS.digitsValue b a s2
    | None => None
    end.
Proof.
  revert acc. induction s1 as [|c s1 IH]; intros acc; simpl; [reflexivity |].
  destruct (JS.digitValue c) as [d|]; [| reflexivity].
  destruct (d <? b)%Z; [apply IH | reflexivity].
Qed.

Lemma digit_char (d : Z) :
  (0 <= d < 10)%Z ->
  JS.digitValue (ascii_of_N (Z.to_N (48 + d))) = Some d
  /\ JS.isDigitIn 10 (ascii_of_N (Z.to_N (48 + d))) = true.
Proof.
  intros H.
  assert (d = 0 \/ d = 1 \/ d = 2 \/ d = 3 \/ d = 4 \/ d = 5 \/ d = 6 \/ d = 7
          \/ d = 8 \/ d = 9)%Z as Hd by lia.
  repeat (destruct Hd as [-> | Hd]; [split; reflexivity |]).
  subst d. split; reflexivity.
Qed.

Lemma digits_value (w : nat) (v acc : Z) :
  (0 <= v)%Z ->
  JS.digitsValue 10 acc (Date.digits w v)
  = Some (acc * 10 ^ Z.of_nat w + v mod 10 ^ Z.of_nat w)%Z.
Proof.
  revert v acc. induction w as [|w IH]; intros v acc Hv.
  - simpl. rewrite Z.mod_1_r. f_equal. lia.
  - simpl Date.digits. rewrite digitsValue_app.
    rewrite IH by (apply Z.div_pos; lia).
    assert (0 <= v mod 10 < 10)%Z as Hr by (apply Z.mod_pos_bound; lia).
    simpl JS.digitsValue. rewrite (proj1 (digit_char _ Hr)).
    destruct (v mod 10 <? 10)%Z eqn:E; [| apply Z.ltb_ge in E; lia].
    f_equal. rewrite Nat2Z.inj_succ, Z.pow_succ_r by lia.
    assert (0 < 10 ^ Z.of_nat w)%Z as Hp by (apply Z.pow_pos_nonneg; lia).
    rewrite (Z.rem_mul_r v 10 (10 ^ Z.of_nat w)) by lia. ring.
Qed.

Lemma digits_are_digits (w : nat) (v : Z) :
  Spec.allChars (JS.isDigitIn 10) (Date.digits w v) = true.
Proof.
  revert v. induction w as [|w IH]; intros v; simpl; [reflexivity |].
  rewrite allChars_app, IH. simpl.
  assert (0 <= v mod 10 < 10)%Z as Hr by (apply Z.mod_pos_bound; lia).
  rewrite (proj2 (digit_char _ Hr)). reflexivity.
Qed.

(** A number below 100 written with two digits reads back as itself. *)
Lemma Number_two_digits (v : Z) :
  (0 <= v < 100)%Z -> JS.Number (Date.digits 2 v) = JS.ofZ v.
Proof.
  intros Hv.
  assert (JS.decimalValue (Date.digits 2 v) = v) as Hval.
  { unfold JS.decimalValue. rewrite digits_value by lia.
    change (10 ^ Z.of_nat 2)%Z with 100%Z. rewrite Z.mod_small by lia.
    reflexivity. }
  rewrite <- Hval at 2. apply Number_decimal.
  - cbn [Date.digits String.append]. discriminate.
  - apply digits_are_digits.
  - rewrite Hval. lia.
Qed.

(** ** The loop of [isNewerVersion] *)

Section VersionLoop.
Variables newParts currentParts : list JS.number.

Lemma versionLoop_true_iff (n i : nat) :
  Update.versionLoop newParts currentParts i n = true <->
  exists j, (i <= j < i + n)%nat
            /\ JS.gt (Spec.partAt newParts j) (Spec.partAt currentParts j) = true
            /\ forall k, (i <= k < j)%nat ->
                 Spec.partAt newParts k = Spec.partAt currentParts k.
Proof.
  revert i. induction n as [|n IH]; intros i; simpl.
  - split; [discriminate | intros (j & Hj & _); lia].
  - fold (Spec.partAt newParts i) (Spec.partAt currentParts i).
    destruct (JS.gt (Spec.partAt newParts i) (Spec.partAt currentParts i)) eqn:Hgt.
    + split; [intros _ | reflexivity].
      exists i. split; [lia | split; [assumption | intros k Hk; lia]].
    + destruct (JS.lt (Spec.partAt newParts i) (Spec.partAt currentParts i)) eqn:Hlt.
      * split; [discriminate | intros (j & Hj & Hgj & Heq)].
        destruct (Nat.eq_dec j i) as [-> | Hne]; [congruence |].
        assert (Spec.partAt newParts i = Spec.partAt currentParts i) as E
            by (apply Heq; lia).
        rewrite E, lt_irrefl in Hlt. discriminate.
      * assert (Spec.partAt newParts i = Spec.partAt currentParts i) as E.
        { apply lt_connected;
            [apply orZero_not_NaN | apply orZero_not_NaN | exact Hlt | exact Hgt]. }
        rewrite IH. split; intros (j & Hj & Hgj & Heq); exists j.
        -- split; [lia | split; [assumption |]].
           intros k Hk. destruct (Nat.eq_dec k i) as [-> | Hne]; [exact E |].
           apply Heq. lia.
        -- destruct (Nat.eq_dec j i) as [-> | Hne]; [congruence |].
           split; [lia | split; [assumption |]].
           intros k Hk. apply Heq. lia.
Qed.

(** Past the end of both arrays every part is 0, so nothing differs. *)
Lemma beyond_both (j : nat) :
  (Nat.max (length newParts) (length currentParts) <= j)%nat ->
  JS.gt (Spec.partAt newParts j) (Spec.partAt currentParts j) = false.
Proof.
  intros Hj. unfold Spec.partAt.
  rewrite (proj2 (nth_error_None newParts j)) by lia.
  rewrite (proj2 (nth_error_None currentParts j)) by lia.
  reflexivity.
Qed.

End VersionLoop.

Lemma isNewerVersion_true_iff (newVersion currentVersion : string) :
  Update.isNewerVersion newVersion currentVersion = true <->
  exists i, JS.gt (Spec.component newVersion i) (Spec.component currentVersion i) = true
            /\ forall j, (j < i)%nat ->
                 Spec.component newVersion j = Spec.component currentVersion j.
Proof.
  unfold Update.isNewerVersion. rewrite versionLoop_true_iff.
  split; intros (i & H).
  - destruct H as (Hi & Hgt & Heq). exists i. split; [exact Hgt |].
    intros j Hj. apply Heq. lia.
  - destruct H as (Hgt & Heq). exists i.
    split; [| split; [exact Hgt | intros k Hk; apply Heq; lia]].
    split; [lia |]. simpl.
    destruct (Nat.lt_ge_cases i
                (Nat.max (length (map JS.Number (JS.split "." newVersion)))
                         (length (map JS.Number (JS.split "." currentVersion)))))
      as [Hlt | Hge]; [lia |].
    apply beyond_both in Hge. unfold Spec.component in Hgt. congruence.
Qed.

(** On integers that doubles hold, the order of Numbers is the order of
    the integers. *)
Lemma gt_ofZ (a b : Z) :
  JS.gt (JS.orZero (Some (JS.ofZ a))) (JS.orZero (Some (JS.ofZ b))) = (b <? a)%Z.
Proof.
  assert (forall n, JS.orZero (Some (JS.ofZ n)) = JS.ofZ n) as Hz.
  { intros n. unfold JS.ofZ. cbn [JS.orZero].
    destruct (n * 2 ^ JS.unit_exp =? 0)%Z eqn:E; [| reflexivity].
    apply Z.eqb_eq in E. rewrite E. reflexivity. }
  rewrite !Hz. unfold JS.gt, JS.ofZ. cbn [JS.lt].
  assert (0 < 2 ^ JS.unit_exp)%Z as Hp
      by (apply Z.pow_pos_nonneg; unfold JS.unit_exp; lia).
  destruct (b <? a)%Z eqn:E.
  - apply Z.ltb_lt in E. apply Z.ltb_lt. apply Z.mul_lt_mono_pos_r; assumption.
  - apply Z.ltb_ge in E. apply Z.ltb_ge. apply Z.mul_le_mono_nonneg_r; lia.
Qed.

(** C2.  [isNewerVersion(new, current)] compares the numeric components
    of the two dot-separated strings from the left, a missing component
    counting as 0: it is true exactly when, at the first component where
    the two differ, the one of [new] is larger, and false when all
    components are equal.  A component written as a decimal numeral below
    2^53 has the value of the numeral, and such values compare as
    integers.  So the answer is false on 1.2.0 against 1.10.0, true on
    2.0.0 against 1.9.9 and false on 1.0 against 1.0.0. *)
Theorem isNewerVersion_first_difference :
  (forall newVersion currentVersion : string,
      (Update.isNewerVersion newVersion currentVersion = true <->
       exists i,
         JS.gt (Spec.component newVersion i) (Spec.component currentVersion i) = true
         /\ forall j, (j < i)%nat ->
              Spec.component newVersion j = Spec.component currentVersion j)
      /\ ((forall i, Spec.component newVersion i = Spec.component currentVersion i) ->
          Update.isNewerVersion newVersion currentVersion = false))
  /\ (forall (v : string) (i : nat),
         nth_error (JS.split "." v) i = None -> Spec.component v i = JS.ofZ 0)
  /\ (forall (v : string) (i : nat) (c : string),
         nth_error (JS.split "." v) i = Some c ->
         c <> "" -> Spec.allChars (JS.isDigitIn 10) c = true ->
         (JS.decimalValue c < 2 ^ 53)%Z ->
         Spec.component v i = JS.orZero (Some (JS.ofZ (JS.decimalValue c))))
  /\ (forall a b : Z,
         JS.gt (JS.orZero (Some (JS.ofZ a))) (JS.orZero (Some (JS.ofZ b))) = (b <? a)%Z)
  /\ Update.isNewerVersion "1.2.0" "1.10.0" = false
  /\ Update.isNewerVersion "2.0.0" "1.9.9" = true
  /\ Update.isNewerVersion "1.0" "1.0.0" = false.
Proof.
  split; [| split; [| split; [| split; [| repeat split; vm_compute; reflexivity]]]].
  - intros newVersion currentVersion. split.
    + apply isNewerVersion_true_iff.
    + intros Hall.
      destruct (Update.isNewerVersion newVersion currentVersion) eqn:E; [| reflexivity].
      apply isNewerVersion_true_iff in E. destruct E as (i & Hgt & _).
      rewrite Hall in Hgt. unfold JS.gt in Hgt. rewrite lt_irrefl in Hgt. discriminate.
  - intros v i Hnone. unfold Spec.component, Spec.partAt.
    rewrite nth_error_map, Hnone. reflexivity.
  - intros v i c Hc Hne Hd Hlt. unfold Spec.component, Spec.partAt.
    rewrite nth_error_map, Hc. cbn [option_map].
    rewrite Number_decimal by assumption. reflexivity.
  - apply gt_ofZ.
Qed.

(** ** Components that are not numbers *)

Lemma component_ext_true (v v' w w' : string) :
  (forall i, Spec.component v i = Spec.component v' i) ->
  (forall i, Spec.component w i = Spec.component w' i) ->
  Update.isNewerVersion v w = true -> Update.isNewerVersion v' w' = true.
Proof.
  intros Hv Hw H. apply isNewerVersion_true_iff in H.
  apply isNewerVersion_true_iff. destruct H as (i & Hgt & Heq).
  exists i. rewrite <- Hv, <- Hw. split; [exact Hgt |].
  intros j Hj. rewrite <- Hv, <- Hw. apply Heq. exact Hj.
Qed.

Lemma isNewerVersion_ext (v v' w w' : string) :
  (forall i, Spec.component v i = Spec.component v' i) ->
  (forall i, Spec.component w i = Spec.component w' i) ->
  Update.isNewerVersion v w = Update.isNewerVersion v' w'.
Proof.
  intros Hv Hw.
  destruct (Update.isNewerVersion v w) eqn:E1;
    destruct (Update.isNewerVersion v' w') eqn:E2; try reflexivity.
  - rewrite (component_ext_true v v' w w' Hv Hw E1) in E2. discriminate.
  - rewrite (component_ext_true v' v w' w) in E1;
      [discriminate | intros; symmetry; apply Hv | intros; symmetry; apply Hw | exact E2].
Qed.

Lemma split_zeroed (v : string) :
  JS.split "." (Spec.zeroed v)
  = map (fun c => if JS.isNaN (JS.Number c) then "0" else c) (JS.split "." v).
Proof.
  unfold Spec.zeroed. apply split_join.
  - pose proof (split_not_nil "." v) as H.
    destruct (JS.split "." v); [congruence | discriminate].
  - pose proof (split_pieces "." v) as H.
    induction H as [|c l Hc Hl IH]; simpl; constructor; [| exact IH].
    destruct (JS.isNaN (JS.Number c)); [reflexivity | exact Hc].
Qed.

Lemma component_zeroed (v : string) (i : nat) :
  Spec.component (Spec.zeroed v) i = Spec.component v i.
Proof.
  unfold Spec.component, Spec.partAt. rewrite split_zeroed, !nth_error_map.
  destruct (nth_error (JS.split "." v) i) as [c|]; simpl; [| reflexivity].
  destruct (JS.Number c) eqn:E; simpl; rewrite ?E; reflexivity.
Qed.

(** C10.  A component that does not parse as a number counts as 0: its
    value in the comparison is 0, replacing every such component by 0
    changes no answer of [isNewerVersion] on either side, and two version
    strings with the same component values are not newer than each other;
    so 1.0.beta, 1.0.0 and 1.0 compare equal in both orders. *)
Theorem isNewerVersion_non_numeric_component :
  (forall (v : string) (i : nat) (c : string),
      nth_error (JS.split "." v) i = Some c -> JS.Number c = JS.NaN ->
      Spec.component v i = JS.Fin 0)
  /\ (forall v w : string,
         Update.isNewerVersion (Spec.zeroed v) w = Update.isNewerVersion v w
         /\ Update.isNewerVersion w (Spec.zeroed v) = Update.isNewerVersion w v)
  /\ (forall v w : string,
         (forall i, Spec.component v i = Spec.component w i) ->
         Update.isNewerVersion v w = false /\ Update.isNewerVersion w v = false)
  /\ JS.Number "beta" = JS.NaN
  /\ Spec.zeroed "1.0.beta" = "1.0.0"
  /\ Update.isNewerVersion "1.0.beta" "1.0.0" = false
  /\ Update.isNewerVersion "1.0.0" "1.0.beta" = false
  /\ Update.isNewerVersion "1.0.beta" "1.0" = false
  /\ Update.isNewerVersion "1.0" "1.0.beta" = false.
Proof.
  split; [| split; [| split; [| repeat split; vm_compute; reflexivity]]].
  - intros v i c Hc HN. unfold Spec.component, Spec.partAt.
    rewrite nth_error_map, Hc. simpl. rewrite HN. reflexivity.
  - intros v w. split; apply isNewerVersion_ext;
      intros i; auto using component_zeroed.
  - intros v w Hall.
    assert (forall a b, (forall i, Spec.component a i = Spec.component b i) ->
                        Update.isNewerVersion a b = false) as Heq.
    { intros a b Hab. destruct (Update.isNewerVersion a b) eqn:E; [| reflexivity].
      apply isNewerVersion_true_iff in E. destruct E as (i & Hgt & _).
      rewrite Hab in Hgt. unfold JS.gt in Hgt. rewrite lt_irrefl in Hgt.
      discriminate. }
    split; apply Heq; [exact Hall | intros i; symmetry; apply Hall].
Qed.

(** ** The update check *)

(** A [try] whose handler always returns never throws. *)
Lemma tryCatch_total {E A : Type} (body : Exn.M E A) (handler : E -> Exn.M E A) :
  (forall e l, exists l' a, handler e l = (l', Exn.Ok a)) ->
  forall l, exists l' a, Exn.tryCatch body handler l = (l', Exn.Ok a).
Proof.
  intros Hh l. unfold Exn.tryCatch.
  destruct (body l) as [l' [a | e]]; [eauto | apply Hh].
Qed.

(** C3.  [checkForUpdates] never throws to its caller: whatever the
    release feed answers it returns an [UpdateInfo], and when the request
    fails, with a 404 or with any other failure, what it returns is the
    current version with [available] false and an empty [downloadUrl]. *)
Theorem checkForUpdates_never_throws :
  (forall (currentVersion : string) (feed : Update.getOutcome) (l : list Log.entry),
      exists l' info,
        Update.checkForUpdates currentVersion feed l = (l', Exn.Ok info))
  /\ (forall (currentVersion : string) (e : Update.thrown) (l : list Log.entry),
         exists l' info,
           Update.checkForUpdates currentVersion (Update.Rejected e) l
           = (l', Exn.Ok info)
           /\ Update.version info = currentVersion
           /\ Update.available info = false
           /\ Update.downloadUrl info = "")
  /\ (forall (currentVersion : string) (l : list Log.entry),
         Update.checkForUpdates currentVersion
           (Update.Rejected (Update.AxiosError (Some 404%Z))) l
         = ((l ++ [(Log.Info, "Checking for updates...");
                   (Log.Debug, "No releases found or repository does not exist")])%list,
            Exn.Ok {| Update.version := currentVersion;
                      Update.available := false;
                      Update.downloadUrl := "";
                      Update.releaseNotes := None;
                      Update.publishedAt := None |})).
Proof.
  split; [| split].
  - intros currentVersion feed l. unfold Update.checkForUpdates.
    apply tryCatch_total. intros e l0.
    destruct (Update.isNotFound e); unfold Exn.bind, Exn.log, Exn.ret; eauto.
  - intros currentVersion e l. unfold Update.checkForUpdates.
    unfold Exn.tryCatch, Exn.bind, Exn.log, Update.axiosGet, Exn.throw, Exn.ret.
    destruct (Update.isNotFound e); eexists; eexists; repeat split.
  - intros currentVersion l. unfold Update.checkForUpdates.
    unfold Exn.tryCatch, Exn.bind, Exn.log, Update.axiosGet, Exn.throw, Exn.ret.
    simpl. rewrite <- app_assoc. reflexivity.
Qed.

(** ** The image generator's error handler *)

(** C9.  Whatever is thrown inside [generateImage], the function throws,
    and what it throws is decided by the message of the [Error], read
    without regard to case: with ["api key"], ["authentication"], ["401"]
    or ["403"] in it, the credential error; otherwise with ["not found"]
    or ["404"], the model-not-found error, which names the model;
    otherwise with ["quota"] or ["rate limit"], the quota error;
    otherwise with ["invalid"] or ["400"], the invalid-request error,
    which quotes the original message; every other [Error], and every
    thrown value that is not an [Error], is thrown again as it is.  Seven
    failures follow as examples. *)
Theorem generateImage_error_classes :
  (forall (modelName : string) (err : ImageGen.thrown) (l : list Log.entry),
      exists thrown : ImageGen.thrown,
        snd (ImageGen.generateImage modelName (Exn.Throw err) l) = Exn.Throw thrown
        /\ match err with
           | ImageGen.ErrorObject message =>
               thrown
               = if Spec.mentions message ["api key"; "authentication"; "401"; "403"]
                 then ImageGen.ErrorObject
                        "Invalid API key. Please check your GOOGLE_API_KEY in settings."
                 else if Spec.mentions message ["not found"; "404"]
                 then ImageGen.ErrorObject
                        ("Model " ++ modelName
                         ++ " not found. Please check your model configuration.")
                 else if Spec.mentions message ["quota"; "rate limit"]
                 then ImageGen.ErrorObject
                        "API quota exceeded or rate limit reached. Please try again later."
                 else if Spec.mentions message ["invalid"; "400"]
                 then ImageGen.ErrorObject ("Invalid request: " ++ message)
                 else err
           | ImageGen.NotAnError _ => thrown = err
           end)
  /\ (let thrownFor err :=
        snd (ImageGen.generateImage "gemini-3-pro-image-preview" (Exn.Throw err) []) in
      thrownFor (ImageGen.ErrorObject "API key not valid. Please pass a valid API key.")
      = Exn.Throw (ImageGen.ErrorObject
                     "Invalid API key. Please check your GOOGLE_API_KEY in settings.")
      /\ thrownFor (ImageGen.ErrorObject "Request failed with status 403")
         = Exn.Throw (ImageGen.ErrorObject
                        "Invalid API key. Please check your GOOGLE_API_KEY in settings.")
      /\ thrownFor (ImageGen.ErrorObject "models/gemini-9 is not found for API version v1beta")
         = Exn.Throw (ImageGen.ErrorObject
                        "Model gemini-3-pro-image-preview not found. Please check your model configuration.")
      /\ thrownFor (ImageGen.ErrorObject "Resource exhausted: check quota")
         = Exn.Throw (ImageGen.ErrorObject
                        "API quota exceeded or rate limit reached. Please try again later.")
      /\ thrownFor (ImageGen.ErrorObject "Request contains an INVALID argument")
         = Exn.Throw (ImageGen.ErrorObject
                        "Invalid request: Request contains an INVALID argument")
      /\ thrownFor (ImageGen.ErrorObject "fetch failed")
         = Exn.Throw (ImageGen.ErrorObject "fetch failed")
      /\ thrownFor (ImageGen.NotAnError "401")
         = Exn.Throw (ImageGen.NotAnError "401")).
Proof.
  split; [| cbv zeta; repeat split; vm_compute; reflexivity].
  intros modelName err l. eexists. split; [reflexivity |].
  destruct err as [message | value]; [| reflexivity].
  unfold Spec.mentions. cbn [existsb ImageGen.rethrow]. rewrite !orb_false_r.
  unfold ImageGen.isCredential, ImageGen.isNotFound, ImageGen.isQuota,
    ImageGen.isMalformed, ImageGen.credentialMessage, ImageGen.notFoundMessage,
    ImageGen.quotaMessage, ImageGen.malformedMessage.
  rewrite <- !orb_assoc. reflexivity.
Qed.

(** ** Dates *)

(** [YearFromDay] is the year ECMAScript defines: the one in which the
    day falls. *)
Lemma YearFromDay_bounds (d : Z) :
  (Date.DayFromYear (Date.YearFromDay d) <= d
   < Date.DayFromYear (Date.YearFromDay d + 1))%Z.
Proof.
  unfold Date.YearFromDay.
  destruct (d <? Date.DayFromYear (1970 + d * 400 / 146097))%Z eqn:E1.
  - apply Z.ltb_lt in E1. unfold Date.DayFromYear in *.
    Z.div_mod_to_equations. lia.
  - apply Z.ltb_ge in E1.
    destruct (Date.DayFromYear (1970 + d * 400 / 146097 + 1) <=? d)%Z eqn:E2.
    + apply Z.leb_le in E2. unfold Date.DayFromYear in *.
      Z.div_mod_to_equations. lia.
    + apply Z.leb_gt in E2. lia.
Qed.

Lemma YearFromDay_unique (d y : Z) :
  (Date.DayFromYear y <= d < Date.DayFromYear (y + 1))%Z -> y = Date.YearFromDay d.
Proof.
  intros H. pose proof (YearFromDay_bounds d) as H'.
  set (y' := Date.YearFromDay d) in *. clearbody y'.
  unfold Date.DayFromYear in *. Z.div_mod_to_equations. lia.
Qed.

Lemma MonthFromTime_range (t : Z) : (0 <= Date.MonthFromTime t <= 11)%Z.
Proof.
  unfold Date.MonthFromTime.
  repeat match goal with
         | |- context [if ?b then _ else _] => destruct b
         end; lia.
Qed.

(** The day after: the day number that [setDate(getDate() + 1)] makes. *)
Lemma MakeDay_next (t : Z) :
  Date.MakeDay (Some (Date.YearFromTime t)) (Some (Date.MonthFromTime t))
               (Some (1 + Date.DateFromTime t)%Z)
  = Some (Date.Day t + 1)%Z.
Proof.
  unfold Date.MakeDay. pose proof (MonthFromTime_range t) as Hm.
  rewrite Z.div_small, Z.mod_small by lia. rewrite Z.add_0_r.
  unfold Date.DateFromTime, Date.DayWithinYear, Date.InLeapYear.
  f_equal. lia.
Qed.

Lemma setDate_next (tza t : Z) :
  Date.setDate tza (Some t) (option_map (Z.add 1) (Date.getDate tza (Some t)))
  = Date.TimeClip (Some (t + Date.msPerDay)%Z).
Proof.
  unfold Date.setDate, Date.getDate. simpl option_map at 2.
  rewrite MakeDay_next. unfold Date.MakeDate, Date.UTC, Date.LocalTime. simpl option_map.
  f_equal. f_equal. unfold Date.Day, Date.TimeWithinDay.
  pose proof (Z.div_mod (t + tza) Date.msPerDay) as H.
  assert (Date.msPerDay <> 0)%Z as Hne by (unfold Date.msPerDay; lia).
  specialize (H Hne). lia.
Qed.

Lemma toInteger_ofZ (n : Z) : Date.toInteger (JS.ofZ n) = Some n.
Proof.
  unfold Date.toInteger, JS.ofZ. f_equal. apply Z.quot_mul.
  apply Z.pow_nonzero; unfold JS.unit_exp; lia.
Qed.

(** The code reads h and m out of the string HH:MM. *)
Lemma readsTime_valid (h m : Z) :
  (0 <= h < 24)%Z -> (0 <= m < 60)%Z ->
  let parts := map JS.Number (JS.split ":" (Spec.hhmm h m)) in
  Date.MakeTime (Sched.toNumber (nth_error parts 0))
                (Sched.toNumber (nth_error parts 1)) (JS.ofZ 0) (JS.ofZ 0)
  = Some (h * Date.msPerHour + m * Date.msPerMinute)%Z.
Proof.
  intros Hh Hm parts. subst parts. unfold Spec.hhmm.
  assert (forall v, Spec.allChars (Spec.isNot ":") (Date.digits 2 v) = true) as Hcolon.
  { intros v. apply (allChars_impl (JS.isDigitIn 10)); [| apply digits_are_digits].
    intros c Hc. apply digit_plain in Hc. unfold Spec.isNot.
    destruct Hc as (_ & _ & _ & _ & _ & _ & _ & _ & _ & _ & ->). reflexivity. }
  change (Date.digits 2 h ++ ":" ++ Date.digits 2 m)%string
    with (Date.digits 2 h ++ String ":" (Date.digits 2 m))%string.
  rewrite split_append by apply Hcolon. rewrite split_one by apply Hcolon.
  cbn [map nth_error]. unfold Sched.toNumber.
  rewrite !Number_two_digits by lia.
  unfold Date.MakeTime. rewrite !toInteger_ofZ. f_equal. lia.
Qed.

Lemma setHours_time (tza now tod : Z) (hour min sec ms : JS.number) :
  Date.MakeTime hour min sec ms = Some tod ->
  Date.setHours tza (Some now) hour min sec ms
  = Date.TimeClip (Some (Date.Day (now + tza) * Date.msPerDay + tod - tza)%Z).
Proof. intros H. unfold Date.setHours. rewrite H. reflexivity. Qed.

Lemma TimeClip_in_range (t : Z) :
  (Z.abs t <= 8640000000000000)%Z -> Date.TimeClip (Some t) = Some t.
Proof.
  intros H. unfold Date.TimeClip.
  destruct (8640000000000000 <? Z.abs t)%Z eqn:E; [| reflexivity].
  apply Z.ltb_lt in E. lia.
Qed.

(** For a schedule time HH:MM and a host whose offset stays the same, the
    code targets the next h:m of the host's zone. *)
Lemma scheduledTime_local (h m tza now : Z) :
  (0 <= h < 24)%Z -> (0 <= m < 60)%Z ->
  (Z.abs tza <= Date.msPerDay)%Z -> (Z.abs now <= 8000000000000000)%Z ->
  Sched.scheduledTime (Spec.hhmm h m) tza now
  = Some (Spec.targetInZone tza h m now).
Proof.
  intros Hh Hm Htza Hnow. unfold Sched.scheduledTime.
  rewrite (setHours_time _ _ _ _ _ _ _ (readsTime_valid h m Hh Hm)).
  unfold Spec.targetInZone.
  set (today := (Date.Day (now + tza) * Date.msPerDay
                 + (h * Date.msPerHour + m * Date.msPerMinute) - tza)%Z).
  replace (Date.Day (now + tza) * Date.msPerDay + h * Date.msPerHour
           + m * Date.msPerMinute - tza)%Z with today by (unfold today; lia).
  assert (now - 2 * Date.msPerDay <= today <= now + 2 * Date.msPerDay)%Z as Hb.
  { unfold today, Date.Day.
    pose proof (Z.div_mod (now + tza) Date.msPerDay) as Hd.
    pose proof (Z.mod_pos_bound (now + tza) Date.msPerDay) as Hp.
    unfold Date.msPerDay, Date.msPerHour, Date.msPerMinute in *. lia. }
  unfold Date.msPerDay in Hb, Htza.
  rewrite TimeClip_in_range by lia.
  unfold Date.le. destruct (today <=? now)%Z; [| reflexivity].
  rewrite setDate_next. apply TimeClip_in_range.
  unfold Date.msPerDay. lia.
Qed.

(** The delay that is armed then: the time left until that target,
    between one millisecond and a day, and armed as it is. *)
Lemma msUntilNext_local (h m tza now : Z) :
  (0 <= h < 24)%Z -> (0 <= m < 60)%Z ->
  (Z.abs tza <= Date.msPerDay)%Z -> (Z.abs now <= 8000000000000000)%Z ->
  let delay := (Spec.targetInZone tza h m now - now)%Z in
  Sched.msUntilNext (Spec.hhmm h m) tza now = Some delay
  /\ (0 < delay <= Date.msPerDay)%Z
  /\ Sched.timerDelay (Some delay) = delay.
Proof.
  intros Hh Hm Htza Hnow delay. unfold Sched.msUntilNext.
  rewrite scheduledTime_local by assumption. split; [reflexivity |].
  assert (0 < delay <= Date.msPerDay)%Z as Hd.
  { unfold delay, Spec.targetInZone.
    set (today := (Date.Day (now + tza) * Date.msPerDay
                   + h * Date.msPerHour + m * Date.msPerMinute - tza)%Z).
    assert (now - Date.msPerDay < today < now + Date.msPerDay)%Z as Hlo.
    { unfold today, Date.Day.
      pose proof (Z.div_mod (now + tza) Date.msPerDay) as Hd.
      pose proof (Z.mod_pos_bound (now + tza) Date.msPerDay) as Hp.
      unfold Date.msPerDay, Date.msPerHour, Date.msPerMinute in *. lia. }
    unfold Date.msPerDay in *.
    destruct (today <=? now)%Z eqn:E;
      [apply Z.leb_le in E | apply Z.leb_gt in E]; lia. }
  split; [exact Hd |].
  unfold Sched.timerDelay, Sched.TIMEOUT_MAX. unfold Date.msPerDay in Hd.
  destruct ((1 <=? delay) && (delay <=? 2147483647))%Z eqn:E; [reflexivity |].
  apply andb_false_iff in E. destruct E as [E | E];
    [apply Z.leb_gt in E | apply Z.leb_gt in E]; lia.
Qed.

(** ** The scheduler *)

(** [startDailySchedule] step by step. *)
Lemma startDailySchedule_eq (cfg : Config.Config) (w : Sched.world) :
  Sched.startDailySchedule cfg w
  = let w := Sched.logInfo "Starting daily scheduler" w in
    let time := Config.time (Config.schedule cfg) in
    let now := Sched.clock w in
    let ms := Sched.msUntilNext time (Sched.localTZA w) now in
    match Sched.scheduledTime time (Sched.localTZA w) now with
    | None => Exn.Throw Sched.RangeError
    | Some target =>
        let w := Sched.logInfo ("Next wallpaper update scheduled for: "
                                ++ Date.isoString target)%string w in
        let w := if Sched.moreThanAnHour ms then Sched.runOnce w else w in
        Exn.Ok (fst (Sched.arm Sched.Timeout Sched.FirstRun ms w))
    end.
Proof.
  unfold Sched.startDailySchedule, Sched.callStartDailySchedule. cbv zeta.
  destruct (Sched.scheduledTime _ _ _); reflexivity.
Qed.

(** With the schedule at 09:00, on any day and in any zone of the host:
    at 08:00 there the delay is one hour, at 23:00 it is ten hours. *)
Lemma msUntilNext_nine (tza now : Z) :
  (Z.abs tza <= Date.msPerDay)%Z -> (Z.abs now <= 8000000000000000)%Z ->
  (Date.TimeWithinDay (now + tza) = 8 * Date.msPerHour ->
   Sched.msUntilNext "09:00" tza now = Some 3600000)%Z
  /\ (Date.TimeWithinDay (now + tza) = 23 * Date.msPerHour ->
      Sched.msUntilNext "09:00" tza now = Some 36000000)%Z.
Proof.
  intros Htza Hnow.
  change "09:00" with (Spec.hhmm 9 0).
  destruct (msUntilNext_local 9 0 tza now) as (-> & _); try assumption; try lia.
  assert (now + tza
          = Date.Day (now + tza) * Date.msPerDay + Date.TimeWithinDay (now + tza))%Z
    as Hsplit.
  { unfold Date.Day, Date.TimeWithinDay.
    pose proof (Z.div_mod (now + tza) Date.msPerDay) as H.
    assert (Date.msPerDay <> 0)%Z as Hne by (unfold Date.msPerDay; lia).
    specialize (H Hne). lia. }
  unfold Spec.targetInZone.
  split; intros Htod; rewrite Htod in Hsplit; f_equal;
    unfold Date.msPerDay, Date.msPerHour, Date.msPerMinute in *;
    match goal with
    | |- context [if ?b then _ else _] => destruct b eqn:E
    end; [apply Z.leb_le in E | apply Z.leb_gt in E
          | apply Z.leb_le in E | apply Z.leb_gt in E]; lia.
Qed.

(** C5.  Starting the scheduler runs the job at once exactly when the
    computed delay is more than 3600000 ms, and arms the one-shot timer
    for the scheduled run in either case; with no valid delay it throws
    before doing either.  With the schedule at 09:00, starting at 08:00
    of the host's zone, on any day, gives a delay of one hour and no
    immediate run, and starting at 23:00 gives ten hours and one
    immediate run. *)
Theorem startDailySchedule_catch_up :
  (forall (cfg : Config.Config) (w : Sched.world),
      match Sched.msUntilNext (Config.time (Config.schedule cfg))
                              (Sched.localTZA w) (Sched.clock w) with
      | Some delay =>
          exists w',
            Sched.startDailySchedule cfg w = Exn.Ok w'
            /\ Sched.runs w'
               = (if (3600000 <? delay)%Z
                  then (Sched.runs w ++ [Sched.clock w])%list
                  else Sched.runs w)
            /\ Sched.timers w'
               = (Sched.timers w
                  ++ [{| Sched.handle := Sched.nextHandle w;
                         Sched.kind := Sched.Timeout;
                         Sched.after := Sched.timerDelay (Some delay);
                         Sched.due := (Sched.clock w + Sched.timerDelay (Some delay))%Z;
                         Sched.action := Sched.FirstRun |}])%list
      | None => Sched.startDailySchedule cfg w = Exn.Throw Sched.RangeError
      end)
  /\ (forall tza now : Z,
         (Z.abs tza <= Date.msPerDay)%Z -> (Z.abs now <= 8000000000000000)%Z ->
         (Date.TimeWithinDay (now + tza) = 8 * Date.msPerHour ->
          Sched.msUntilNext "09:00" tza now = Some 3600000)%Z
         /\ (Date.TimeWithinDay (now + tza) = 23 * Date.msPerHour ->
             Sched.msUntilNext "09:00" tza now = Some 36000000)%Z)
  /\ (Config.time (Config.schedule Spec.defaultConfig) = "09:00"
      /\ Sched.msUntilNext "09:00" 0 Spec.jan15_0800 = Some 3600000%Z
      /\ exists w',
           Sched.startDailySchedule Spec.defaultConfig (Sched.fresh Spec.jan15_0800 0)
           = Exn.Ok w'
           /\ Sched.runs w' = []
           /\ map Sched.after (Sched.timers w') = [3600000%Z])
  /\ (Sched.msUntilNext "09:00" 0 Spec.jan15_2300 = Some 36000000%Z
      /\ exists w',
           Sched.startDailySchedule Spec.defaultConfig (Sched.fresh Spec.jan15_2300 0)
           = Exn.Ok w'
           /\ Sched.runs w' = [Spec.jan15_2300]
           /\ map Sched.after (Sched.timers w') = [36000000%Z]).
Proof.
  split; [| split; [exact msUntilNext_nine | split]].
  - intros cfg w. rewrite startDailySchedule_eq. unfold Sched.msUntilNext. simpl.
    destruct (Sched.scheduledTime (Config.time (Config.schedule cfg))
                (Sched.localTZA w) (Sched.clock w)) as [target|]; simpl;
      [| reflexivity].
    eexists. split; [reflexivity |].
    destruct (3600000 <? target - Sched.clock w)%Z; simpl; split; reflexivity.
  - split; [vm_compute; reflexivity |]. split; [vm_compute; reflexivity |].
    eexists. split; [vm_compute; reflexivity |]. split; reflexivity.
  - split; [vm_compute; reflexivity |].
    eexists. split; [vm_compute; reflexivity |]. split; reflexivity.
Qed.

Lemma stop_idempotent (w : Sched.world) : Sched.stop (Sched.stop w) = Sched.stop w.
Proof.
  unfold Sched.stop. destruct (Sched.intervalId w) as [h|] eqn:E; simpl.
  - reflexivity.
  - rewrite E. reflexivity.
Qed.

Lemma stop_when_stopped (w : Sched.world) :
  Sched.intervalId w = None -> Sched.stop w = w.
Proof. intros H. unfold Sched.stop. rewrite H. reflexivity. Qed.

(** [stop] disarms the interval the scheduler holds. *)
Lemma stop_clears_interval (w : Sched.world) (h : nat) :
  Sched.intervalId w = Some h ->
  Sched.intervalId (Sched.stop w) = None
  /\ forall t, In t (Sched.timers (Sched.stop w)) -> Sched.handle t <> h.
Proof.
  intros H. unfold Sched.stop. rewrite H. simpl. split; [reflexivity |].
  intros t Ht. apply filter_In in Ht. destruct Ht as [_ Ht].
  apply negb_true_iff, Nat.eqb_neq in Ht. exact Ht.
Qed.

(** Before the first run the scheduler holds no handle: whatever the
    configuration, [stop] then changes nothing and the one-shot timer
    that [startDailySchedule] armed stays armed. *)
Lemma stop_before_first_run (cfg : Config.Config) (w w' : Sched.world) :
  Sched.intervalId w = None ->
  Sched.startDailySchedule cfg w = Exn.Ok w' ->
  Sched.stop w' = w' /\ Sched.timers (Sched.stop w') <> [].
Proof.
  intros Hid Hstart. rewrite startDailySchedule_eq in Hstart. cbv zeta in Hstart.
  destruct (Sched.scheduledTime _ _ _) as [target|]; [| discriminate].
  injection Hstart as <-.
  assert (forall w0, Sched.intervalId (Sched.runOnce w0) = Sched.intervalId w0)
    as Hrun by reflexivity.
  match goal with
  | |- context [if ?b then _ else _] => destruct b
  end; simpl; unfold Sched.stop; simpl; rewrite Hid; simpl;
    (split; [reflexivity | intros Hnil; apply app_eq_nil in Hnil;
                           destruct Hnil; discriminate]).
Qed.

(** C1.  [stop] never throws, a second [stop] changes nothing, and [stop]
    disarms the interval the scheduler holds.  It does not disarm the
    one-shot timer: until the first scheduled run the scheduler holds no
    handle, so [stop] leaves every scheduler that was just started as it
    is.  Started at 10:00 with the schedule at 09:00 and stopped at once,
    the one-shot timer is still armed; it fires the next day, runs the job
    and arms the daily interval. *)
Theorem stop_leaves_one_shot_armed :
  (forall w : Sched.world, Sched.stop (Sched.stop w) = Sched.stop w)
  /\ (forall (w : Sched.world) (h : nat),
         Sched.intervalId w = Some h ->
         Sched.intervalId (Sched.stop w) = None
         /\ forall t, In t (Sched.timers (Sched.stop w)) -> Sched.handle t <> h)
  /\ (forall (cfg : Config.Config) (w w' : Sched.world),
         Sched.intervalId w = None ->
         Sched.startDailySchedule cfg w = Exn.Ok w' ->
         Sched.stop w' = w' /\ Sched.timers (Sched.stop w') <> [])
  /\ exists w1 w2,
       Sched.startDailySchedule Spec.defaultConfig (Sched.fresh Spec.jan15_1000 0)
       = Exn.Ok w1
       /\ Sched.stop w1 = w1
       /\ Sched.timers (Sched.stop w1)
          = [{| Sched.handle := 0; Sched.kind := Sched.Timeout;
                Sched.after := 82800000; Sched.due := (Spec.jan15_1000 + 82800000)%Z;
                Sched.action := Sched.FirstRun |}]
       /\ Sched.fireNext (Sched.stop w1) = Some w2
       /\ Sched.runs w2 = [Spec.jan15_1000; (Spec.jan15_1000 + 82800000)%Z]
       /\ Sched.intervalId w2 = Some 1%nat
       /\ map Sched.kind (Sched.timers w2) = [Sched.Interval]
       /\ Sched.timers (Sched.stop w2) = [].
Proof.
  split; [exact stop_idempotent |]. split; [exact stop_clears_interval |].
  split; [exact stop_before_first_run |].
  eexists. eexists.
  split; [vm_compute; reflexivity |].
  split; [reflexivity |]. split; [reflexivity |].
  split; [vm_compute; reflexivity |].
  repeat split.
Qed.

(** C4.  For every schedule time HH:MM the scheduler targets the next
    HH:MM of the host's time zone, today's if it is still ahead and
    tomorrow's otherwise, and arms the one-shot timer with the time left
    until then.  The time zone of the configuration plays no part: two
    configurations with the same schedule time arm the same timer.  With
    the schedule at 09:00 in America/New_York (five hours behind UTC in
    January) on a host that runs on UTC, starting at 10:00 UTC, which is
    05:00 in New York, the next 09:00 in New York is 4 hours ahead, but
    the timer is armed for 23 hours: the next 09:00 of the host. *)
Theorem startDailySchedule_ignores_timezone :
  (forall h m tza now : Z,
      (0 <= h < 24)%Z -> (0 <= m < 60)%Z ->
      (Z.abs tza <= Date.msPerDay)%Z -> (Z.abs now <= 8000000000000000)%Z ->
      Sched.scheduledTime (Spec.hhmm h m) tza now = Some (Spec.targetInZone tza h m now)
      /\ Sched.msUntilNext (Spec.hhmm h m) tza now
         = Some (Spec.targetInZone tza h m now - now)%Z
      /\ Sched.timerDelay (Some (Spec.targetInZone tza h m now - now)%Z)
         = (Spec.targetInZone tza h m now - now)%Z)
  /\ (forall (cfg cfg' : Config.Config) (w : Sched.world),
         Config.time (Config.schedule cfg) = Config.time (Config.schedule cfg') ->
         Sched.startDailySchedule cfg w = Sched.startDailySchedule cfg' w)
  /\ Config.time (Config.schedule Spec.defaultConfig) = Spec.hhmm 9 0
  /\ Config.timezone (Config.schedule Spec.defaultConfig) = "America/New_York"
  /\ (Spec.targetInZone (-18000000) 9 0 Spec.jan15_1000 - Spec.jan15_1000 = 14400000)%Z
  /\ (Spec.targetInZone 0 9 0 Spec.jan15_1000 - Spec.jan15_1000 = 82800000)%Z
  /\ exists w',
       Sched.startDailySchedule Spec.defaultConfig (Sched.fresh Spec.jan15_1000 0)
       = Exn.Ok w'
       /\ map (fun t => (Sched.kind t, Sched.after t)) (Sched.timers w')
          = [(Sched.Timeout, 82800000%Z)].
Proof.
  split.
  { intros h m tza now Hh Hm Htza Hnow.
    split; [apply scheduledTime_local; assumption |].
    destruct (msUntilNext_local h m tza now Hh Hm Htza Hnow) as (H1 & _ & H3).
    split; assumption. }
  split.
  { intros cfg cfg' w H. rewrite !startDailySchedule_eq. rewrite H. reflexivity. }
  split; [vm_compute; reflexivity |]. split; [vm_compute; reflexivity |].
  split; [vm_compute; reflexivity |]. split; [vm_compute; reflexivity |].
  eexists. split; [vm_compute; reflexivity | reflexivity].
Qed.

(** ** Records of settings *)

Lemma get_set_same (k v : string) (o : EnvFile.record) :
  k <> "__proto__" -> EnvFile.get k (EnvFile.set k v o) = Some v.
Proof.
  intros Hk. apply String.eqb_neq in Hk.
  induction o as [|[k' v'] o IH]; simpl.
  - rewrite Hk. simpl. rewrite String.eqb_refl. reflexivity.
  - destruct (String.eqb k' k) eqn:E; simpl; rewrite E; [reflexivity | exact IH].
Qed.

Lemma get_set_kept (k v : string) (o : EnvFile.record) :
  EnvFile.get k o <> None -> EnvFile.get k (EnvFile.set k v o) = Some v.
Proof.
  induction o as [|[k' v'] o IH]; simpl; [congruence |].
  destruct (String.eqb k' k) eqn:E; simpl; rewrite E; [reflexivity | exact IH].
Qed.

Lemma get_set (k v : string) (o : EnvFile.record) :
  EnvFile.get k (EnvFile.set k v o)
  = match EnvFile.get k o with
    | Some _ => Some v
    | None => if String.eqb k "__proto__" then None else Some v
    end.
Proof.
  induction o as [|[k' v'] o IH]; simpl.
  - destruct (String.eqb k "__proto__"); simpl; [| rewrite String.eqb_refl]; reflexivity.
  - destruct (String.eqb k' k) eqn:E; simpl; rewrite E; [reflexivity | exact IH].
Qed.

Lemma get_set_other (k k' v : string) (o : EnvFile.record) :
  k <> k' -> EnvFile.get k' (EnvFile.set k v o) = EnvFile.get k' o.
Proof.
  intros Hne. induction o as [|[k0 v0] o IH]; simpl.
  - destruct (String.eqb k "__proto__"); [reflexivity |]. simpl.
    destruct (String.eqb k k') eqn:E; [apply String.eqb_eq in E; congruence | reflexivity].
  - destruct (String.eqb k0 k) eqn:E; simpl.
    + apply String.eqb_eq in E. subst k0.
      destruct (String.eqb k k') eqn:E'; [apply String.eqb_eq in E'; congruence | reflexivity].
    + rewrite IH. reflexivity.
Qed.

(** ** The correction of the endpoint *)

Lemma correctUrl_is_current :
  Config.isOldUrl Config.correctUrl = false
  /\ Config.isOldUrlAtInit Config.correctUrl = false
  /\ EnvFile.isOldUrl Config.correctUrl = false.
Proof. repeat split; vm_compute; reflexivity. Qed.

(** Every path leaves the current endpoint as it is. *)
Lemma correction_keeps_current (e : gmap string string) (d : string)
      (c : EnvFile.record) :
  Config.correctApiUrl (Some Config.correctUrl) d e = (Config.correctUrl, e)
  /\ (e !! "GOOGLE_API_URL" = Some Config.correctUrl ->
      Config.initApiUrl e = (Config.correctUrl, e))
  /\ (EnvFile.get "GOOGLE_API_URL" c = Some Config.correctUrl ->
      EnvFile.correctConfig c = c).
Proof.
  destruct correctUrl_is_current as (H1 & H2 & H3). split; [| split].
  - unfold Config.correctApiUrl.
    change (JS.orElse (Some Config.correctUrl) d) with Config.correctUrl.
    rewrite H1. reflexivity.
  - intros He. unfold Config.initApiUrl, Config.getEnvVar. rewrite He.
    change (JS.truthy (Some Config.correctUrl)) with true. cbn [negb andb].
    change (JS.orElse (Some Config.correctUrl) "") with Config.correctUrl.
    rewrite H2. reflexivity.
  - intros Hc. unfold EnvFile.correctConfig. rewrite Hc.
    change (JS.truthy (Some Config.correctUrl)) with true. cbn [negb andb].
    change (JS.orElse (Some Config.correctUrl) "") with Config.correctUrl.
    rewrite H3. rewrite Hc. reflexivity.
Qed.

(** The correction of the handlers, made twice, is the correction made
    once. *)
Lemma correctConfig_idempotent (c : EnvFile.record) :
  EnvFile.correctConfig (EnvFile.correctConfig c) = EnvFile.correctConfig c.
Proof.
  assert (forall c0, EnvFile.get "GOOGLE_API_URL" c0 = Some Config.correctUrl ->
                     EnvFile.correctConfig c0 = c0) as Hfix
      by (intros c0; apply (correction_keeps_current ∅ "" c0)).
  assert (EnvFile.get "GOOGLE_API_URL" (EnvFile.correctConfig c) = Some Config.correctUrl
          \/ (EnvFile.correctConfig c = c
              /\ JS.truthy (EnvFile.get "GOOGLE_API_URL" c) = true
              /\ EnvFile.isOldUrl (JS.orElse (EnvFile.get "GOOGLE_API_URL" c) "") = false))
    as [Hcur | (Hsame & Ht & Hold)].
  { unfold EnvFile.correctConfig.
    destruct (JS.truthy (EnvFile.get "GOOGLE_API_URL" c)) eqn:E2; cbn [negb andb].
    - destruct (EnvFile.isOldUrl (JS.orElse (EnvFile.get "GOOGLE_API_URL" c) "")) eqn:E1.
      + left. rewrite get_set_same by discriminate. cbn [JS.truthy negb].
        change (negb (String.eqb EnvFile.correctUrl "")) with true. cbn [negb].
        apply get_set_same; discriminate.
      + right. rewrite E2. auto.
    - left. rewrite E2. cbn [negb]. apply get_set_same; discriminate. }
  - apply Hfix. exact Hcur.
  - rewrite Hsame. exact Hsame.
Qed.

(** An endpoint with one of the markers that every path tests for is
    rewritten on every path. *)
Lemma common_markers_rewritten (u d : string) (e : gmap string string)
      (c : EnvFile.record) :
  JS.includes u "nano-banana-pro" || JS.includes u "-exp" = true ->
  fst (Config.correctApiUrl (Some u) d e) = Config.correctUrl
  /\ fst (Config.initApiUrl (<["GOOGLE_API_URL" := u]> e)) = Config.correctUrl
  /\ EnvFile.get "GOOGLE_API_URL"
       (EnvFile.correctConfig (EnvFile.set "GOOGLE_API_URL" u c))
     = Some Config.correctUrl.
Proof.
  intros H.
  assert (String.eqb u "" = false) as Hne by (destruct u; [discriminate H | reflexivity]).
  assert (JS.orElse (Some u) d = u) as Hd by (cbn [JS.orElse]; rewrite Hne; reflexivity).
  assert (JS.orElse (Some u) "" = u) as He by (cbn [JS.orElse]; rewrite Hne; reflexivity).
  assert (JS.truthy (Some u) = true) as Ht by (cbn [JS.truthy]; rewrite Hne; reflexivity).
  assert (Config.isOldUrl u = true /\ Config.isOldUrlAtInit u = true
          /\ EnvFile.isOldUrl u = true) as (H1 & H2 & H3).
  { unfold Config.isOldUrl, Config.isOldUrlAtInit, EnvFile.isOldUrl.
    destruct (JS.includes u "nano-banana-pro"), (JS.includes u "-exp");
      try discriminate H; cbn [orb]; rewrite ?orb_true_r; auto. }
  split; [| split].
  - unfold Config.correctApiUrl. rewrite Hd, H1. reflexivity.
  - assert (Config.getEnvVar (<["GOOGLE_API_URL" := u]> e) "GOOGLE_API_URL" None
            = Some u) as Hget.
    { unfold Config.getEnvVar. rewrite lookup_insert_eq, Ht. reflexivity. }
    unfold Config.initApiUrl. rewrite Hget, Ht, He, H2. reflexivity.
  - unfold EnvFile.correctConfig. rewrite get_set_same by discriminate. rewrite Ht, He, H3. cbn [andb].
    rewrite get_set_same by discriminate. change (JS.truthy (Some EnvFile.correctUrl)) with true.
    cbn [negb]. apply get_set_same; discriminate.
Qed.

(** C6.  Every path rewrites an endpoint with a marker that all of them
    test for, and leaves the current endpoint as it is.  But the paths do
    not test for the same markers.  An endpoint on api.google.com is
    rewritten when the configuration is loaded and kept as it is when it
    is saved; a gemini-3-pro endpoint that is not an image model is
    rewritten when saved and kept when loaded; a gemini-2.5-flash-image
    endpoint is rewritten by [correctApiUrl] and when saved, and kept by
    the initialisation that loads the configuration. *)
Theorem deprecated_endpoint_lists_differ :
  (forall (u d : string) (e : gmap string string) (c : EnvFile.record),
      JS.includes u "nano-banana-pro" || JS.includes u "-exp" = true ->
      fst (Config.correctApiUrl (Some u) d e) = Config.correctUrl
      /\ fst (Config.initApiUrl (<["GOOGLE_API_URL" := u]> e)) = Config.correctUrl
      /\ EnvFile.get "GOOGLE_API_URL"
           (EnvFile.correctConfig (EnvFile.set "GOOGLE_API_URL" u c))
         = Some Config.correctUrl)
  /\ (forall (e : gmap string string) (d : string) (c : EnvFile.record),
         Config.correctApiUrl (Some Config.correctUrl) d e = (Config.correctUrl, e)
         /\ (e !! "GOOGLE_API_URL" = Some Config.correctUrl ->
             Config.initApiUrl e = (Config.correctUrl, e))
         /\ (EnvFile.get "GOOGLE_API_URL" c = Some Config.correctUrl ->
             EnvFile.correctConfig c = c))
  /\ (fst (Config.initApiUrl {[ "GOOGLE_API_URL" := Spec.urlGoogleApi ]})
      = Config.correctUrl
      /\ fst (Config.correctApiUrl (Some Spec.urlGoogleApi) Config.correctUrl ∅)
         = Config.correctUrl
      /\ EnvFile.get "GOOGLE_API_URL"
           (EnvFile.correctConfig [("GOOGLE_API_URL", Spec.urlGoogleApi)])
         = Some Spec.urlGoogleApi
      /\ Spec.urlGoogleApi <> Config.correctUrl)
  /\ (EnvFile.get "GOOGLE_API_URL"
        (EnvFile.correctConfig [("GOOGLE_API_URL", Spec.urlGemini3Pro)])
      = Some Config.correctUrl
      /\ fst (Config.initApiUrl {[ "GOOGLE_API_URL" := Spec.urlGemini3Pro ]})
         = Spec.urlGemini3Pro
      /\ fst (Config.correctApiUrl (Some Spec.urlGemini3Pro) Config.correctUrl ∅)
         = Spec.urlGemini3Pro
      /\ Spec.urlGemini3Pro <> Config.correctUrl)
  /\ (fst (Config.correctApiUrl (Some Spec.urlFlashImage) Config.correctUrl ∅)
      = Config.correctUrl
      /\ EnvFile.get "GOOGLE_API_URL"
           (EnvFile.correctConfig [("GOOGLE_API_URL", Spec.urlFlashImage)])
         = Some Config.correctUrl
      /\ fst (Config.initApiUrl {[ "GOOGLE_API_URL" := Spec.urlFlashImage ]})
         = Spec.urlFlashImage
      /\ Spec.urlFlashImage <> Config.correctUrl).
Proof.
  split; [exact common_markers_rewritten |].
  split; [exact correction_keeps_current |].
  repeat split; try (vm_compute; reflexivity); discriminate.
Qed.

(** ** Defaults *)

Lemma loadEnv_lookup (fs : Config.envFiles) (inherited : gmap string string)
      (key : string) :
  Config.loadEnv fs inherited !! key = Spec.stored fs inherited key.
Proof.
  unfold Config.loadEnv, Spec.stored, Spec.configFile, Config.dotenvConfig.
  destruct (Config.userEnv fs) as [f|];
    [| destruct (Config.appEnv fs) as [f|]; [| destruct (Config.cwdEnv fs) as [f|]]];
    try rewrite lookup_union; destruct (inherited !! key) as [v|] eqn:E;
    rewrite ?E; try reflexivity;
    destruct (f !! key); reflexivity.
Qed.

Lemma initApiUrl_other (e : gmap string string) (key : string) :
  key <> "GOOGLE_API_URL" -> snd (Config.initApiUrl e) !! key = e !! key.
Proof.
  intros Hne. unfold Config.initApiUrl.
  destruct (JS.truthy _ && _); simpl; [| reflexivity].
  apply lookup_insert_ne. congruence.
Qed.

Lemma getEnvVar_default (e : gmap string string) (key d : string) :
  d <> "" ->
  JS.orElse (Config.getEnvVar e key (Some d)) d = JS.orElse (e !! key) d.
Proof.
  intros Hd. unfold Config.getEnvVar.
  assert (JS.truthy (Some d) = true) as Ht.
  { simpl. destruct (String.eqb d "") eqn:E; [apply String.eqb_eq in E; congruence |].
    reflexivity. }
  rewrite Ht. rewrite andb_false_r.
  destruct (e !! key) as [v|]; cbn [JS.truthy JS.orElse].
  - destruct (String.eqb v "") eqn:E; cbn [negb JS.orElse]; rewrite ?E.
    + destruct (String.eqb d ""); reflexivity.
    + reflexivity.
  - destruct (String.eqb d ""); reflexivity.
Qed.

Lemma load_apiUrl (sep userDataDir : string) (fs : Config.envFiles)
      (inherited : gmap string string) :
  let stored := Spec.stored fs inherited "GOOGLE_API_URL" in
  Config.apiUrl (Config.google (Config.load sep userDataDir fs inherited))
  = if JS.truthy stored && Spec.replacedEndpoint (JS.orElse stored "")
    then Config.correctUrl else JS.orElse stored Config.correctUrl.
Proof.
  intros stored. unfold Config.load, Config.config.
  assert (fst (Config.initApiUrl (Config.loadEnv fs inherited))
          = if JS.truthy stored && Spec.replacedEndpoint (JS.orElse stored "")
            then Config.correctUrl else JS.orElse stored Config.correctUrl) as H.
  { unfold Config.initApiUrl, Config.getEnvVar. rewrite loadEnv_lookup. fold stored.
    change (JS.truthy None) with false. cbn [negb]. rewrite andb_true_r.
    assert (forall u, Config.isOldUrlAtInit u = Spec.replacedEndpoint u) as Hsame.
    { intros u. unfold Config.isOldUrlAtInit, Spec.replacedEndpoint. cbn [existsb].
      rewrite orb_false_r, orb_assoc. reflexivity. }
    destruct (JS.truthy stored) eqn:Ht; cbn [negb].
    - rewrite Ht, Hsame. cbn [andb].
      destruct (Spec.replacedEndpoint (JS.orElse stored "")); reflexivity.
    - cbn [andb]. destruct stored as [v|]; [| reflexivity].
      cbn [JS.truthy] in Ht. apply negb_false_iff in Ht.
      cbn [JS.orElse]. rewrite Ht. reflexivity. }
  destruct (Config.initApiUrl (Config.loadEnv fs inherited)) as [url e].
  exact H.
Qed.

(** C8, as the code has it.  For every setting with a default: [load]
    gives the default when the name is neither in the inherited
    environment nor in the file, and also when it is there with an empty
    value; it gives the stored value when there is one and it is not
    empty, except for an endpoint of an earlier release (one with
    [nano-banana-pro], [api.google.com] or [-exp] in it), in place of
    which it gives the default.  The images directory is not read: it is
    the folder [images] of the user data directory whatever is stored.
    What is stored is the variable of the inherited environment if it is
    set, else the entry of the file; no setting depends on what is
    stored under another name. *)
Theorem load_defaults :
  forall (sep userDataDir : string) (fs : Config.envFiles)
         (inherited : gmap string string)
         (key : string) (field : Config.Config -> string) (default : string)
         (how : Spec.treatment),
    In (key, field, default, how) (Spec.settings sep userDataDir) ->
    let value := field (Config.load sep userDataDir fs inherited) in
    let stored := Spec.stored fs inherited key in
    match how with
    | Spec.NotRead => value = default
    | _ =>
        (stored = None -> value = default)
        /\ (stored = Some "" -> value = default)
        /\ (forall v, stored = Some v -> v <> "" ->
              value = match how with
                      | Spec.ReadEndpoint =>
                          if Spec.replacedEndpoint v then default else v
                      | _ => v
                      end)
    end.
Proof.
  intros sep userDataDir fs inherited key field default how Hin value stored.
  assert (forall v d, v <> "" -> JS.orElse (Some v) d = v) as Hor.
  { intros v d Hne. simpl.
    destruct (String.eqb v "") eqn:E; [apply String.eqb_eq in E; congruence | reflexivity]. }
  assert (how = Spec.Read ->
          value = JS.orElse stored default) as Hread.
  { intros ->. subst value stored. rewrite <- loadEnv_lookup.
    unfold Config.load, Config.config.
    pose proof (initApiUrl_other (Config.loadEnv fs inherited)) as Hother.
    destruct (Config.initApiUrl (Config.loadEnv fs inherited)) as [url e].
    simpl in Hother. simpl in Hin.
    repeat (destruct Hin as [Hin | Hin];
            [first
               [ discriminate Hin
               | injection Hin as <- <- <-;
                 cbn beta iota delta [Config.app Config.schedule
                   Config.imagePrompt Config.aspectRatio Config.imageSize Config.logLevel
                   Config.time Config.timezone];
                 rewrite getEnvVar_default by discriminate;
                 rewrite Hother by discriminate; reflexivity ] |]).
    destruct Hin. }
  destruct how.
  - rewrite (Hread eq_refl). split; [| split].
    + intros ->. reflexivity.
    + intros ->. reflexivity.
    + intros v -> Hne. apply Hor, Hne.
  - assert (key = "GOOGLE_API_URL" /\ default = Config.correctUrl
            /\ value = Config.apiUrl
                         (Config.google (Config.load sep userDataDir fs inherited)))
      as (-> & -> & Hv).
    { subst value. simpl in Hin.
      repeat (destruct Hin as [Hin | Hin];
              [first [discriminate Hin
                     | injection Hin as <- <- <-; repeat split] |]).
      destruct Hin. }
    rewrite Hv, load_apiUrl. fold stored. split; [| split].
    + intros ->. reflexivity.
    + intros ->. reflexivity.
    + intros v -> Hne.
      assert (JS.truthy (Some v) = true) as ->.
      { simpl. destruct (String.eqb v "") eqn:E;
          [apply String.eqb_eq in E; congruence | reflexivity]. }
      rewrite !Hor by exact Hne. reflexivity.
  - subst value. cbn [Spec.settings In] in Hin.
    repeat (destruct Hin as [Hin | Hin];
            [first [discriminate Hin
                   | injection Hin as <- <- <-;
                     unfold Config.load, Config.config;
                     destruct (Config.initApiUrl _); reflexivity] |]).
    destruct Hin.
Qed.

Lemma load_defaults_witness :
  In ("SCHEDULE_TIME", (fun c => Config.time (Config.schedule c)), "09:00", Spec.Read)
     (Spec.settings "/" "/home/user/.config/screensaver")
  /\ Config.time (Config.schedule
       (Config.load "/" "/home/user/.config/screensaver"
          (Spec.onlyUserEnv {[ "TIMEZONE" := "Europe/Paris" ]}) ∅))
     = "09:00".
Proof.
  assert (In ("SCHEDULE_TIME", (fun c => Config.time (Config.schedule c)), "09:00",
              Spec.Read)
             (Spec.settings "/" "/home/user/.config/screensaver")) as Hin
      by (simpl; tauto).
  split; [exact Hin |].
  destruct (load_defaults "/" "/home/user/.config/screensaver"
              (Spec.onlyUserEnv {[ "TIMEZONE" := "Europe/Paris" ]}) ∅
              _ _ _ _ Hin) as (Hnone & _).
  apply Hnone. vm_compute. reflexivity.
Defined.

(** C8 as stated fails: a key that is in the file with an empty value
    gets the default; a key that is missing from the file does not get
    the default when the inherited environment sets it; an endpoint of an
    earlier release that is in the file is replaced by the default; and
    the images directory that is in the file is not the one that is
    loaded. *)
Lemma load_replaces_empty_and_inherits :
  (({[ "SCHEDULE_TIME" := "" ]} : gmap string string) !! "SCHEDULE_TIME" = Some ""
   /\ Config.time (Config.schedule
        (Config.load "/" "/home/user/.config/screensaver"
           (Spec.onlyUserEnv {[ "SCHEDULE_TIME" := "" ]}) ∅))
      = "09:00")
  /\ (({[ "SCHEDULE_TIME" := "07:30" ]} : gmap string string) !! "TIMEZONE" = None
      /\ Config.timezone (Config.schedule
           (Config.load "/" "/home/user/.config/screensaver"
              (Spec.onlyUserEnv {[ "SCHEDULE_TIME" := "07:30" ]})
              {[ "TIMEZONE" := "Europe/Paris" ]}))
         = "Europe/Paris")
  /\ (Config.apiUrl (Config.google
        (Config.load "/" "/home/user/.config/screensaver"
           (Spec.onlyUserEnv {[ "GOOGLE_API_URL" := Spec.urlGoogleApi ]}) ∅))
      = Config.correctUrl
      /\ Config.correctUrl <> Spec.urlGoogleApi)
  /\ Config.imagesDir (Config.app
       (Config.load "/" "/home/user/.config/screensaver"
          (Spec.onlyUserEnv {[ "IMAGES_DIR" := "/data/wallpapers" ]}) ∅))
     = "/home/user/.config/screensaver/images".
Proof.
  repeat split; try (vm_compute; reflexivity). discriminate.
Qed.

(** ** Saving and loading the settings file *)

Lemma trimEnd_last (s : string) (c : ascii) :
  JS.isWhiteSpace c = false ->
  JS.trimEnd (s ++ String c "") = (s ++ String c "")%string.
Proof.
  intros Hc. induction s as [|a s IH]; simpl.
  - rewrite Hc. reflexivity.
  - rewrite IH. destruct s; reflexivity.
Qed.

Lemma endsWith_append (s suf : string) : JS.endsWith (s ++ suf) suf = true.
Proof.
  induction s as [|a s IH]; simpl.
  - destruct suf; simpl; [reflexivity |].
    rewrite Ascii.eqb_refl, String.eqb_refl. reflexivity.
  - rewrite IH. apply orb_true_r.
Qed.




Lemma noLineTerminator_append (s1 s2 : string) :
  EnvFile.noLineTerminator (s1 ++ s2)
  = EnvFile.noLineTerminator s1 && EnvFile.noLineTerminator s2.
Proof.
  induction s1 as [|c s1 IH]; simpl; [reflexivity |].
  rewrite IH, !andb_assoc. reflexivity.
Qed.


Lemma keyAndRest_entry (k r : string) :
  Spec.allChars (fun c => Spec.isNot "#" c && Spec.isNot "=" c && Spec.isNot EnvFile.LF c) k
  = true ->
  EnvFile.keyAndRest (k ++ String "=" r) = Some (k, r).
Proof.
  induction k as [|c k IH]; intros H; [reflexivity |].
  simpl in H. apply andb_true_iff in H. destruct H as [Hc Hk].
  apply andb_true_iff in Hc. destruct Hc as [Hc _].
  apply andb_true_iff in Hc. destruct Hc as [Hhash Heq].
  unfold Spec.isNot in Hhash, Heq. apply negb_true_iff in Hhash, Heq.
  change (String c k ++ String "=" r)%string with (String c (k ++ String "=" r)).
  cbn [EnvFile.keyAndRest]. rewrite Heq, Hhash, (IH Hk). reflexivity.
Qed.







Lemma set_keys_In (k v x : string) (o : EnvFile.record) :
  In x (map fst (EnvFile.set k v o)) -> In x (map fst o) \/ x = k.
Proof.
  induction o as [|[k' v'] o IH]; simpl.
  - destruct (String.eqb k "__proto__"); simpl; [tauto |].
    intros [<- | []]. right. reflexivity.
  - destruct (String.eqb k' k); simpl; [tauto |].
    intros [<- | H]; [tauto | destruct (IH H); tauto].
Qed.

Lemma set_NoDup (k v : string) (o : EnvFile.record) :
  List.NoDup (map fst o) -> List.NoDup (map fst (EnvFile.set k v o)).
Proof.
  induction o as [|[k' v'] o IH]; simpl; intros H.
  - destruct (String.eqb k "__proto__"); simpl; [constructor |].
    constructor; [intros [] | constructor].
  - inversion H as [|? ? Hnotin Hnd]; subst.
    destruct (String.eqb k' k) eqn:E; simpl; [exact H |].
    constructor; [| apply IH; exact Hnd].
    intros Hin. apply set_keys_In in Hin. destruct Hin as [Hin | ->]; [tauto |].
    rewrite String.eqb_refl in E. discriminate.
Qed.


Lemma correctConfig_cases (c : EnvFile.record) :
  EnvFile.correctConfig c = c
  \/ EnvFile.correctConfig c = EnvFile.set "GOOGLE_API_URL" EnvFile.correctUrl c.
Proof.
  unfold EnvFile.correctConfig.
  destruct (JS.truthy (EnvFile.get "GOOGLE_API_URL" c)) eqn:E2; cbn [negb andb].
  - destruct (EnvFile.isOldUrl _).
    + right. rewrite get_set_same by discriminate. reflexivity.
    + left. rewrite E2. reflexivity.
  - right. rewrite E2. reflexivity.
Qed.

Lemma get_In (k v : string) (o : EnvFile.record) :
  EnvFile.get k o = Some v -> In (k, v) o.
Proof.
  induction o as [|[k' v'] o IH]; [discriminate |].
  cbn [EnvFile.get]. destruct (String.eqb k' k) eqn:E.
  - intros [= ->]. apply String.eqb_eq in E. subst. left. reflexivity.
  - intros H. right. apply IH. exact H.
Qed.

Lemma In_set_other (k v k' v' : string) (o : EnvFile.record) :
  k <> k' -> In (k, v) o -> In (k, v) (EnvFile.set k' v' o).
Proof.
  intros Hne. induction o as [|[a b] o IH]; [contradiction |].
  intros [H | H]; cbn [EnvFile.set]; destruct (String.eqb a k') eqn:E.
  - injection H as -> ->. apply String.eqb_eq in E. congruence.
  - left. exact H.
  - right. exact H.
  - right. apply IH. exact H.
Qed.







(* ================================================================== *)
(** * Further properties *)
(* ================================================================== *)

(** ** The order of versions *)

Lemma lt_trans (a b c : JS.number) :
  JS.lt a b = true -> JS.lt b c = true -> JS.lt a c = true.
Proof.
  destruct a, b, c; simpl; try reflexivity; try discriminate.
  intros H1 H2. apply Z.ltb_lt in H1, H2. apply Z.ltb_lt. lia.
Qed.

Lemma lt_not_both (a b : JS.number) :
  JS.lt a b = true -> JS.lt b a = true -> False.
Proof.
  destruct a, b; simpl; try discriminate.
  intros H1 H2. apply Z.ltb_lt in H1, H2. lia.
Qed.

Lemma component_not_NaN (v : string) (i : nat) : Spec.component v i <> JS.NaN.
Proof. apply orZero_not_NaN. Qed.

Lemma isNewerVersion_irrefl (v : string) : Update.isNewerVersion v v = false.
Proof.
  destruct (Update.isNewerVersion v v) eqn:E; [| reflexivity].
  apply isNewerVersion_true_iff in E. destruct E as (i & Hgt & _).
  unfold JS.gt in Hgt. rewrite lt_irrefl in Hgt. discriminate.
Qed.

(** X1.  [isNewerVersion] is a strict order on version strings: no
    version is newer than itself, two versions are never newer than each
    other, newer than newer is newer, and when neither of two versions is
    newer than the other all their components are equal. *)
Theorem isNewerVersion_strict_order :
  (forall v : string, Update.isNewerVersion v v = false)
  /\ (forall a b : string,
         Update.isNewerVersion a b = true -> Update.isNewerVersion b a = false)
  /\ (forall a b c : string,
         Update.isNewerVersion a b = true -> Update.isNewerVersion b c = true ->
         Update.isNewerVersion a c = true)
  /\ (forall a b : string,
         Update.isNewerVersion a b = false -> Update.isNewerVersion b a = false ->
         forall i, Spec.component a i = Spec.component b i).
Proof.
  split; [exact isNewerVersion_irrefl |]. split; [| split].
  - intros a b Hab. destruct (Update.isNewerVersion b a) eqn:Hba; [| reflexivity].
    exfalso. apply isNewerVersion_true_iff in Hab, Hba.
    destruct Hab as (i & Hi & Hbefore_i). destruct Hba as (j & Hj & Hbefore_j).
    unfold JS.gt in Hi, Hj.
    destruct (Nat.lt_trichotomy i j) as [Hlt | [-> | Hlt]].
    + rewrite (Hbefore_j i Hlt), lt_irrefl in Hi. discriminate.
    + exact (lt_not_both _ _ Hi Hj).
    + rewrite (Hbefore_i j Hlt), lt_irrefl in Hj. discriminate.
  - intros a b c Hab Hbc. apply isNewerVersion_true_iff in Hab, Hbc.
    apply isNewerVersion_true_iff.
    destruct Hab as (i & Hi & Hbefore_i). destruct Hbc as (j & Hj & Hbefore_j).
    unfold JS.gt in *.
    destruct (Nat.lt_trichotomy i j) as [Hlt | [-> | Hlt]].
    + exists i. split.
      * rewrite <- (Hbefore_j i Hlt). exact Hi.
      * intros k Hk. rewrite (Hbefore_i k Hk). apply Hbefore_j. lia.
    + exists j. split.
      * exact (lt_trans _ _ _ Hj Hi).
      * intros k Hk. rewrite (Hbefore_i k Hk). apply Hbefore_j. exact Hk.
    + exists j. split.
      * rewrite (Hbefore_i j Hlt). exact Hj.
      * intros k Hk. rewrite <- (Hbefore_j k Hk). apply Hbefore_i. lia.
  - intros a b Hab Hba i. induction i as [i IH] using lt_wf_ind.
    apply lt_connected; try apply component_not_NaN.
    + destruct (JS.lt (Spec.component a i) (Spec.component b i)) eqn:E; [| reflexivity].
      assert (Update.isNewerVersion b a = true) as H; [| congruence].
      apply isNewerVersion_true_iff. exists i. split; [exact E |].
      intros j Hj. symmetry. apply IH. exact Hj.
    + destruct (JS.lt (Spec.component b i) (Spec.component a i)) eqn:E; [| reflexivity].
      assert (Update.isNewerVersion a b = true) as H; [| congruence].
      apply isNewerVersion_true_iff. exists i. split; [exact E |].
      intros j Hj. apply IH. exact Hj.
Qed.

(** ** What the update check reports *)

Lemma findAsset_result (l : list Update.asset) (log : list Log.entry) :
  (exists before a after,
      l = (before ++ a :: after)%list
      /\ Update.findAsset l log = (log, Exn.Ok (Some a))
      /\ SpecX.windowsZip a
      /\ Forall SpecX.otherAsset before)
  \/ Update.findAsset l log = (log, Exn.Ok None)
  \/ Update.findAsset l log = (log, Exn.Throw Update.TypeError).
Proof.
  induction l as [|a l IH]; [right; left; reflexivity |].
  cbn [Update.findAsset]. destruct (Update.name a) as [n|] eqn:En; [| right; right; reflexivity].
  destruct (JS.includes n "windows" && JS.endsWith n ".zip") eqn:Em.
  - left. exists [], a, l. split; [reflexivity |]. split; [reflexivity |].
    apply andb_true_iff in Em. split; [exists n; tauto | constructor].
  - destruct IH as [(before & a' & after & -> & Hf & Hm & Hb) | [Hf | Hf]].
    + left. exists (a :: before), a', after. split; [reflexivity |].
      split; [exact Hf |]. split; [exact Hm |].
      constructor; [exists n; tauto | exact Hb].
    + right; left. exact Hf.
    + right; right. exact Hf.
Qed.

(** A [try] whose body, when it returns, and whose handler, always,
    give a result with some property never throws and gives a result with
    that property. *)
Lemma tryCatch_post {E A : Type} (P : A -> Prop)
      (body : Exn.M E A) (handler : E -> Exn.M E A) :
  (forall l l' a, body l = (l', Exn.Ok a) -> P a) ->
  (forall e l, exists l' a, handler e l = (l', Exn.Ok a) /\ P a) ->
  forall l, exists l' a, Exn.tryCatch body handler l = (l', Exn.Ok a) /\ P a.
Proof.
  intros Hbody Hhandler l. unfold Exn.tryCatch.
  destruct (body l) as [l' [a | e]] eqn:Hb.
  - exists l', a. split; [reflexivity | eapply Hbody; exact Hb].
  - apply Hhandler.
Qed.

(** The two ways [checkForUpdates] ends: with the answer that there is
    no update, or with what it has read in the release. *)
Lemma checkForUpdates_cases (currentVersion : string) (feed : Update.getOutcome)
      (l : list Log.entry) :
  exists l' info,
    Update.checkForUpdates currentVersion feed l = (l', Exn.Ok info)
    /\ (info = Update.noUpdate currentVersion
        \/ exists release tag,
             feed = Update.Resolved (Some release)
             /\ Update.tag_name release = Some tag
             /\ Update.version info = Update.stripV tag
             /\ Update.available info
                = Update.isNewerVersion (Update.stripV tag) currentVersion
             /\ (Update.downloadUrl info = ""
                 \/ SpecX.firstWindowsZip release (Update.downloadUrl info))).
Proof.
  unfold Update.checkForUpdates.
  apply (tryCatch_post
           (fun info =>
              info = Update.noUpdate currentVersion
              \/ exists release tag,
                   feed = Update.Resolved (Some release)
                   /\ Update.tag_name release = Some tag
                   /\ Update.version info = Update.stripV tag
                   /\ Update.available info
                      = Update.isNewerVersion (Update.stripV tag) currentVersion
                   /\ (Update.downloadUrl info = ""
                       \/ SpecX.firstWindowsZip release (Update.downloadUrl info)))).
  - intros l0 l' info. unfold Exn.bind at 1. cbn [Exn.log].
    destruct feed as [[release|] | e];
      cbn [Update.axiosGet Exn.bind Exn.ret Exn.throw Exn.member];
      try discriminate.
    destruct (Update.tag_name release) as [tag|] eqn:Etag;
      cbn [Exn.member Exn.bind Exn.ret Exn.throw Exn.log]; [| discriminate].
    destruct (Update.assets release) as [assets|] eqn:Eassets;
      cbn [Update.findWindowsAsset Exn.ret].
    + unfold Exn.bind.
      match goal with
      | |- context [Update.findAsset assets ?log] =>
          destruct (findAsset_result assets log)
            as [(before & a & after & Hl & -> & Hw & Hb) | [-> | ->]]
      end; [| | discriminate].
      * intros H. injection H as _ <-. right. exists release, tag.
        split; [reflexivity |]. split; [exact Etag |].
        split; [reflexivity |]. split; [reflexivity |].
        cbn [Update.downloadUrl].
        destruct (Update.browser_download_url a) as [u|] eqn:Eu; cbn [JS.orElse];
          [| left; reflexivity].
        destruct (String.eqb_spec u "") as [-> | Hne]; [left; reflexivity |].
        right. exists before, a, after. rewrite Eassets, Hl.
        split; [reflexivity |]. split; [exact Eu | split; assumption].
      * intros H. injection H as _ <-. right. exists release, tag.
        split; [reflexivity |]. split; [exact Etag |].
        split; [reflexivity |]. split; [reflexivity |]. left. reflexivity.
    + intros H. injection H as _ <-. right. exists release, tag.
      split; [reflexivity |]. split; [exact Etag |].
      split; [reflexivity |]. split; [reflexivity |]. left. reflexivity.
  - intros e l0.
    destruct (Update.isNotFound e); eexists; eexists;
      (split; [reflexivity | left; reflexivity]).
Qed.

(** X2.  Whatever the release feed answers, [checkForUpdates] reports an
    update exactly when the version it reports is newer than the current
    one; and a download address that is not empty is the address of the
    first asset of the release whose name contains [windows] and ends
    with [.zip]. *)
Theorem checkForUpdates_report :
  forall (currentVersion : string) (feed : Update.getOutcome) (l : list Log.entry),
  exists l' info,
    Update.checkForUpdates currentVersion feed l = (l', Exn.Ok info)
    /\ Update.available info
       = Update.isNewerVersion (Update.version info) currentVersion
    /\ (Update.downloadUrl info <> "" ->
        exists release,
          feed = Update.Resolved (Some release)
          /\ SpecX.firstWindowsZip release (Update.downloadUrl info)).
Proof.
  intros cur feed l.
  destruct (checkForUpdates_cases cur feed l)
    as (l' & info & Hc & [-> | (release & tag & Hf & _ & Hv & Ha & Hu)]).
  - exists l', (Update.noUpdate cur). split; [exact Hc |]. split.
    + symmetry. apply isNewerVersion_irrefl.
    + intros H. exfalso. apply H. reflexivity.
  - exists l', info. split; [exact Hc |]. split.
    + rewrite Hv. exact Ha.
    + intros Hne. exists release. split; [exact Hf |].
      destruct Hu as [Hu | Hu]; [contradiction | exact Hu].
Qed.

(** ** The repository of the releases *)

Lemma takeNot_run (stop : ascii) (p rest : string) :
  Spec.allChars (Spec.isNot stop) p = true ->
  (rest = "" \/ exists r, rest = String stop r) ->
  Repo.takeNot stop (p ++ rest) = (p, rest).
Proof.
  intros Hp Hrest. induction p as [|c p IH].
  - change ("" ++ rest)%string with rest.
    destruct Hrest as [-> | [r ->]]; [reflexivity |].
    cbn [Repo.takeNot]. rewrite Ascii.eqb_refl. reflexivity.
  - simpl in Hp. apply andb_true_iff in Hp. destruct Hp as [Hc Hp].
    unfold Spec.isNot in Hc. apply negb_true_iff in Hc.
    change (String c p ++ rest)%string with (String c (p ++ rest)).
    cbn [Repo.takeNot]. rewrite Hc, (IH Hp). reflexivity.
Qed.

Lemma takeNot_parts (stop : ascii) (s p r : string) :
  Repo.takeNot stop s = (p, r) ->
  Spec.allChars (Spec.isNot stop) p = true
  /\ (r = "" \/ exists r', r = String stop r').
Proof.
  revert p r. induction s as [|c s IH]; intros p r H; cbn [Repo.takeNot] in H.
  - injection H as <- <-. split; [reflexivity | left; reflexivity].
  - destruct (Ascii.eqb c stop) eqn:E.
    + injection H as <- <-. apply Ascii.eqb_eq in E. subst c.
      split; [reflexivity | right; eexists; reflexivity].
    + destruct (Repo.takeNot stop s) as [p' r'] eqn:E'. injection H as <- <-.
      destruct (IH p' r' eq_refl) as [Hp Hr]. split; [| exact Hr].
      simpl. unfold Spec.isNot at 1. rewrite E. exact Hp.
Qed.

Lemma isEmpty_false (s : string) : s <> "" -> JS.isEmpty s = false.
Proof. destruct s; [congruence | reflexivity]. Qed.

Lemma matchAtStart_repo (o m rest : string) :
  o <> "" -> SpecX.noSlash o = true -> m <> "" -> SpecX.noSlash m = true ->
  (rest = "" \/ exists r, rest = String "/" r) ->
  Repo.matchAtStart ("github.com/" ++ o ++ "/" ++ m ++ rest) = Some (o, m).
Proof.
  intros Ho Hos Hm Hms Hrest. unfold Repo.matchAtStart.
  change (JS.startsWith ("github.com/" ++ o ++ "/" ++ m ++ rest) "github.com/")
    with true. cbv iota.
  change (JS.dropChars 11 ("github.com/" ++ o ++ "/" ++ m ++ rest))
    with (o ++ String "/" (m ++ rest))%string.
  rewrite (takeNot_run "/" o (String "/" (m ++ rest)) Hos)
    by (right; eexists; reflexivity).
  rewrite (isEmpty_false o Ho).
  rewrite (takeNot_run "/" m rest Hms Hrest).
  rewrite (isEmpty_false m Hm). reflexivity.
Qed.

Lemma search_skip (c : ascii) (s : string) :
  Repo.matchAtStart (String c s) = None ->
  Repo.search (String c s) = Repo.search s.
Proof. intros H. cbn [Repo.search]. rewrite H. reflexivity. Qed.

Lemma search_here (s : string) (m : string * string) :
  Repo.matchAtStart s = Some m -> Repo.search s = Some m.
Proof. intros H. destruct s; cbn [Repo.search]; rewrite H; reflexivity. Qed.

Lemma takeChars_append (p q : string) : Repo.takeChars (String.length p) (p ++ q) = p.
Proof.
  induction p as [|c p IH]; [destruct q; reflexivity |].
  change (String c p ++ q)%string with (String c (p ++ q)).
  cbn [String.length Repo.takeChars]. rewrite IH. reflexivity.
Qed.

Lemma length_append (p q : string) :
  String.length (p ++ q) = (String.length p + String.length q)%nat.
Proof.
  induction p as [|c p IH]; [reflexivity |].
  change (String c p ++ q)%string with (String c (p ++ q)).
  cbn [String.length]. rewrite IH. reflexivity.
Qed.

Lemma stripGit_suffix (n : string) : Repo.stripGit (n ++ ".git") = n.
Proof.
  unfold Repo.stripGit. rewrite endsWith_append, length_append.
  replace (String.length n + String.length ".git" - 4)%nat with (String.length n)
    by (cbn [String.length]; lia).
  apply takeChars_append.
Qed.

(** X3.  For the address of a repository on GitHub, [extractRepoInfo]
    gives the owner and the name, the name without a final [.git]; what
    follows the name after a further slash is ignored. *)
Theorem extractRepoInfo_github :
  forall (pre o m rest : string),
    In pre SpecX.githubPrefixes ->
    o <> "" -> SpecX.noSlash o = true ->
    m <> "" -> SpecX.noSlash m = true ->
    (rest = "" \/ exists r, rest = String "/" r) ->
    Repo.extractRepoInfo (pre ++ o ++ "/" ++ m ++ rest)
    = {| Repo.owner := o; Repo.name := Repo.stripGit m |}
    /\ Repo.stripGit (m ++ ".git") = m
    /\ (JS.endsWith m ".git" = false -> Repo.stripGit m = m).
Proof.
  intros pre o m rest Hpre Ho Hos Hm Hms Hrest.
  split; [| split; [apply stripGit_suffix |]].
  - pose proof (matchAtStart_repo o m rest Ho Hos Hm Hms Hrest) as Hmatch.
    apply search_here in Hmatch.
    assert (Repo.search (pre ++ o ++ "/" ++ m ++ rest) = Some (o, m)) as Hs.
    { unfold SpecX.githubPrefixes in Hpre. cbn [In] in Hpre.
      destruct Hpre as [<- | [<- | [<- | [<- | [<- | []]]]]];
        repeat (rewrite search_skip by reflexivity); exact Hmatch. }
    unfold Repo.extractRepoInfo. rewrite Hs. reflexivity.
  - intros H. unfold Repo.stripGit. rewrite H. reflexivity.
Qed.

Lemma extractRepoInfo_github_witness :
  In "https://github.com/" SpecX.githubPrefixes
  /\ Repo.extractRepoInfo "https://github.com/AgentBurgundy/screensaver.git"
     = {| Repo.owner := "AgentBurgundy"; Repo.name := "screensaver" |}.
Proof.
  assert (In "https://github.com/" SpecX.githubPrefixes) as Hin by (simpl; tauto).
  split; [exact Hin |].
  destruct (extractRepoInfo_github "https://github.com/" "AgentBurgundy"
              "screensaver.git" "" Hin) as (H & _).
  - discriminate.
  - reflexivity.
  - discriminate.
  - reflexivity.
  - left. reflexivity.
  - exact H.
Defined.

Lemma search_parts (s o n : string) :
  Repo.search s = Some (o, n) ->
  o <> "" /\ SpecX.noSlash o = true /\ n <> "" /\ SpecX.noSlash n = true.
Proof.
  assert (forall t, Repo.matchAtStart t = Some (o, n) ->
                    o <> "" /\ SpecX.noSlash o = true /\ n <> "" /\ SpecX.noSlash n = true)
    as Hat.
  { intros t H. unfold Repo.matchAtStart in H.
    destruct (JS.startsWith t "github.com/"); [| discriminate].
    destruct (Repo.takeNot "/" (JS.dropChars 11 t)) as [o' r] eqn:E1.
    destruct (JS.isEmpty o') eqn:Eo; [discriminate |].
    destruct r as [|c r']; [discriminate |].
    destruct (Repo.takeNot "/" r') as [n' r''] eqn:E2.
    destruct (JS.isEmpty n') eqn:En; [discriminate |].
    injection H as <- <-.
    apply takeNot_parts in E1, E2.
    repeat split; try tauto; intros ->; discriminate. }
  induction s as [|c s IH]; cbn [Repo.search].
  - destruct (Repo.matchAtStart "") as [m|] eqn:E; [| discriminate].
    intros H. injection H as ->. exact (Hat _ E).
  - destruct (Repo.matchAtStart (String c s)) as [m|] eqn:E; [| exact IH].
    intros H. injection H as ->. exact (Hat _ E).
Qed.

Lemma takeChars_allChars (p : ascii -> bool) (k : nat) (s : string) :
  Spec.allChars p s = true -> Spec.allChars p (Repo.takeChars k s) = true.
Proof.
  revert s. induction k as [|k IH]; intros s H; [reflexivity |].
  destruct s as [|c s]; [reflexivity |]. simpl in *.
  apply andb_true_iff in H. destruct H as [-> H]. rewrite (IH s H). reflexivity.
Qed.

Lemma search_none (s : string) :
  JS.includes s "github.com/" = false -> Repo.search s = None.
Proof.
  induction s as [|c s IH]; intros H.
  - reflexivity.
  - cbn [JS.includes] in H. apply orb_false_iff in H. destruct H as [H1 H2].
    cbn [Repo.search]. unfold Repo.matchAtStart. rewrite H1. apply IH. exact H2.
Qed.

(** X4.  Whatever it is given, [extractRepoInfo] gives an owner that is
    not empty and an owner and a name without a slash, so that the
    address built from them has exactly the owner and the name between
    [repos] and [releases]; and without [github.com/] in its argument it
    gives AgentBurgundy and screensaver. *)
Theorem extractRepoInfo_always :
  forall repoUrl : string,
    let info := Repo.extractRepoInfo repoUrl in
    Repo.owner info <> ""
    /\ SpecX.noSlash (Repo.owner info) = true
    /\ SpecX.noSlash (Repo.name info) = true
    /\ JS.split "/" (Repo.githubApiUrl (Repo.owner info) (Repo.name info))
       = ["https:"; ""; "api.github.com"; "repos";
          Repo.owner info; Repo.name info; "releases"; "latest"]
    /\ (JS.includes repoUrl "github.com/" = false ->
        info = {| Repo.owner := "AgentBurgundy"; Repo.name := "screensaver" |}).
Proof.
  intros repoUrl info.
  assert (Repo.owner info <> "" /\ SpecX.noSlash (Repo.owner info) = true
          /\ SpecX.noSlash (Repo.name info) = true) as (H1 & H2 & H3).
  { subst info. unfold Repo.extractRepoInfo.
    destruct (Repo.search repoUrl) as [[o n]|] eqn:E.
    - destruct (search_parts _ _ _ E) as (Ho & Hos & _ & Hns).
      cbn [Repo.owner Repo.name]. split; [exact Ho |]. split; [exact Hos |].
      unfold Repo.stripGit. destruct (JS.endsWith n ".git"); [| exact Hns].
      apply takeChars_allChars. exact Hns.
    - cbn. split; [discriminate | split; reflexivity]. }
  split; [exact H1 |]. split; [exact H2 |]. split; [exact H3 |]. split.
  - unfold Repo.githubApiUrl.
    change ("https://api.github.com/repos/" ++ Repo.owner info ++ "/"
            ++ Repo.name info ++ "/releases/latest")%string
      with ("https:" ++ String "/" ("" ++ String "/" ("api.github.com" ++ String "/"
             ("repos" ++ String "/" (Repo.owner info ++ String "/"
               (Repo.name info ++ String "/" ("releases" ++ String "/" "latest")))))))%string.
    rewrite !split_append by (try assumption; reflexivity).
    reflexivity.
  - intros H. subst info. unfold Repo.extractRepoInfo.
    rewrite (search_none _ H). reflexivity.
Qed.

(** ** The update script *)

Lemma escapePath_step (c : ascii) (p : string) :
  Script.escapePath (String c p)
  = if Ascii.eqb c Script.BACKSLASH
    then String c (String c (Script.escapePath p))
    else if Ascii.eqb c Script.SQUOTE
         then String c (String c (Script.escapePath p))
         else String c (Script.escapePath p).
Proof.
  unfold Script.escapePath. cbn [JS.replaceAllChar].
  destruct (Ascii.eqb c Script.BACKSLASH) eqn:Eb.
  - apply Ascii.eqb_eq in Eb. subst c. reflexivity.
  - cbn [JS.replaceAllChar].
    destruct (Ascii.eqb c Script.SQUOTE) eqn:Eq; [| reflexivity].
    apply Ascii.eqb_eq in Eq. subst c. reflexivity.
Qed.

Lemma singleQuoted_doubled (s : string) :
  SpecX.singleQuoted
    (JS.replaceAllChar Script.SQUOTE (String Script.SQUOTE (String Script.SQUOTE "")) s)
  = Some s.
Proof.
  induction s as [|c s IH]; [reflexivity |].
  cbn [JS.replaceAllChar]. destruct (Ascii.eqb c Script.SQUOTE) eqn:E.
  - apply Ascii.eqb_eq in E. subst c.
    change (String Script.SQUOTE (String Script.SQUOTE "") ++ ?x)%string
      with (String Script.SQUOTE (String Script.SQUOTE x)).
    cbn [SpecX.singleQuoted]. rewrite Ascii.eqb_refl, IH. reflexivity.
  - cbn [SpecX.singleQuoted]. rewrite E, IH. reflexivity.
Qed.

Lemma unescapePath_escapePath (path : string) :
  SpecX.unescapePath (Script.escapePath path) = Some path.
Proof.
  induction path as [|c p IH]; [reflexivity |].
  rewrite escapePath_step.
  destruct (Ascii.eqb c Script.BACKSLASH) eqn:Eb.
  - apply Ascii.eqb_eq in Eb. subst c.
    cbn [SpecX.unescapePath]. change (Ascii.eqb Script.BACKSLASH Script.SQUOTE) with false.
    cbv iota. rewrite Ascii.eqb_refl, IH. reflexivity.
  - destruct (Ascii.eqb c Script.SQUOTE) eqn:Eq.
    + apply Ascii.eqb_eq in Eq. subst c.
      cbn [SpecX.unescapePath]. rewrite Ascii.eqb_refl, IH. reflexivity.
    + cbn [SpecX.unescapePath]. rewrite Eq, Eb, IH. reflexivity.
Qed.

(** X5.  The escaping of the paths in the update script leaves no
    single quote unpaired and loses nothing: between single quotes,
    PowerShell reads the escaped text to its end, as the path with every
    backslash doubled; and two paths never give the same text. *)
Theorem escapePath_lossless :
  (forall path : string,
      SpecX.singleQuoted (Script.escapePath path)
      = Some (JS.replaceAllChar Script.BACKSLASH
                (String Script.BACKSLASH (String Script.BACKSLASH "")) path))
  /\ (forall p q : string, Script.escapePath p = Script.escapePath q -> p = q).
Proof.
  split.
  - intros path. apply singleQuoted_doubled.
  - intros p q Heq. pose proof (unescapePath_escapePath p) as Hp.
    rewrite Heq, unescapePath_escapePath in Hp. congruence.
Qed.

(** ** Whether an API key is configured *)

Lemma split_app_sep (sep : ascii) (a b : string) :
  JS.split sep (a ++ String sep b) = (JS.split sep a ++ JS.split sep b)%list.
Proof.
  induction a as [|c a IH].
  - change ("" ++ String sep b)%string with (String sep b).
    cbn [JS.split]. rewrite Ascii.eqb_refl. reflexivity.
  - change (String c a ++ String sep b)%string with (String c (a ++ String sep b)).
    cbn [JS.split]. destruct (Ascii.eqb c sep).
    + rewrite IH. reflexivity.
    + rewrite IH. pose proof (split_not_nil sep a) as Hne.
      destruct (JS.split sep a) as [|h t]; [congruence | reflexivity].
Qed.

Lemma join_cons (sep p : string) (rest : list string) :
  rest <> [] -> JS.join sep (p :: rest) = (p ++ sep ++ JS.join sep rest)%string.
Proof. destruct rest; [congruence | reflexivity]. Qed.

Lemma In_split_join (sep : ascii) (x : string) (parts : list string) :
  In x parts -> Spec.allChars (Spec.isNot sep) x = true ->
  In x (JS.split sep (JS.join (String sep "") parts)).
Proof.
  intros Hin Hx. induction parts as [|p rest IH]; [contradiction |].
  destruct rest as [|q rest].
  - destruct Hin as [-> | []]. cbn [JS.join]. rewrite (split_one sep x Hx). left. reflexivity.
  - rewrite join_cons by discriminate.
    change (p ++ String sep "" ++ JS.join (String sep "") (q :: rest))%string
      with (p ++ String sep (JS.join (String sep "") (q :: rest)))%string.
    rewrite split_app_sep. apply in_or_app. destruct Hin as [-> | Hin].
    + left. rewrite (split_one sep x Hx). left. reflexivity.
    + right. apply IH. exact Hin.
Qed.

Lemma startsWith_app (a b sub : string) :
  JS.startsWith a sub = true -> JS.startsWith (a ++ b) sub = true.
Proof.
  revert a. induction sub as [|c sub IH]; intros a H; [reflexivity |].
  destruct a as [|d a]; [discriminate |].
  change (String d a ++ b)%string with (String d (a ++ b)).
  cbn [JS.startsWith] in *. apply andb_true_iff in H. destruct H as [-> H].
  rewrite (IH a H). reflexivity.
Qed.

Lemma includes_app_l (a b sub : string) :
  JS.includes a sub = true -> JS.includes (a ++ b) sub = true.
Proof.
  induction a as [|c a IH]; intros H.
  - cbn [JS.includes] in H. rewrite orb_false_r in H.
    destruct sub; [| discriminate]. destruct b; reflexivity.
  - change (String c a ++ b)%string with (String c (a ++ b)).
    cbn [JS.includes] in *. apply orb_true_iff in H. destruct H as [H | H].
    + change (String c (a ++ b)) with (String c a ++ b)%string.
      rewrite (startsWith_app _ b _ H). reflexivity.
    + rewrite (IH H). apply orb_true_r.
Qed.

Lemma includes_app_r (a b sub : string) :
  JS.includes b sub = true -> JS.includes (a ++ b) sub = true.
Proof.
  intros H. induction a as [|c a IH]; [exact H |].
  change (String c a ++ b)%string with (String c (a ++ b)).
  cbn [JS.includes]. rewrite IH. apply orb_true_r.
Qed.

Lemma includes_join (sep x sub : string) (parts : list string) :
  In x parts -> JS.includes x sub = true ->
  JS.includes (JS.join sep parts) sub = true.
Proof.
  intros Hin Hx. induction parts as [|p rest IH]; [contradiction |].
  destruct rest as [|q rest].
  - destruct Hin as [-> | []]. exact Hx.
  - rewrite join_cons by discriminate. destruct Hin as [-> | Hin].
    + apply includes_app_l. exact Hx.
    + apply includes_app_r, includes_app_r, IH. exact Hin.
Qed.

Lemma startsWith_prefix (p s : string) : JS.startsWith (p ++ s) p = true.
Proof.
  induction p as [|c p IH]; [reflexivity |].
  change (String c p ++ s)%string with (String c (p ++ s)).
  cbn [JS.startsWith]. rewrite Ascii.eqb_refl, IH. reflexivity.
Qed.

Lemma dropChars_prefix (p s : string) : JS.dropChars (String.length p) (p ++ s) = s.
Proof.
  induction p as [|c p IH]; [destruct s; reflexivity |].
  change (String c p ++ s)%string with (String c (p ++ s)).
  cbn [String.length JS.dropChars]. exact IH.
Qed.

Lemma noLineTerminator_replace (c : ascii) (by_ s : string) :
  EnvFile.noLineTerminator by_ = true -> EnvFile.noLineTerminator s = true ->
  EnvFile.noLineTerminator (JS.replaceAllChar c by_ s) = true.
Proof.
  intros Hby. induction s as [|a s IH]; intros H; [reflexivity |].
  cbn [EnvFile.noLineTerminator] in H. apply andb_true_iff in H. destruct H as [Ha Hs].
  cbn [JS.replaceAllChar]. destruct (Ascii.eqb a c).
  - rewrite noLineTerminator_append, Hby, (IH Hs). reflexivity.
  - cbn [EnvFile.noLineTerminator]. rewrite Ha, (IH Hs). reflexivity.
Qed.

Lemma noLineTerminator_escapeValue (v : string) :
  EnvFile.noLineTerminator v = true ->
  EnvFile.noLineTerminator (EnvFile.escapeValue v) = true.
Proof.
  intros H. unfold EnvFile.escapeValue.
  destruct (JS.includes v " " || JS.includes v "#" || JS.includes v "="); [| exact H].
  rewrite !noLineTerminator_append.
  rewrite noLineTerminator_replace; [reflexivity | reflexivity | exact H].
Qed.

(** What [save-config] writes for a value, without the white space
    around it: never empty and never the placeholder, unless the value
    is. *)
Lemma escapeValue_trim (v : string) :
  JS.trim v <> "" -> JS.trim v <> ApiKey.placeholder ->
  JS.trim (EnvFile.escapeValue v) <> ""
  /\ JS.trim (EnvFile.escapeValue v) <> ApiKey.placeholder.
Proof.
  intros H1 H2. unfold EnvFile.escapeValue.
  destruct (JS.includes v " " || JS.includes v "#" || JS.includes v "=");
    [| split; assumption].
  set (body := JS.replaceAllChar EnvFile.DQUOTE _ v).
  assert (JS.trim (EnvFile.quote EnvFile.DQUOTE ++ body ++ EnvFile.quote EnvFile.DQUOTE)
          = String EnvFile.DQUOTE (body ++ EnvFile.quote EnvFile.DQUOTE)) as ->.
  { change (EnvFile.quote EnvFile.DQUOTE ++ body ++ EnvFile.quote EnvFile.DQUOTE)%string
      with (String EnvFile.DQUOTE (body ++ String EnvFile.DQUOTE "")).
    unfold JS.trim. cbn [JS.trimStart].
    change (JS.isWhiteSpace EnvFile.DQUOTE) with false. cbv iota.
    change (String EnvFile.DQUOTE (body ++ String EnvFile.DQUOTE ""))
      with ((String EnvFile.DQUOTE body) ++ String EnvFile.DQUOTE "")%string.
    apply trimEnd_last. reflexivity. }
  split; discriminate.
Qed.

Lemma configured_entry (v : string) :
  EnvFile.noLineTerminator v = true ->
  JS.trim v <> "" -> JS.trim v <> ApiKey.placeholder ->
  ApiKey.configured (EnvFile.formatEntry ("GOOGLE_API_KEY", v)) = true.
Proof.
  intros Hl H1 H2.
  change (EnvFile.formatEntry ("GOOGLE_API_KEY", v))
    with (ApiKey.marker ++ EnvFile.escapeValue v)%string.
  unfold ApiKey.configured, ApiKey.keyLine.
  rewrite startsWith_prefix.
  change 15%nat with (String.length ApiKey.marker). rewrite dropChars_prefix.
  destruct (escapeValue_trim v H1 H2) as [E1 E2].
  assert (JS.isEmpty (EnvFile.escapeValue v) = false) as ->.
  { apply isEmpty_false. intros E. rewrite E in E1. apply E1. reflexivity. }
  rewrite (noLineTerminator_escapeValue v Hl). cbn [negb andb].
  rewrite (isEmpty_false _ E1).
  apply String.eqb_neq in E2. rewrite E2. reflexivity.
Qed.

Lemma allChars_noLineTerminator (s : string) :
  EnvFile.noLineTerminator s = true -> Spec.allChars (Spec.isNot EnvFile.LF) s = true.
Proof.
  induction s as [|c s IH]; [reflexivity |].
  cbn [EnvFile.noLineTerminator Spec.allChars]. intros H.
  apply andb_true_iff in H. destruct H as [H Hs].
  apply andb_true_iff in H. destruct H as [H _].
  rewrite (IH Hs). unfold Spec.isNot. rewrite H. reflexivity.
Qed.

(** X6.  A key saved from the settings is found by [hasApiKey]: when
    [save-config] has written a configuration whose [GOOGLE_API_KEY] is
    on one line, is not blank and is not the placeholder, [hasApiKey]
    answers true on the file, in development and packaged alike. *)
Theorem saved_key_is_found :
  forall (config : EnvFile.record) (key : string)
         (writeError : string -> option string)
         (isDev : bool) (devEnv : ApiKey.file),
    EnvFile.get "GOOGLE_API_KEY" config = Some key ->
    EnvFile.noLineTerminator key = true ->
    JS.trim key <> "" ->
    JS.trim key <> ApiKey.placeholder ->
    writeError (EnvFile.formatEnv (EnvFile.correctConfig config)) = None ->
    exists content,
      EnvFile.saveConfig config writeError = (Some content, EnvFile.Success)
      /\ ApiKey.hasApiKey isDev (ApiKey.Readable content) devEnv = true.
Proof.
  intros config key writeError isDev devEnv Hget Hl H1 H2 Hw.
  exists (EnvFile.formatEnv (EnvFile.correctConfig config)). split.
  - unfold EnvFile.saveConfig. rewrite Hw. reflexivity.
  - assert (In ("GOOGLE_API_KEY", key) (EnvFile.correctConfig config)) as Hin.
    { apply get_In in Hget.
      destruct (correctConfig_cases config) as [-> | ->]; [exact Hget |].
      apply In_set_other; [discriminate | exact Hget]. }
    set (line := EnvFile.formatEntry ("GOOGLE_API_KEY", key)).
    assert (In line (map EnvFile.formatEntry (EnvFile.correctConfig config))) as Hline.
    { apply in_map_iff. exists ("GOOGLE_API_KEY", key). split; [reflexivity | exact Hin]. }
    assert (ApiKey.hasKey (EnvFile.formatEnv (EnvFile.correctConfig config)) = true) as Hk.
    { unfold ApiKey.hasKey, EnvFile.formatEnv. apply andb_true_iff. split.
      - apply (includes_join _ line); [exact Hline |].
        subst line.
        change (EnvFile.formatEntry ("GOOGLE_API_KEY", key))
          with (ApiKey.marker ++ EnvFile.escapeValue key)%string.
        apply includes_app_l. reflexivity.
      - apply existsb_exists. exists line. split.
        + apply In_split_join; [exact Hline |].
          subst line.
          change (EnvFile.formatEntry ("GOOGLE_API_KEY", key))
            with (ApiKey.marker ++ EnvFile.escapeValue key)%string.
          rewrite allChars_app. apply andb_true_iff. split; [reflexivity |].
          apply allChars_noLineTerminator, noLineTerminator_escapeValue, Hl.
        + apply configured_entry; assumption. }
    unfold ApiKey.hasApiKey. rewrite Hk. reflexivity.
Qed.

Lemma saved_key_is_found_witness :
  exists content,
    EnvFile.saveConfig [("GOOGLE_API_KEY", "AIza-key 1")] (fun _ => None)
    = (Some content, EnvFile.Success)
    /\ ApiKey.hasApiKey false (ApiKey.Readable content) ApiKey.Absent = true.
Proof.
  apply (saved_key_is_found [("GOOGLE_API_KEY", "AIza-key 1")] "AIza-key 1").
  - reflexivity.
  - reflexivity.
  - discriminate.
  - discriminate.
  - reflexivity.
Defined.

Lemma get_readLine_kept (k : string) (acc : EnvFile.record) (line : string) :
  EnvFile.get k acc <> None -> EnvFile.get k (EnvFile.readLine acc line) <> None.
Proof.
  intros H. unfold EnvFile.readLine.
  destruct (EnvFile.matchLine line) as [[k' r]|]; [| exact H].
  destruct (String.eqb_spec (JS.trim k') k) as [-> | Hne].
  - rewrite get_set_kept by exact H. discriminate.
  - rewrite get_set_other by exact Hne. exact H.
Qed.

Lemma get_readLines_kept (k : string) (lines : list string) (acc : EnvFile.record) :
  EnvFile.get k acc <> None ->
  EnvFile.get k (fold_left EnvFile.readLine lines acc) <> None.
Proof.
  revert acc. induction lines as [|line lines IH]; intros acc H; [exact H |].
  cbn [fold_left]. apply IH, get_readLine_kept, H.
Qed.

Lemma keyAndRest_marker (k r : string) :
  Spec.allChars (fun c => Spec.isNot "#" c && Spec.isNot "=" c && Spec.isNot EnvFile.LF c) k
  = true ->
  EnvFile.matchLine (k ++ String "=" r)
  = if JS.isEmpty k then None
    else if EnvFile.noLineTerminator r then Some (k, r) else None.
Proof.
  intros H. unfold EnvFile.matchLine. rewrite (keyAndRest_entry k r H). reflexivity.
Qed.

Lemma configured_sets_key (acc : EnvFile.record) (line : string) :
  ApiKey.configured line = true ->
  EnvFile.get "GOOGLE_API_KEY" (EnvFile.readLine acc line) <> None.
Proof.
  unfold ApiKey.configured, ApiKey.keyLine. intros H.
  destruct (JS.startsWith line ApiKey.marker) eqn:Hs; [| discriminate].
  destruct (negb (JS.isEmpty (JS.dropChars 15 line))
            && EnvFile.noLineTerminator (JS.dropChars 15 line)) eqn:Hr; [| discriminate].
  apply andb_true_iff in Hr. destruct Hr as [_ Hr].
  assert (line = ApiKey.marker ++ JS.dropChars 15 line)%string as Hline.
  { clear - Hs. unfold ApiKey.marker in *.
    repeat (destruct line as [|? line]; [discriminate |];
            cbn [JS.startsWith] in Hs; apply andb_true_iff in Hs;
            destruct Hs as [Hc Hs]; apply Ascii.eqb_eq in Hc; subst).
    reflexivity. }
  unfold EnvFile.readLine. rewrite Hline at 1.
  change (ApiKey.marker ++ JS.dropChars 15 line)%string
    with ("GOOGLE_API_KEY" ++ String "=" (JS.dropChars 15 line))%string.
  rewrite keyAndRest_marker by reflexivity.
  change (JS.isEmpty "GOOGLE_API_KEY") with false. cbv iota. rewrite Hr.
  change (JS.trim "GOOGLE_API_KEY") with "GOOGLE_API_KEY".
  rewrite get_set_same by discriminate. discriminate.
Qed.

Lemma hasKey_read (content : string) :
  ApiKey.hasKey content = true ->
  exists v, EnvFile.get "GOOGLE_API_KEY" (EnvFile.loadFreshConfig [Some content]) = Some v.
Proof.
  unfold ApiKey.hasKey. intros H. apply andb_true_iff in H. destruct H as [_ H].
  apply existsb_exists in H. destruct H as (line & Hin & Hc).
  assert (EnvFile.get "GOOGLE_API_KEY" (EnvFile.readContent [] content) <> None) as Hne.
  { unfold EnvFile.readContent.
    apply in_split in Hin. destruct Hin as (l1 & l2 & ->).
    rewrite fold_left_app. cbn [fold_left].
    apply get_readLines_kept, configured_sets_key, Hc. }
  unfold EnvFile.loadFreshConfig. cbn [EnvFile.loadFrom].
  destruct (EnvFile.readContent [] content) as [|e rest] eqn:E.
  - exfalso. apply Hne. reflexivity.
  - destruct (EnvFile.get "GOOGLE_API_KEY" (e :: rest)) as [v|]; [| congruence].
    exists v. reflexivity.
Qed.

(** X7.  When [hasApiKey] answers true, a file it has read has a line
    that gives the key: the file of the user, or in development that of
    the project; and [loadFreshConfig] on that file gives a
    configuration with [GOOGLE_API_KEY] in it.  A packaged application
    never answers from the file of the project. *)
Theorem hasApiKey_true_has_key :
  forall (isDev : bool) (userEnv devEnv : ApiKey.file),
    ApiKey.hasApiKey isDev userEnv devEnv = true ->
    exists content,
      (userEnv = ApiKey.Readable content
       \/ (isDev = true /\ devEnv = ApiKey.Readable content))
      /\ exists v,
           EnvFile.get "GOOGLE_API_KEY" (EnvFile.loadFreshConfig [Some content]) = Some v.
Proof.
  intros isDev userEnv devEnv H. unfold ApiKey.hasApiKey in H.
  assert ((if isDev
           then ApiKey.hasKey match devEnv with
                              | ApiKey.Readable content => content
                              | _ => ""
                              end
           else false) = true ->
          exists content, isDev = true /\ devEnv = ApiKey.Readable content
                          /\ ApiKey.hasKey content = true) as Hdev.
  { destruct isDev; [| discriminate]. destruct devEnv as [| |c]; try discriminate.
    intros Hc. exists c. repeat split. exact Hc. }
  destruct userEnv as [| |content].
  - destruct (Hdev H) as (c & Hd & He & Hc). exists c. split; [right; split; assumption |].
    apply hasKey_read, Hc.
  - discriminate.
  - destruct (ApiKey.hasKey content) eqn:Hk.
    + exists content. split; [left; reflexivity |]. apply hasKey_read, Hk.
    + destruct (Hdev H) as (c & Hd & He & Hc). exists c.
      split; [right; split; assumption |]. apply hasKey_read, Hc.
Qed.

Lemma hasApiKey_true_has_key_witness :
  exists content,
    (ApiKey.Readable "GOOGLE_API_KEY=k" = ApiKey.Readable content
     \/ (false = true /\ ApiKey.Absent = ApiKey.Readable content))
    /\ exists v,
         EnvFile.get "GOOGLE_API_KEY" (EnvFile.loadFreshConfig [Some content]) = Some v.
Proof.
  apply (hasApiKey_true_has_key false (ApiKey.Readable "GOOGLE_API_KEY=k") ApiKey.Absent).
  reflexivity.
Defined.

(** ** The image generator's model and file names *)

Lemma model_search_parts (s m : string) :
  Generator.search s = Some m ->
  m <> "" /\ Spec.allChars (Spec.isNot ":") m = true.
Proof.
  assert (forall t, Generator.matchAtStart t = Some m ->
                    m <> "" /\ Spec.allChars (Spec.isNot ":") m = true) as Hat.
  { intros t H. unfold Generator.matchAtStart in H.
    destruct (JS.startsWith t "models/"); [| discriminate].
    destruct (Repo.takeNot ":" (JS.dropChars 7 t)) as [m' r] eqn:E.
    destruct (JS.isEmpty m') eqn:Em; [discriminate |].
    injection H as <-. apply takeNot_parts in E.
    split; [intros -> ; discriminate | tauto]. }
  induction s as [|c s IH]; cbn [Generator.search].
  - destruct (Generator.matchAtStart "") eqn:E; [| discriminate].
    intros H. injection H as ->. exact (Hat _ E).
  - destruct (Generator.matchAtStart (String c s)) eqn:E; [| exact IH].
    intros H. injection H as ->. exact (Hat _ E).
Qed.

Lemma model_search_none (s : string) :
  JS.includes s "models/" = false -> Generator.search s = None.
Proof.
  induction s as [|c s IH]; intros H.
  - reflexivity.
  - cbn [JS.includes] in H. apply orb_false_iff in H. destruct H as [H1 H2].
    cbn [Generator.search]. unfold Generator.matchAtStart. rewrite H1.
    apply IH. exact H2.
Qed.

Lemma chooseModel_usable (apiUrl : string) (l : list Log.entry) :
  exists l' model,
    Generator.chooseModel apiUrl l = (l', Exn.Ok model)
    /\ SpecX.usable model
    /\ (Generator.search apiUrl = None -> model = Generator.latestModel).
Proof.
  assert (SpecX.usable Generator.latestModel) as Hlatest.
  { repeat split; try reflexivity. discriminate. }
  unfold Generator.chooseModel.
  destruct (Generator.search apiUrl) as [m|] eqn:E.
  - destruct (model_search_parts _ _ E) as [Hne Hc].
    destruct (JS.includes m "gemini-2.5-flash-image" || JS.includes m "flash-image") eqn:E1.
    + eexists _, _. split; [reflexivity |]. split; [exact Hlatest | discriminate].
    + destruct (JS.includes m "gemini-3-pro" && negb (JS.includes m "image")) eqn:E2.
      * eexists _, _. split; [reflexivity |]. split; [exact Hlatest | discriminate].
      * eexists _, _. split; [reflexivity |]. split; [| discriminate].
        apply orb_false_iff in E1. destruct E1 as [_ E1].
        repeat split; try assumption.
        intros H3. rewrite H3 in E2. cbn [andb] in E2.
        apply negb_false_iff in E2. exact E2.
  - eexists _, _. split; [reflexivity |]. split; [exact Hlatest | reflexivity].
Qed.

(** X8.  The constructor of the image generator throws when no API key
    is configured and else ends with a model it can name in a request:
    the name is not empty, has no colon, is no flash-image model and is
    no gemini-3-pro model without image generation.  With the current
    endpoint, or an endpoint that names no model, the model is
    gemini-3-pro-image-preview. *)
Theorem construct_model :
  forall (config : Config.Config) (l : list Log.entry),
    (JS.truthy (Config.apiKey (Config.google config)) = false
     /\ Generator.construct config l
        = (l, Exn.Throw (ImageGen.ErrorObject Generator.noKeyMessage)))
    \/ (JS.truthy (Config.apiKey (Config.google config)) = true
        /\ exists l' g,
             Generator.construct config l = (l', Exn.Ok g)
             /\ Generator.imagesDir g = Config.imagesDir (Config.app config)
             /\ Generator.modelName g <> ""
             /\ Spec.allChars (Spec.isNot ":") (Generator.modelName g) = true
             /\ JS.includes (Generator.modelName g) "flash-image" = false
             /\ (JS.includes (Generator.modelName g) "gemini-3-pro" = true ->
                 JS.includes (Generator.modelName g) "image" = true)
             /\ (Config.apiUrl (Config.google config) = Config.correctUrl
                 \/ JS.includes (Config.apiUrl (Config.google config)) "models/" = false ->
                 Generator.modelName g = Generator.latestModel)).
Proof.
  intros config l. unfold Generator.construct.
  destruct (JS.truthy (Config.apiKey (Config.google config))) eqn:Hkey.
  - right. split; [reflexivity |]. cbn [negb].
    destruct (chooseModel_usable (Config.apiUrl (Config.google config)) l)
      as (l1 & model & Hc & (H1 & H2 & H3 & H4) & Hnone).
    unfold Exn.bind at 1. rewrite Hc.
    eexists _, _. split; [reflexivity |]. cbn [Generator.imagesDir Generator.modelName].
    split; [reflexivity |]. split; [exact H1 |]. split; [exact H2 |].
    split; [exact H3 |]. split; [exact H4 |].
    intros [Hurl | Hno].
    + rewrite Hurl in Hc. vm_compute in Hc. injection Hc as _ <-. reflexivity.
    + apply Hnone, model_search_none, Hno.
  - left. split; reflexivity.
Qed.

Lemma length_digits (w : nat) (v : Z) : String.length (Date.digits w v) = w.
Proof.
  revert v. induction w as [|w IH]; intros v; [reflexivity |].
  cbn [Date.digits]. rewrite length_append, IH. cbn [String.length]. lia.
Qed.

Lemma dashes_app (a b : string) :
  Generator.dashes (a ++ b) = (Generator.dashes a ++ Generator.dashes b)%string.
Proof.
  induction a as [|c a IH]; [reflexivity |].
  change (String c a ++ b)%string with (String c (a ++ b)).
  cbn [Generator.dashes]. rewrite IH. reflexivity.
Qed.

Lemma length_dashes (s : string) :
  String.length (Generator.dashes s) = String.length s.
Proof. induction s as [|c s IH]; [reflexivity |]. cbn. rewrite IH. reflexivity. Qed.

Lemma digit_no_mark (c : ascii) :
  JS.isDigitIn 10 c = true -> Ascii.eqb c ":" || Ascii.eqb c "." = false.
Proof.
  destruct c as [[] [] [] [] [] [] [] []]; vm_compute; intros H;
    try discriminate H; reflexivity.
Qed.

Lemma dashes_digits (w : nat) (v : Z) :
  Generator.dashes (Date.digits w v) = Date.digits w v.
Proof.
  pose proof (digits_are_digits w v) as H.
  induction (Date.digits w v) as [|c s IH]; [reflexivity |].
  cbn [Spec.allChars] in H. apply andb_true_iff in H. destruct H as [Hc Hs].
  cbn [Generator.dashes]. rewrite (digit_no_mark c Hc), (IH Hs). reflexivity.
Qed.

Lemma append_inj (a a' b b' : string) :
  String.length a = String.length a' ->
  (a ++ b = a' ++ b')%string -> a = a' /\ b = b'.
Proof.
  revert a'. induction a as [|c a IH]; intros [|c' a'] Hl H; try discriminate Hl.
  - split; [reflexivity | exact H].
  - change (String c (a ++ b) = String c' (a' ++ b')) in H.
    injection H as -> H. injection Hl as Hl.
    destruct (IH a' Hl H) as [-> ->]. split; reflexivity.
Qed.

Lemma digits_inj (w : nat) (v1 v2 : Z) :
  (0 <= v1 < 10 ^ Z.of_nat w)%Z -> (0 <= v2 < 10 ^ Z.of_nat w)%Z ->
  Date.digits w v1 = Date.digits w v2 -> v1 = v2.
Proof.
  intros H1 H2 E.
  pose proof (digits_value w v1 0 ltac:(lia)) as E1.
  pose proof (digits_value w v2 0 ltac:(lia)) as E2.
  rewrite E, E2 in E1. injection E1 as E1.
  rewrite !Z.mod_small in E1 by lia. lia.
Qed.

Lemma time_of_fields (t : Z) :
  (t = (Date.DayFromYear (Date.YearFromTime t)
        + Date.monthStart (Date.InLeapYear t) (Date.MonthFromTime t)
        + Date.DateFromTime t - 1) * Date.msPerDay
       + Date.HourFromTime t * Date.msPerHour + Date.MinFromTime t * Date.msPerMinute
       + Date.SecFromTime t * Date.msPerSecond + Date.msFromTime t)%Z.
Proof.
  unfold Date.DateFromTime, Date.DayWithinYear.
  replace (Date.DayFromYear (Date.YearFromTime t)
           + Date.monthStart (Date.InLeapYear t) (Date.MonthFromTime t)
           + (Date.Day t - Date.DayFromYear (Date.YearFromTime t)
              - Date.monthStart (Date.InLeapYear t) (Date.MonthFromTime t) + 1) - 1)%Z
    with (Date.Day t) by lia.
  unfold Date.Day, Date.HourFromTime, Date.MinFromTime, Date.SecFromTime,
    Date.msFromTime, Date.msPerDay, Date.msPerHour, Date.msPerMinute, Date.msPerSecond.
  Z.div_mod_to_equations. lia.
Qed.

Lemma fields_range (t : Z) :
  (0 <= t < SpecX.year10000)%Z ->
  (0 <= Date.YearFromTime t <= 9999)%Z
  /\ (1 <= Date.DateFromTime t <= 31)%Z
  /\ (0 <= Date.HourFromTime t < 24)%Z /\ (0 <= Date.MinFromTime t < 60)%Z
  /\ (0 <= Date.SecFromTime t < 60)%Z /\ (0 <= Date.msFromTime t < 1000)%Z.
Proof.
  intros Ht.
  pose proof (YearFromDay_bounds (Date.Day t)) as Hy.
  assert (0 <= Date.Day t < 2932897)%Z as Hd.
  { unfold Date.Day, Date.msPerDay, SpecX.year10000 in *. Z.div_mod_to_equations. lia. }
  assert (1970 <= Date.YearFromTime t <= 9999)%Z as Hyear.
  { unfold Date.YearFromTime. unfold Date.DayFromYear in Hy.
    Z.div_mod_to_equations. lia. }
  split; [lia |]. split.
  - assert (0 <= Date.DayWithinYear t
            < 365 + Date.InLeapYear t)%Z as Hw.
    { unfold Date.DayWithinYear, Date.InLeapYear, Date.YearFromTime in *.
      assert (Date.DayFromYear (Date.YearFromDay (Date.Day t) + 1)
              = Date.DayFromYear (Date.YearFromDay (Date.Day t))
                + Date.DaysInYear (Date.YearFromDay (Date.Day t)))%Z as Hnext.
      { unfold Date.DayFromYear, Date.DaysInYear.
        repeat match goal with
               | |- context [(?a =? ?b)%Z] => destruct (Z.eqb_spec a b)
               end; cbn [negb]; Z.div_mod_to_equations; lia. }
      assert (Date.DaysInYear (Date.YearFromDay (Date.Day t)) = 365
              \/ Date.DaysInYear (Date.YearFromDay (Date.Day t)) = 366)%Z as Hdays.
      { unfold Date.DaysInYear.
        repeat match goal with
               | |- context [if ?b then _ else _] => destruct b
               end; lia. }
      destruct Hdays as [Hdays | Hdays]; rewrite Hdays in *; cbn [Z.eqb Pos.eqb]; lia. }
    assert (Date.InLeapYear t = 0 \/ Date.InLeapYear t = 1)%Z as Hleap.
    { unfold Date.InLeapYear. destruct (_ =? _)%Z; lia. }
    unfold Date.DateFromTime, Date.MonthFromTime, Date.monthStart.
    repeat match goal with
           | |- context [(?a <? ?b)%Z] => destruct (Z.ltb_spec a b)
           end; cbn [Z.eqb Pos.eqb]; lia.
  - unfold Date.HourFromTime, Date.MinFromTime, Date.SecFromTime, Date.msFromTime,
      Date.msPerHour, Date.msPerMinute, Date.msPerSecond.
    repeat split; try (apply Z.mod_pos_bound; lia).
Qed.

Lemma inLeapYear_of_year (t1 t2 : Z) :
  Date.YearFromTime t1 = Date.YearFromTime t2 -> Date.InLeapYear t1 = Date.InLeapYear t2.
Proof. intros H. unfold Date.InLeapYear. rewrite H. reflexivity. Qed.

(** X9.  From 1970 until the year 10000 the file names of two images are the same
    only when the instants, to the millisecond, and the extensions are
    the same; and a file name has no colon, the extension apart. *)
Theorem generateFilename_distinct :
  forall (now1 now2 : Z) (extension1 extension2 : string),
    (0 <= now1 < SpecX.year10000)%Z -> (0 <= now2 < SpecX.year10000)%Z ->
    (Generator.generateFilename now1 extension1
     = Generator.generateFilename now2 extension2 ->
     now1 = now2 /\ extension1 = extension2)
    /\ (Spec.allChars (Spec.isNot ":") extension1 = true ->
        Spec.allChars (Spec.isNot ":")
          (Generator.generateFilename now1 extension1) = true).
Proof.
  intros t1 t2 e1 e2 H1 H2.
  assert (forall t, (0 <= t < SpecX.year10000)%Z ->
            Generator.dashes (Date.isoString t)
            = (Date.digits 4 (Date.YearFromTime t) ++ "-"
               ++ Date.digits 2 (Date.MonthFromTime t + 1) ++ "-"
               ++ Date.digits 2 (Date.DateFromTime t) ++ "T"
               ++ Date.digits 2 (Date.HourFromTime t) ++ "-"
               ++ Date.digits 2 (Date.MinFromTime t) ++ "-"
               ++ Date.digits 2 (Date.SecFromTime t) ++ "-"
               ++ Date.digits 3 (Date.msFromTime t) ++ "Z")%string) as Hshape.
  { intros t Ht. destruct (fields_range t Ht) as (Hy & _).
    unfold Date.isoString.
    replace ((0 <=? Date.YearFromTime t)%Z && (Date.YearFromTime t <=? 9999)%Z) with true
      by (symmetry; apply andb_true_iff; split; apply Z.leb_le; lia).
    rewrite !dashes_app, !dashes_digits. reflexivity. }
  split.
  - unfold Generator.generateFilename. rewrite (Hshape t1 H1), (Hshape t2 H2).
    intros E.
    destruct (fields_range t1 H1) as (Y1 & D1 & h1 & m1 & s1 & ms1).
    destruct (fields_range t2 H2) as (Y2 & D2 & h2 & m2 & s2 & ms2).
    pose proof (MonthFromTime_range t1) as M1.
    pose proof (MonthFromTime_range t2) as M2.
    apply append_inj in E; [| reflexivity]. destruct E as [_ E].
    apply append_inj in E; [| rewrite !length_append, !length_digits; reflexivity].
    destruct E as [E Ee].
    apply append_inj in Ee; [| reflexivity]. destruct Ee as [_ Ee].
    apply append_inj in E; [| rewrite !length_digits; reflexivity].
    destruct E as [EY E]. apply digits_inj in EY; [| cbn; lia | cbn; lia].
    apply append_inj in E; [| reflexivity]. destruct E as [_ E].
    apply append_inj in E; [| rewrite !length_digits; reflexivity].
    destruct E as [EM E]. apply digits_inj in EM; [| cbn; lia | cbn; lia].
    apply append_inj in E; [| reflexivity]. destruct E as [_ E].
    apply append_inj in E; [| rewrite !length_digits; reflexivity].
    destruct E as [ED E]. apply digits_inj in ED; [| cbn; lia | cbn; lia].
    apply append_inj in E; [| reflexivity]. destruct E as [_ E].
    apply append_inj in E; [| rewrite !length_digits; reflexivity].
    destruct E as [Eh E]. apply digits_inj in Eh; [| cbn; lia | cbn; lia].
    apply append_inj in E; [| reflexivity]. destruct E as [_ E].
    apply append_inj in E; [| rewrite !length_digits; reflexivity].
    destruct E as [Em E]. apply digits_inj in Em; [| cbn; lia | cbn; lia].
    apply append_inj in E; [| reflexivity]. destruct E as [_ E].
    apply append_inj in E; [| rewrite !length_digits; reflexivity].
    destruct E as [Es E]. apply digits_inj in Es; [| cbn; lia | cbn; lia].
    apply append_inj in E; [| reflexivity]. destruct E as [_ E].
    apply append_inj in E; [| rewrite !length_digits; reflexivity].
    destruct E as [Ems _]. apply digits_inj in Ems; [| cbn; lia | cbn; lia].
    split; [| exact Ee].
    assert (Date.MonthFromTime t1 = Date.MonthFromTime t2) as EM' by lia.
    rewrite (time_of_fields t1), (time_of_fields t2).
    rewrite (inLeapYear_of_year t1 t2 EY), EY, EM', ED, Eh, Em, Es, Ems. reflexivity.
  - intros He. unfold Generator.generateFilename. rewrite (Hshape t1 H1).
    rewrite !allChars_app, He.
    assert (forall w v, Spec.allChars (Spec.isNot ":") (Date.digits w v) = true) as Hd.
    { intros w v. apply (allChars_impl (JS.isDigitIn 10)); [| apply digits_are_digits].
      intros c Hc. apply digit_plain in Hc. unfold Spec.isNot.
      destruct Hc as (_ & _ & _ & _ & _ & _ & _ & _ & _ & _ & ->). reflexivity. }
    rewrite !Hd. reflexivity.
Qed.

Lemma generateFilename_distinct_witness :
  (Generator.generateFilename Spec.jan15_0800 "png"
   = Generator.generateFilename Spec.jan15_1000 "png" ->
   Spec.jan15_0800 = Spec.jan15_1000 /\ "png" = "png")
  /\ (Spec.allChars (Spec.isNot ":") "png" = true ->
      Spec.allChars (Spec.isNot ":")
        (Generator.generateFilename Spec.jan15_0800 "png") = true).
Proof.
  apply (generateFilename_distinct Spec.jan15_0800 Spec.jan15_1000 "png" "png").
  - unfold Spec.jan15_0800, SpecX.year10000. lia.
  - unfold Spec.jan15_1000, SpecX.year10000. lia.
Defined.

(** ** The daily schedule, once started *)

Lemma daily_S (first : Z) (n : nat) :
  SpecX.daily first (S n) = first :: SpecX.daily (first + Sched.dailyInterval)%Z n.
Proof.
  unfold SpecX.daily. cbn [seq map]. f_equal; [lia |].
  rewrite <- seq_shift, map_map. apply map_ext. intros i. lia.
Qed.

Lemma fireNext_interval (w : Sched.world) (h : nat) (d : Z) :
  Sched.timers w
  = [{| Sched.handle := h; Sched.kind := Sched.Interval;
        Sched.after := Sched.dailyInterval; Sched.due := d;
        Sched.action := Sched.DailyRun |}] ->
  (Sched.clock w <= d)%Z ->
  exists w',
    Sched.fireNext w = Some w'
    /\ Sched.timers w'
       = [{| Sched.handle := h; Sched.kind := Sched.Interval;
             Sched.after := Sched.dailyInterval;
             Sched.due := (d + Sched.dailyInterval)%Z;
             Sched.action := Sched.DailyRun |}]
    /\ Sched.clock w' = d
    /\ Sched.runs w' = (Sched.runs w ++ [d])%list
    /\ Sched.intervalId w' = Sched.intervalId w.
Proof.
  intros Ht Hc. unfold Sched.fireNext. rewrite Ht. cbn [Sched.earliest Sched.due].
  eexists. split; [reflexivity |].
  cbn [Sched.action Sched.handle Sched.runCallback List.filter].
  rewrite Nat.eqb_refl. cbn [negb app].
  unfold Sched.rearm, Sched.runOnce, Sched.logInfo, Sched.setTimers.
  cbn [Sched.kind Sched.handle Sched.after Sched.action Sched.timers Sched.clock
       Sched.runs Sched.intervalId Sched.localTZA Sched.nextHandle Sched.logged app].
  rewrite Z.max_r by lia. repeat split.
Qed.

Lemma fireMany_interval (n : nat) (w : Sched.world) (h : nat) (d : Z) :
  Sched.timers w
  = [{| Sched.handle := h; Sched.kind := Sched.Interval;
        Sched.after := Sched.dailyInterval; Sched.due := d;
        Sched.action := Sched.DailyRun |}] ->
  (Sched.clock w <= d)%Z ->
  exists w',
    SpecX.fireMany n w = Some w'
    /\ Sched.timers w'
       = [{| Sched.handle := h; Sched.kind := Sched.Interval;
             Sched.after := Sched.dailyInterval;
             Sched.due := (d + Z.of_nat n * Sched.dailyInterval)%Z;
             Sched.action := Sched.DailyRun |}]
    /\ Sched.runs w' = (Sched.runs w ++ SpecX.daily d n)%list
    /\ Sched.intervalId w' = Sched.intervalId w.
Proof.
  revert w d. induction n as [|n IH]; intros w d Ht Hc.
  - exists w. split; [reflexivity |]. rewrite Ht. change (Z.of_nat 0) with 0%Z.
    rewrite Z.mul_0_l, Z.add_0_r. unfold SpecX.daily. cbn [seq map].
    rewrite app_nil_r. repeat split.
  - destruct (fireNext_interval w h d Ht Hc) as (w1 & Hf & Ht1 & Hc1 & Hr1 & Hi1).
    destruct (IH w1 (d + Sched.dailyInterval)%Z Ht1) as (w' & Hm & Ht' & Hr' & Hi').
    { rewrite Hc1. unfold Sched.dailyInterval. lia. }
    exists w'. cbn [SpecX.fireMany]. rewrite Hf. split; [exact Hm |].
    split; [rewrite Ht'; do 2 f_equal; lia |].
    split; [| congruence].
    rewrite Hr', Hr1, daily_S, <- app_assoc. reflexivity.
Qed.

Lemma timerDelay_range (d : option Z) :
  (1 <= Sched.timerDelay d <= Sched.TIMEOUT_MAX)%Z.
Proof.
  unfold Sched.timerDelay, Sched.TIMEOUT_MAX. destruct d as [d|]; [| lia].
  destruct ((1 <=? d) && (d <=? 2147483647))%Z eqn:E; [| lia].
  apply andb_true_iff in E. destruct E as [E1 E2].
  apply Z.leb_le in E1, E2. lia.
Qed.

(** A scheduler started where no timer is armed, once a target instant
    is computed and after the event loop has turned [S n] times: the job
    has run when the one-shot timer fired and every 24 hours after it,
    and the interval is armed and known to the scheduler. *)
Lemma schedule_from_target (cfg : Config.Config) (w : Sched.world)
      (target : Z) (n : nat) :
  Sched.scheduledTime (Config.time (Config.schedule cfg))
                      (Sched.localTZA w) (Sched.clock w) = Some target ->
  Sched.timers w = [] ->
  let delay := (target - Sched.clock w)%Z in
  let first := (Sched.clock w + Sched.timerDelay (Some delay))%Z in
  exists w1 wn handle,
    Sched.startDailySchedule cfg w = Exn.Ok w1
    /\ Sched.runs w1
       = (Sched.runs w ++ if (3600000 <? delay)%Z then [Sched.clock w] else [])%list
    /\ SpecX.fireMany (S n) w1 = Some wn
    /\ Sched.runs wn = (Sched.runs w1 ++ SpecX.daily first (S n))%list
    /\ Sched.intervalId wn = Some handle
    /\ Sched.timers wn
       = [{| Sched.handle := handle; Sched.kind := Sched.Interval;
             Sched.after := Sched.dailyInterval;
             Sched.due := (first + Z.of_nat (S n) * Sched.dailyInterval)%Z;
             Sched.action := Sched.DailyRun |}].
Proof.
  intros Hst Hts delay first.
  assert (Sched.msUntilNext (Config.time (Config.schedule cfg))
                            (Sched.localTZA w) (Sched.clock w) = Some delay) as Hms.
  { unfold Sched.msUntilNext. rewrite Hst. reflexivity. }
  pose proof (timerDelay_range (Some delay)) as Htd.
  set (w1 := fst (Sched.arm Sched.Timeout Sched.FirstRun (Some delay)
                    ((if (3600000 <? delay)%Z
                      then Sched.runOnce else fun x => x)
                       (Sched.logInfo ("Next wallpaper update scheduled for: "
                                       ++ Date.isoString target)
                          (Sched.logInfo "Starting daily scheduler" w))))).
  assert (Sched.startDailySchedule cfg w = Exn.Ok w1) as Hstart.
  { rewrite startDailySchedule_eq.
    cbn [Sched.logInfo Sched.clock Sched.localTZA]. rewrite Hst, Hms.
    cbn [Sched.moreThanAnHour]. subst w1.
    destruct (3600000 <? delay)%Z; reflexivity. }
  assert (Sched.runs w1
          = (Sched.runs w ++ if (3600000 <? delay)%Z then [Sched.clock w] else [])%list)
    as Hruns1.
  { subst w1. destruct (3600000 <? delay)%Z; cbn; [reflexivity |].
    rewrite app_nil_r. reflexivity. }
  assert (Sched.timers w1
          = [{| Sched.handle := Sched.nextHandle w; Sched.kind := Sched.Timeout;
                Sched.after := Sched.timerDelay (Some delay); Sched.due := first;
                Sched.action := Sched.FirstRun |}]
          /\ Sched.clock w1 = Sched.clock w
          /\ Sched.nextHandle w1 = S (Sched.nextHandle w)) as (Ht1 & Hc1 & Hn1).
  { subst w1. unfold Sched.arm. cbn [fst Sched.timers Sched.clock Sched.nextHandle].
    destruct (3600000 <? delay)%Z;
      cbn [Sched.runOnce Sched.logInfo Sched.timers Sched.clock Sched.nextHandle];
      rewrite Hts; cbn [app]; (split; [reflexivity | split; reflexivity]). }
  clearbody w1.
  destruct (Sched.fireNext w1) as [w2|] eqn:Hfire.
  2: { unfold Sched.fireNext in Hfire. rewrite Ht1 in Hfire. discriminate. }
  assert (Sched.timers w2
          = [{| Sched.handle := Sched.nextHandle w1; Sched.kind := Sched.Interval;
                Sched.after := Sched.dailyInterval;
                Sched.due := (first + Sched.dailyInterval)%Z;
                Sched.action := Sched.DailyRun |}]
          /\ Sched.clock w2 = first
          /\ Sched.runs w2 = (Sched.runs w1 ++ [first])%list
          /\ Sched.intervalId w2 = Some (Sched.nextHandle w1)) as (Ht2 & Hc2 & Hr2 & Hi2).
  { unfold Sched.fireNext in Hfire. rewrite Ht1 in Hfire.
    cbn [Sched.earliest Sched.due Sched.action Sched.handle List.filter] in Hfire.
    rewrite Nat.eqb_refl in Hfire. cbn [negb app] in Hfire.
    injection Hfire as <-.
    unfold Sched.rearm, Sched.runCallback, Sched.arm, Sched.runOnce, Sched.logInfo,
      Sched.setTimers, Sched.setIntervalId.
    cbn [Sched.kind Sched.handle Sched.after Sched.action Sched.timers Sched.clock
         Sched.runs Sched.intervalId Sched.localTZA Sched.nextHandle Sched.logged app].
    rewrite Hc1, Z.max_r by (subst first; lia).
    change (Sched.timerDelay (Some Sched.dailyInterval)) with Sched.dailyInterval.
    repeat split. }
  destruct (fireMany_interval n w2 (Sched.nextHandle w1) (first + Sched.dailyInterval)%Z Ht2)
    as (wn & Hmany & Htn & Hrn & Hin).
  { rewrite Hc2. unfold Sched.dailyInterval. lia. }
  exists w1, wn, (Sched.nextHandle w1).
  split; [exact Hstart |]. split; [exact Hruns1 |].
  split; [cbn [SpecX.fireMany]; rewrite Hfire; exact Hmany |].
  split; [rewrite Hrn, Hr2, daily_S, <- app_assoc; reflexivity |].
  split; [congruence |].
  rewrite Htn. do 2 f_equal. lia.
Qed.

(** The same for a valid time HH:MM, with the instant that the host's
    clock gives. *)
Lemma schedule_after_first_run (cfg : Config.Config) (w : Sched.world)
      (h m : Z) (n : nat) :
  Config.time (Config.schedule cfg) = Spec.hhmm h m ->
  (0 <= h < 24)%Z -> (0 <= m < 60)%Z ->
  (Z.abs (Sched.localTZA w) <= Date.msPerDay)%Z ->
  (Z.abs (Sched.clock w) <= 8000000000000000)%Z ->
  Sched.timers w = [] ->
  let target := Spec.targetInZone (Sched.localTZA w) h m (Sched.clock w) in
  exists w1 wn handle,
    Sched.startDailySchedule cfg w = Exn.Ok w1
    /\ Sched.runs w1
       = (Sched.runs w
          ++ if (3600000 <? target - Sched.clock w)%Z then [Sched.clock w] else [])%list
    /\ SpecX.fireMany (S n) w1 = Some wn
    /\ Sched.runs wn = (Sched.runs w1 ++ SpecX.daily target (S n))%list
    /\ Sched.intervalId wn = Some handle
    /\ Sched.timers wn
       = [{| Sched.handle := handle; Sched.kind := Sched.Interval;
             Sched.after := Sched.dailyInterval;
             Sched.due := (target + Z.of_nat (S n) * Sched.dailyInterval)%Z;
             Sched.action := Sched.DailyRun |}].
Proof.
  intros Htime Hh Hm Hz Hnow Hts target.
  destruct (msUntilNext_local h m (Sched.localTZA w) (Sched.clock w) Hh Hm Hz Hnow)
    as (_ & _ & Htd).
  pose proof (scheduledTime_local h m (Sched.localTZA w) (Sched.clock w) Hh Hm Hz Hnow)
    as Hst.
  fold target in Htd, Hst. rewrite <- Htime in Hst.
  pose proof (schedule_from_target cfg w target n Hst Hts) as H.
  cbv zeta in H. rewrite Htd in H.
  replace (Sched.clock w + (target - Sched.clock w))%Z with target in H by lia.
  exact H.
Qed.

(** X10.  Started where no other timer is armed, once
    [startDailySchedule] has computed its target instant, the scheduler
    runs the job when its one-shot timer fires and then every 24 hours,
    for as long as the event loop turns; before that it has run the job
    once at the start exactly when the target is more than an hour away.
    The timer fires at the target when that is 1 to 2147483647
    milliseconds ahead, and one millisecond after the start otherwise. *)
Theorem daily_schedule_runs :
  forall (cfg : Config.Config) (w : Sched.world) (target : Z) (n : nat),
    Sched.scheduledTime (Config.time (Config.schedule cfg))
                        (Sched.localTZA w) (Sched.clock w) = Some target ->
    Sched.timers w = [] ->
    let delay := (target - Sched.clock w)%Z in
    let first :=
      if ((1 <=? delay) && (delay <=? 2147483647))%Z then target
      else (Sched.clock w + 1)%Z in
    exists w1 wn,
      Sched.startDailySchedule cfg w = Exn.Ok w1
      /\ SpecX.fireMany (S n) w1 = Some wn
      /\ Sched.runs wn
         = (Sched.runs w
            ++ (if (3600000 <? delay)%Z then [Sched.clock w] else [])
            ++ map (fun i => (first + Z.of_nat i * 86400000)%Z) (seq 0 (S n)))%list.
Proof.
  intros cfg w target n Hst Hts delay first.
  destruct (schedule_from_target cfg w target n Hst Hts)
    as (w1 & wn & handle & Hstart & Hr1 & Hmany & Hrn & _).
  fold delay in Hr1, Hrn.
  assert ((Sched.clock w + Sched.timerDelay (Some delay))%Z = first) as Hfirst.
  { subst first. unfold Sched.timerDelay, Sched.TIMEOUT_MAX.
    destruct ((1 <=? delay) && (delay <=? 2147483647))%Z; lia. }
  rewrite Hfirst in Hrn.
  exists w1, wn. split; [exact Hstart |]. split; [exact Hmany |].
  rewrite Hrn, Hr1, <- app_assoc. reflexivity.
Qed.

Lemma daily_schedule_runs_witness :
  exists w1 wn,
    Sched.startDailySchedule Spec.defaultConfig (Sched.fresh Spec.jan15_1000 0)
    = Exn.Ok w1
    /\ SpecX.fireMany 3 w1 = Some wn
    /\ Sched.runs wn
       = [Spec.jan15_1000; 1705395600000; 1705482000000; 1705568400000]%Z.
Proof.
  destruct (daily_schedule_runs Spec.defaultConfig (Sched.fresh Spec.jan15_1000 0)
              1705395600000%Z 2)
    as (w1 & wn & Hstart & Hmany & Hruns).
  - reflexivity.
  - reflexivity.
  - exists w1, wn. split; [exact Hstart |]. split; [exact Hmany |]. exact Hruns.
Defined.

(** X11.  Once the job has run at its scheduled instant, [stop] ends the
    schedule: no timer is left armed, the event loop has nothing more to
    fire and no run is added. *)
Theorem stop_after_first_run_ends_schedule :
  forall (cfg : Config.Config) (w : Sched.world) (h m : Z) (n : nat),
    Config.time (Config.schedule cfg) = Spec.hhmm h m ->
    (0 <= h < 24)%Z -> (0 <= m < 60)%Z ->
    (Z.abs (Sched.localTZA w) <= Date.msPerDay)%Z ->
    (Z.abs (Sched.clock w) <= 8000000000000000)%Z ->
    Sched.timers w = [] ->
    exists w1 wn,
      Sched.startDailySchedule cfg w = Exn.Ok w1
      /\ SpecX.fireMany (S n) w1 = Some wn
      /\ Sched.timers (Sched.stop wn) = []
      /\ Sched.intervalId (Sched.stop wn) = None
      /\ Sched.fireNext (Sched.stop wn) = None
      /\ Sched.runs (Sched.stop wn) = Sched.runs wn.
Proof.
  intros cfg w h m n Htime Hh Hm Hz Hnow Hts.
  destruct (schedule_after_first_run cfg w h m n Htime Hh Hm Hz Hnow Hts)
    as (w1 & wn & handle & Hstart & _ & Hmany & _ & Hid & Htn).
  exists w1, wn. split; [exact Hstart |]. split; [exact Hmany |].
  assert (Sched.timers (Sched.stop wn) = []) as Hnone.
  { unfold Sched.stop. rewrite Hid.
    cbn [Sched.logInfo Sched.setIntervalId Sched.clearInterval Sched.timers].
    rewrite Htn. cbn [List.filter Sched.handle]. rewrite Nat.eqb_refl. reflexivity. }
  split; [exact Hnone |].
  split; [unfold Sched.stop; rewrite Hid; reflexivity |].
  split; [unfold Sched.fireNext; rewrite Hnone; reflexivity |].
  unfold Sched.stop. rewrite Hid. reflexivity.
Qed.

Lemma stop_after_first_run_ends_schedule_witness :
  exists w1 wn,
    Sched.startDailySchedule Spec.defaultConfig (Sched.fresh Spec.jan15_0800 0)
    = Exn.Ok w1
    /\ SpecX.fireMany 1 w1 = Some wn
    /\ Sched.timers (Sched.stop wn) = []
    /\ Sched.intervalId (Sched.stop wn) = None
    /\ Sched.fireNext (Sched.stop wn) = None
    /\ Sched.runs (Sched.stop wn) = Sched.runs wn.
Proof.
  apply (stop_after_first_run_ends_schedule
           Spec.defaultConfig (Sched.fresh Spec.jan15_0800 0) 9 0 0).
  - reflexivity.
  - lia.
  - lia.
  - cbn. unfold Date.msPerDay. lia.
  - cbn. unfold Spec.jan15_0800. lia.
  - reflexivity.
Defined.

(** ** Installing an update *)

Lemma downloadUpdate_result (downloadUrl downloadPath : string)
      (failure : option ImageGen.thrown) (l : list Log.entry) :
  exists l',
    Install.downloadUpdate downloadUrl downloadPath failure l
    = (l', match failure with
           | Some e => Exn.Throw e
           | None => Exn.Ok tt
           end).
Proof. destruct failure; eexists; reflexivity. Qed.

Lemma installUpdate_result (sep zipPath appDir : string)
      (failure : option ImageGen.thrown) (l : list Log.entry) :
  exists l',
    Install.installUpdate sep zipPath appDir failure l
    = (l', match failure with
           | Some e => Exn.Throw e
           | None => Exn.Ok (Config.pathJoin sep appDir "update.ps1")
           end).
Proof. destruct failure; eexists; reflexivity. Qed.

(** X12.  The handler of [install-update] downloads nothing unless the
    release is newer than the running version, and then only from the
    address of the first Windows archive of that release, into
    [update.zip] of the application's directory; it schedules the
    restart exactly when it answers with success, which needs the
    download and the writing of the script to have gone through; and
    when it has started no download its answer is that no update is
    available. *)
Theorem install_update_guarded :
  forall (sep appDir currentVersion : string) (feed : Update.getOutcome)
         (messageOf : Update.thrown -> string)
         (downloadFailure writeFailure : option ImageGen.thrown)
         (l : list Log.entry),
    let r := Install.installUpdateHandler sep appDir currentVersion feed messageOf
               downloadFailure writeFailure l in
    (forall url path,
        In (Install.Download url path) (Install.effects r) ->
        path = Config.pathJoin sep appDir "update.zip"
        /\ url <> ""
        /\ exists release tag,
             feed = Update.Resolved (Some release)
             /\ Update.tag_name release = Some tag
             /\ Update.isNewerVersion (Update.stripV tag) currentVersion = true
             /\ SpecX.firstWindowsZip release url)
    /\ (In Install.Relaunch (Install.effects r)
        <-> Install.success (Install.answered r) = true)
    /\ (Install.success (Install.answered r) = true ->
        downloadFailure = None /\ writeFailure = None
        /\ exists url,
             Install.effects r
             = [Install.Download url (Config.pathJoin sep appDir "update.zip");
                Install.WriteScript (Config.pathJoin sep appDir "update.ps1");
                Install.Relaunch])
    /\ (Install.effects r = [] ->
        Install.answered r = Install.failed "No update available").
Proof.
  intros sep appDir cur feed messageOf downloadFailure writeFailure l r.
  subst r. unfold Install.installUpdateHandler.
  destruct (checkForUpdates_cases cur feed l) as (l1 & info & Hc & Hinfo).
  rewrite Hc.
  assert (Update.available info = true ->
          JS.truthy (Some (Update.downloadUrl info)) = true ->
          Update.downloadUrl info <> ""
          /\ exists release tag,
               feed = Update.Resolved (Some release)
               /\ Update.tag_name release = Some tag
               /\ Update.isNewerVersion (Update.stripV tag) cur = true
               /\ SpecX.firstWindowsZip release (Update.downloadUrl info)) as Hguard.
  { intros Ha Hu.
    assert (Update.downloadUrl info <> "") as Hne.
    { intros E. rewrite E in Hu. discriminate. }
    split; [exact Hne |].
    destruct Hinfo as [-> | (release & tag & Hf & Ht & _ & Hav & Hurl)];
      [discriminate |].
    exists release, tag. split; [exact Hf |]. split; [exact Ht |].
    split; [congruence |]. destruct Hurl as [E | Hz]; [contradiction | exact Hz]. }
  destruct (Update.available info) eqn:Ha; cbn [negb orb].
  2: { cbn [Install.effects Install.answered Install.success Install.failed].
       repeat split; try contradiction; try discriminate. }
  destruct (JS.truthy (Some (Update.downloadUrl info))) eqn:Hu; cbn [negb].
  2: { cbn [Install.effects Install.answered Install.success Install.failed].
       repeat split; try contradiction; try discriminate. }
  destruct (Hguard eq_refl eq_refl) as (Hne & Hrel).
  destruct (downloadUpdate_result (Update.downloadUrl info)
              (Config.pathJoin sep appDir "update.zip") downloadFailure l1)
    as (l2 & ->).
  destruct downloadFailure as [e|].
  { cbn [Install.effects Install.answered Install.success Install.failed].
    split; [| split; [| split]].
    - intros url path [H | []]. injection H as <- <-. repeat split; assumption.
    - split; [intros [H | []]; discriminate | discriminate].
    - discriminate.
    - discriminate. }
  destruct (installUpdate_result sep (Config.pathJoin sep appDir "update.zip") appDir
              writeFailure l2) as (l3 & ->).
  destruct writeFailure as [e|];
    cbn [Install.effects Install.answered Install.success Install.failed app].
  - split; [| split; [| split]].
    + intros url path [H | []]. injection H as <- <-. repeat split; assumption.
    + split; [intros [H | []]; discriminate | discriminate].
    + discriminate.
    + discriminate.
  - split; [| split; [| split]].
    + intros url path [H | [H | [H | []]]]; try discriminate.
      injection H as <- <-. repeat split; assumption.
    + split; [reflexivity | intros _; right; right; left; reflexivity].
    + intros _. split; [reflexivity |]. split; [reflexivity |].
      exists (Update.downloadUrl info). reflexivity.
    + discriminate.
Qed.

(** ** The correction of the endpoint in the [.env] file *)

Lemma join_split (sep : ascii) (s : string) :
  JS.join (String sep "") (JS.split sep s) = s.
Proof.
  induction s as [|c s IH]; [reflexivity |].
  cbn [JS.split]. pose proof (split_not_nil sep s) as Hne.
  destruct (Ascii.eqb_spec c sep) as [-> | Hc].
  - rewrite join_cons by exact Hne. rewrite IH. reflexivity.
  - destruct (JS.split sep s) as [|h t]; [congruence |].
    destruct t as [|h' t].
    + cbn [JS.join] in *. rewrite IH. reflexivity.
    + rewrite join_cons by discriminate. rewrite join_cons in IH by discriminate.
      change (String c h ++ String sep "" ++ JS.join (String sep "") (h' :: t))%string
        with (String c (h ++ String sep "" ++ JS.join (String sep "") (h' :: t)))%string.
      rewrite IH. reflexivity.
Qed.

Lemma startsWith_crossing (a b p : string) (sep : ascii) :
  Spec.allChars (Spec.isNot sep) p = true ->
  JS.startsWith (a ++ String sep b) p = true -> JS.startsWith a p = true.
Proof.
  revert a. induction p as [|x p IH]; intros a Hp H; [reflexivity |].
  cbn [Spec.allChars] in Hp. apply andb_true_iff in Hp. destruct Hp as [Hx Hp].
  destruct a as [|y a].
  - change ("" ++ String sep b)%string with (String sep b) in H.
    cbn [JS.startsWith] in H. apply andb_true_iff in H. destruct H as [H _].
    apply Ascii.eqb_eq in H. subst x. unfold Spec.isNot in Hx.
    rewrite Ascii.eqb_refl in Hx. discriminate.
  - change (String y a ++ String sep b)%string with (String y (a ++ String sep b)) in H.
    cbn [JS.startsWith] in *. apply andb_true_iff in H. destruct H as [-> H].
    rewrite (IH a Hp H). reflexivity.
Qed.

Lemma append_assoc (a b c : string) : ((a ++ b) ++ c = a ++ b ++ c)%string.
Proof.
  induction a as [|x a IH]; [reflexivity |].
  change (String x ((a ++ b) ++ c) = String x (a ++ b ++ c)). rewrite IH. reflexivity.
Qed.

Lemma startsWith_split (s p : string) :
  JS.startsWith s p = true -> s = (p ++ JS.dropChars (String.length p) s)%string.
Proof.
  revert s. induction p as [|x p IH]; intros s H.
  - destruct s; reflexivity.
  - destruct s as [|y s]; [discriminate |].
    cbn [JS.startsWith] in H. apply andb_true_iff in H. destruct H as [Hc H].
    apply Ascii.eqb_eq in Hc. subst y.
    cbn [String.length JS.dropChars].
    change (String x p ++ JS.dropChars (String.length p) s)%string
      with (String x (p ++ JS.dropChars (String.length p) s)).
    rewrite <- (IH s H). reflexivity.
Qed.

Lemma length_skipLine (s : string) :
  (String.length (EnvRewrite.skipLine s) <= String.length s)%nat.
Proof.
  induction s as [|c s IH]; [reflexivity |].
  cbn [EnvRewrite.skipLine]. destruct (Ascii.eqb c EnvFile.LF); [cbn; lia |].
  destruct (Ascii.eqb c EnvFile.CR); [reflexivity |]. cbn [String.length]. lia.
Qed.

Lemma skipLine_line (tail rest : string) :
  Spec.allChars (Spec.isNot EnvFile.LF) tail = true ->
  Spec.allChars (Spec.isNot EnvFile.CR) tail = true ->
  EnvRewrite.skipLine (tail ++ String EnvFile.LF rest) = rest
  /\ EnvRewrite.skipLine tail = "".
Proof.
  induction tail as [|c tail IH]; intros H1 H2.
  - split; reflexivity.
  - cbn [Spec.allChars] in H1, H2.
    apply andb_true_iff in H1. destruct H1 as [Hc1 H1].
    apply andb_true_iff in H2. destruct H2 as [Hc2 H2].
    unfold Spec.isNot in Hc1, Hc2. apply negb_true_iff in Hc1, Hc2.
    change (String c tail ++ String EnvFile.LF rest)%string
      with (String c (tail ++ String EnvFile.LF rest)).
    cbn [EnvRewrite.skipLine]. rewrite Hc1, Hc2. apply IH; assumption.
Qed.

Lemma removeUrlLines_fuel (f1 f2 : nat) (s : string) :
  (String.length s < f1)%nat -> (String.length s < f2)%nat ->
  EnvRewrite.removeUrlLines f1 s = EnvRewrite.removeUrlLines f2 s.
Proof.
  revert f2 s. induction f1 as [|f1 IH]; intros f2 s H1 H2; [lia |].
  destruct f2 as [|f2]; [lia |]. cbn [EnvRewrite.removeUrlLines].
  destruct (JS.startsWith s EnvRewrite.marker) eqn:Hs.
  - pose proof (length_skipLine (JS.dropChars 15 s)) as Hl.
    assert (String.length (JS.dropChars 15 s) < String.length s)%nat as Hd.
    { rewrite (startsWith_split _ _ Hs) at 2. rewrite length_append.
      change (String.length EnvRewrite.marker) with 15%nat. lia. }
    apply IH; lia.
  - destruct s as [|c s]; [reflexivity |]. cbn [String.length] in *.
    f_equal. apply IH; lia.
Qed.

Lemma removeUrlLines_step (fuel : nat) (s : string) :
  EnvRewrite.removeUrlLines (S fuel) s
  = if JS.startsWith s EnvRewrite.marker
    then EnvRewrite.removeUrlLines fuel (EnvRewrite.skipLine (JS.dropChars 15 s))
    else match s with
         | EmptyString => EmptyString
         | String c s' => String c (EnvRewrite.removeUrlLines fuel s')
         end.
Proof. reflexivity. Qed.

(** A line without the marker is kept, with the line feed after it. *)
Lemma removeUrlLines_kept (line rest : string) :
  Spec.allChars (Spec.isNot EnvFile.LF) line = true ->
  JS.includes line EnvRewrite.marker = false ->
  EnvRewrite.removeUrlLines
    (S (String.length (line ++ String EnvFile.LF rest))) (line ++ String EnvFile.LF rest)
  = (line ++ String EnvFile.LF
       (EnvRewrite.removeUrlLines (S (String.length rest)) rest))%string
  /\ EnvRewrite.removeUrlLines (S (String.length line)) line = line.
Proof.
  induction line as [|c line IH]; intros Hl Hi.
  - split; reflexivity.
  - cbn [Spec.allChars] in Hl. apply andb_true_iff in Hl. destruct Hl as [_ Hl].
    cbn [JS.includes] in Hi. apply orb_false_iff in Hi. destruct Hi as [Hs Hi].
    destruct (IH Hl Hi) as [IH1 IH2]. split.
    + change (String c line ++ String EnvFile.LF rest)%string
        with (String c (line ++ String EnvFile.LF rest)).
      cbn [String.length].
      rewrite (removeUrlLines_step (S (String.length (line ++ String EnvFile.LF rest)))).
      destruct (JS.startsWith (String c (line ++ String EnvFile.LF rest))
                  EnvRewrite.marker) eqn:Hs'.
      * change (String c (line ++ String EnvFile.LF rest))
          with (String c line ++ String EnvFile.LF rest)%string in Hs'.
        apply startsWith_crossing in Hs'; [congruence | reflexivity].
      * rewrite IH1. reflexivity.
    + cbn [String.length].
      rewrite (removeUrlLines_step (S (String.length line))), Hs, IH2. reflexivity.
Qed.

(** A line that starts with the marker is taken out, with the line feed
    after it. *)
Lemma removeUrlLines_dropped (line rest : string) :
  Spec.allChars (Spec.isNot EnvFile.LF) line = true ->
  Spec.allChars (Spec.isNot EnvFile.CR) line = true ->
  JS.startsWith line EnvRewrite.marker = true ->
  EnvRewrite.removeUrlLines
    (S (String.length (line ++ String EnvFile.LF rest))) (line ++ String EnvFile.LF rest)
  = EnvRewrite.removeUrlLines (S (String.length rest)) rest
  /\ EnvRewrite.removeUrlLines (S (String.length line)) line = "".
Proof.
  intros Hl Hc Hs.
  pose proof (startsWith_split _ _ Hs) as Hline.
  set (tail := JS.dropChars (String.length EnvRewrite.marker) line) in Hline.
  assert (Spec.allChars (Spec.isNot EnvFile.LF) tail = true
          /\ Spec.allChars (Spec.isNot EnvFile.CR) tail = true) as [Ht1 Ht2].
  { rewrite Hline, allChars_app in Hl, Hc.
    apply andb_true_iff in Hl, Hc. tauto. }
  destruct (skipLine_line tail rest Ht1 Ht2) as [Hk1 Hk2].
  split.
  - rewrite removeUrlLines_step.
    rewrite (startsWith_app _ _ _ Hs).
    assert (JS.dropChars 15 (line ++ String EnvFile.LF rest)
            = tail ++ String EnvFile.LF rest)%string as ->.
    { rewrite Hline. change 15%nat with (String.length EnvRewrite.marker).
      rewrite append_assoc. apply dropChars_prefix. }
    rewrite Hk1. apply removeUrlLines_fuel; [| lia].
    rewrite length_append. cbn [String.length]. lia.
  - rewrite removeUrlLines_step, Hs.
    assert (JS.dropChars 15 line = tail) as -> by reflexivity.
    rewrite Hk2. destruct (String.length line); reflexivity.
Qed.

(** What a line does to a key when it is read. *)
Lemma get_readLine (key : string) (acc : EnvFile.record) (line : string) :
  EnvFile.get key (EnvFile.readLine acc line)
  = match EnvFile.matchLine line with
    | Some (k, r) =>
        if String.eqb (JS.trim k) key
        then match EnvFile.get key acc with
             | Some _ => Some (EnvFile.unquote (JS.trim r))
             | None => if String.eqb key "__proto__" then None
                       else Some (EnvFile.unquote (JS.trim r))
             end
        else EnvFile.get key acc
    | None => EnvFile.get key acc
    end.
Proof.
  unfold EnvFile.readLine.
  destruct (EnvFile.matchLine line) as [[k r]|]; [| reflexivity].
  destruct (String.eqb_spec (JS.trim k) key) as [<- | Hne].
  - apply get_set.
  - apply get_set_other. exact Hne.
Qed.

Lemma get_readLines_congr (key : string) (lines : list string)
      (acc1 acc2 : EnvFile.record) :
  EnvFile.get key acc1 = EnvFile.get key acc2 ->
  EnvFile.get key (fold_left EnvFile.readLine lines acc1)
  = EnvFile.get key (fold_left EnvFile.readLine lines acc2).
Proof.
  revert acc1 acc2. induction lines as [|line lines IH]; intros acc1 acc2 H; [exact H |].
  cbn [fold_left]. apply IH. rewrite !get_readLine.
  destruct (EnvFile.matchLine line) as [[k r]|]; [| exact H].
  destruct (String.eqb (JS.trim k) key); [rewrite H; reflexivity | exact H].
Qed.

(** A line that starts with the marker gives a value to the endpoint
    and to no other key. *)
Lemma get_readLine_marked (key : string) (acc : EnvFile.record) (line : string) :
  JS.startsWith line EnvRewrite.marker = true ->
  key <> "GOOGLE_API_URL" ->
  EnvFile.get key (EnvFile.readLine acc line) = EnvFile.get key acc.
Proof.
  intros Hs Hkey. rewrite get_readLine.
  rewrite (startsWith_split _ _ Hs).
  change (EnvRewrite.marker ++ JS.dropChars (String.length EnvRewrite.marker) line)%string
    with ("GOOGLE_API_URL"
          ++ String "=" (JS.dropChars (String.length EnvRewrite.marker) line))%string.
  rewrite keyAndRest_marker by reflexivity.
  change (JS.isEmpty "GOOGLE_API_URL") with false. cbv iota.
  destruct (EnvFile.noLineTerminator _); [| reflexivity].
  change (JS.trim "GOOGLE_API_URL") with "GOOGLE_API_URL".
  destruct (String.eqb_spec "GOOGLE_API_URL" key) as [E | _]; [congruence | reflexivity].
Qed.

Lemma readLine_new_endpoint (acc : EnvFile.record) :
  EnvFile.readLine acc (EnvRewrite.marker ++ Config.correctUrl)
  = EnvFile.set "GOOGLE_API_URL" Config.correctUrl acc.
Proof.
  unfold EnvFile.readLine.
  replace (EnvFile.matchLine (EnvRewrite.marker ++ Config.correctUrl))
    with (Some ("GOOGLE_API_URL", Config.correctUrl)) by (vm_compute; reflexivity).
  replace (JS.trim "GOOGLE_API_URL") with "GOOGLE_API_URL" by (vm_compute; reflexivity).
  replace (EnvFile.unquote (JS.trim Config.correctUrl)) with Config.correctUrl
    by (vm_compute; reflexivity).
  reflexivity.
Qed.

Lemma readContent_rewritten (body : string) (acc : EnvFile.record) :
  EnvFile.readContent acc
    (body ++ String EnvFile.LF (EnvRewrite.marker ++ Config.correctUrl))
  = EnvFile.set "GOOGLE_API_URL" Config.correctUrl (EnvFile.readContent acc body).
Proof.
  unfold EnvFile.readContent. rewrite split_app_sep, fold_left_app.
  replace (JS.split EnvFile.LF (EnvRewrite.marker ++ Config.correctUrl))
    with [(EnvRewrite.marker ++ Config.correctUrl)%string] by (vm_compute; reflexivity).
  cbn [fold_left]. apply readLine_new_endpoint.
Qed.

Lemma removed_lines_read (key : string) (lines : list string) :
  key <> "GOOGLE_API_URL" ->
  lines <> [] ->
  Forall (fun line => Spec.allChars (Spec.isNot EnvFile.LF) line = true) lines ->
  Forall (fun line => SpecX.plainLine line = true) lines ->
  forall acc,
    EnvFile.get key
      (EnvFile.readContent acc
         (EnvRewrite.removeUrlLines
            (S (String.length (JS.join (String EnvFile.LF "") lines)))
            (JS.join (String EnvFile.LF "") lines)))
    = EnvFile.get key (fold_left EnvFile.readLine lines acc).
Proof.
  intros Hkey Hne Hlf Hplain.
  induction lines as [|line rest IH]; [congruence |]. intros acc.
  inversion Hlf as [|? ? Hl Hlf']; subst. inversion Hplain as [|? ? Hp Hplain']; subst.
  unfold SpecX.plainLine in Hp.
  destruct rest as [|line' rest].
  - cbn [JS.join fold_left]. unfold EnvFile.readContent.
    destruct (JS.includes line EnvRewrite.marker) eqn:Hi.
    + apply andb_true_iff in Hp. destruct Hp as [Hs Hc].
      destruct (removeUrlLines_dropped line "" Hl Hc Hs) as [_ ->].
      cbn [JS.split fold_left]. rewrite (get_readLine_marked key acc line Hs Hkey).
      reflexivity.
    + destruct (removeUrlLines_kept line "" Hl Hi) as [_ ->].
      rewrite (split_one _ _ Hl). reflexivity.
  - rewrite join_cons by discriminate.
    change (line ++ String EnvFile.LF "" ++ JS.join (String EnvFile.LF "") (line' :: rest))%string
      with (line ++ String EnvFile.LF (JS.join (String EnvFile.LF "") (line' :: rest)))%string.
    change (fold_left EnvFile.readLine (line :: line' :: rest) acc)
      with (fold_left EnvFile.readLine (line' :: rest) (EnvFile.readLine acc line)).
    assert (line' :: rest <> []) as Hne' by discriminate.
    specialize (IH Hne' Hlf' Hplain').
    destruct (JS.includes line EnvRewrite.marker) eqn:Hi.
    + apply andb_true_iff in Hp. destruct Hp as [Hs Hc].
      destruct (removeUrlLines_dropped line
                  (JS.join (String EnvFile.LF "") (line' :: rest)) Hl Hc Hs) as [-> _].
      rewrite (IH acc).
      apply get_readLines_congr. symmetry. apply get_readLine_marked; assumption.
    + destruct (removeUrlLines_kept line
                  (JS.join (String EnvFile.LF "") (line' :: rest)) Hl Hi) as [-> _].
      rewrite <- (IH (EnvFile.readLine acc line)).
      unfold EnvFile.readContent. rewrite (split_append _ _ _ Hl). reflexivity.
Qed.

(** X13.  The rewriting of the [.env] file that corrects the endpoint
    leaves a file in which [loadFreshConfig] reads the current endpoint,
    whatever the file was; and when every line with [GOOGLE_API_URL=]
    in it starts with it and has no carriage return, every other setting
    is read from the new file as it was from the old one. *)
Theorem rewriteEnv_changes_only_the_endpoint :
  forall content : string,
    EnvFile.get "GOOGLE_API_URL"
      (EnvFile.loadFreshConfig [Some (EnvRewrite.rewriteEnv content)])
    = Some Config.correctUrl
    /\ (Forall (fun line => SpecX.plainLine line = true)
               (JS.split EnvFile.LF content) ->
        forall key : string,
          key <> "GOOGLE_API_URL" ->
          EnvFile.get key (EnvFile.loadFreshConfig [Some (EnvRewrite.rewriteEnv content)])
          = EnvFile.get key (EnvFile.loadFreshConfig [Some content])).
Proof.
  intros content.
  assert (forall c, EnvFile.loadFreshConfig [Some c] = EnvFile.readContent [] c) as Hload.
  { intros c. unfold EnvFile.loadFreshConfig. cbn [EnvFile.loadFrom].
    destruct (EnvFile.readContent [] c); reflexivity. }
  rewrite !Hload. unfold EnvRewrite.rewriteEnv. rewrite readContent_rewritten.
  split; [apply get_set_same; discriminate |].
  intros Hplain key Hkey.
  rewrite get_set_other by congruence.
  pose proof (join_split EnvFile.LF content) as Hjoin.
  rewrite <- Hjoin at 1 2.
  rewrite removed_lines_read.
  - reflexivity.
  - exact Hkey.
  - apply split_not_nil.
  - apply split_pieces.
  - exact Hplain.
Qed.

Lemma rewriteEnv_changes_only_the_endpoint_witness :
  EnvFile.get "IMAGE_SIZE"
    (EnvFile.loadFreshConfig
       [Some (EnvRewrite.rewriteEnv
                ("GOOGLE_API_URL=https://api.google.com/nano-banana-pro/generate"
                 ++ String EnvFile.LF "IMAGE_SIZE=2K"))])
  = Some "2K".
Proof.
  destruct (rewriteEnv_changes_only_the_endpoint
              ("GOOGLE_API_URL=https://api.google.com/nano-banana-pro/generate"
               ++ String EnvFile.LF "IMAGE_SIZE=2K")) as [_ H].
  rewrite (H ltac:(repeat constructor) "IMAGE_SIZE" ltac:(discriminate)).
  reflexivity.
Defined.

(** ** Generating an image *)

Lemma extensionOfMime_cases (mimeType : string) :
  In (Generator.extensionOfMime mimeType) ["jpg"; "png"; "webp"].
Proof.
  unfold Generator.extensionOfMime.
  repeat match goal with
         | |- context [if ?b then _ else _] => destruct b
         end; cbn; tauto.
Qed.

Lemma extensionOfContentType_cases (contentType : string) :
  In (Generator.extensionOfContentType contentType) ["jpg"; "png"; "webp"].
Proof.
  unfold Generator.extensionOfContentType.
  repeat match goal with
         | |- context [if ?b then _ else _] => destruct b
         end; cbn; tauto.
Qed.

Section Adds.

Context {A : Type}.
Implicit Types (P Q : list Generate.call -> Exn.result ImageGen.thrown A -> Prop).

Lemma adds_weaken P Q (c : Generate.M A) :
  (forall t r, P t r -> Q t r) -> SpecX.adds P c -> SpecX.adds Q c.
Proof.
  intros HPQ H s. destruct (H s) as (tail & Hc & Hp).
  exists tail. split; [exact Hc | apply HPQ, Hp].
Qed.

Lemma adds_throw P (e : ImageGen.thrown) :
  P [] (Exn.Throw e) -> SpecX.adds P (Generate.throw e).
Proof. intros H s. exists []. cbn. rewrite app_nil_r. split; [reflexivity | exact H]. Qed.

Lemma adds_log P (lv : Log.level) (msg : string) (c : Generate.M A) :
  SpecX.adds P c -> SpecX.adds P (Generate.bind (Generate.log lv msg) (fun _ => c)).
Proof.
  intros H s. cbv [Generate.bind Generate.log].
  exact (H {| Generate.logged := (Generate.logged s ++ [(lv, msg)])%list;
              Generate.calls := Generate.calls s;
              Generate.clockReads := Generate.clockReads s |}).
Qed.

Lemma adds_skip P (c : Generate.M A) :
  SpecX.adds P c -> SpecX.adds P (Generate.bind (Generate.ret tt) (fun _ => c)).
Proof. intros H s. exact (H s). Qed.

Lemma adds_called P (x : Generate.call) (c : Generate.M A) :
  SpecX.adds P c ->
  SpecX.adds (fun t r => exists t', t = x :: t' /\ P t' r)
             (Generate.bind (Generate.called x) (fun _ => c)).
Proof.
  intros H s. cbv [Generate.bind Generate.called].
  destruct (H {| Generate.logged := Generate.logged s;
                 Generate.calls := (Generate.calls s ++ [x])%list;
                 Generate.clockReads := Generate.clockReads s |})
    as (tail & Hc & Hp).
  exists (x :: tail). split.
  - rewrite Hc. cbn [Generate.calls]. rewrite <- app_assoc. reflexivity.
  - exists tail. split; [reflexivity | exact Hp].
Qed.

Lemma adds_answer {B : Type} P (r0 : Exn.result ImageGen.thrown B)
      (k : B -> Generate.M A) :
  (forall e, r0 = Exn.Throw e -> P [] (Exn.Throw e)) ->
  (forall b, r0 = Exn.Ok b -> SpecX.adds P (k b)) ->
  SpecX.adds P (Generate.bind (Generate.answer r0) k).
Proof.
  intros He Hb s. cbv [Generate.bind Generate.answer]. destruct r0 as [b | e].
  - exact (Hb b eq_refl s).
  - exists []. cbn. rewrite app_nil_r. split; [reflexivity | exact (He e eq_refl)].
Qed.

Lemma adds_failing P (failure : option ImageGen.thrown) (c : Generate.M A) :
  (forall e, failure = Some e -> P [] (Exn.Throw e)) ->
  (failure = None -> SpecX.adds P c) ->
  SpecX.adds P (Generate.bind (Generate.failing failure) (fun _ => c)).
Proof.
  intros He Hc s. cbv [Generate.bind Generate.failing]. destruct failure as [e|].
  - exists []. cbn. rewrite app_nil_r. split; [reflexivity | exact (He e eq_refl)].
  - exact (Hc eq_refl s).
Qed.

End Adds.

Lemma writeImage_wrote (w : Generate.world) (sep : string)
      (this : Generator.ImageGenerator) (extension : string) :
  In extension ["jpg"; "png"; "webp"] ->
  SpecX.adds (SpecX.wrote w sep this) (Generate.writeImage w sep this extension).
Proof.
  intros Hext s. unfold Generate.writeImage.
  cbv [Generate.bind Generate.tryCatch Generate.now Generate.called Generate.failing
       Generate.log Generate.ret Generate.throw Generate.answer].
  cbn [fst snd Generate.calls Generate.logged Generate.clockReads].
  set (path := Config.pathJoin sep (Generator.imagesDir this)
                 (Generator.generateFilename
                    (Generate.clock w (Generate.clockReads s)) extension)).
  exists [Generate.WriteFile path].
  destruct (Generate.writeFailure w path) as [e|] eqn:Hw;
    cbn [fst snd Generate.calls].
  - split; [reflexivity |]. split; [reflexivity |]. discriminate.
  - split; [reflexivity |]. split; [reflexivity |].
    intros p [= <-]. split; [left; reflexivity |].
    exists (Generate.clockReads s), extension. repeat split; assumption.
Qed.

Lemma wrote_nothing (w : Generate.world) (sep : string)
      (this : Generator.ImageGenerator) (e : ImageGen.thrown) :
  SpecX.wrote w sep this [] (Exn.Throw e).
Proof. split; [reflexivity | discriminate]. Qed.

Lemma wrote_after (w : Generate.world) (sep : string)
      (this : Generator.ImageGenerator) (x : Generate.call) :
  SpecX.apiOf [x] = [] ->
  forall (t : list Generate.call) (r : Exn.result ImageGen.thrown string),
    (exists t', t = x :: t' /\ SpecX.wrote w sep this t' r) ->
    SpecX.wrote w sep this t r.
Proof.
  intros Hx t r (t' & -> & Ha & Hp). split.
  - change (x :: t') with ([x] ++ t')%list. unfold SpecX.apiOf in *.
    rewrite List.filter_app, Hx, Ha. reflexivity.
  - intros path Hr. destruct (Hp path Hr) as [Hin Hw]. split; [right; exact Hin | exact Hw].
Qed.

Lemma saveBase64Image_wrote (w : Generate.world) (sep : string)
      (this : Generator.ImageGenerator) (mimeType : string) :
  SpecX.adds (SpecX.wrote w sep this)
    (Generate.saveBase64Image w sep this mimeType).
Proof.
  unfold Generate.saveBase64Image.
  apply adds_log, writeImage_wrote, extensionOfMime_cases.
Qed.

Lemma downloadImageFromUrl_wrote (w : Generate.world) (sep : string)
      (this : Generator.ImageGenerator) (imageUrl : string) :
  SpecX.adds (SpecX.wrote w sep this)
    (Generate.downloadImageFromUrl w sep this imageUrl).
Proof.
  unfold Generate.downloadImageFromUrl. apply adds_log.
  eapply adds_weaken; [apply (wrote_after w sep this (Generate.Fetch imageUrl) eq_refl) |].
  apply adds_called, adds_answer.
  - intros e _. apply wrote_nothing.
  - intros response _. destruct (Generate.ok response); cbn [negb].
    + apply adds_failing.
      * intros e _. apply wrote_nothing.
      * intros _. apply writeImage_wrote, extensionOfContentType_cases.
    + apply adds_throw, wrote_nothing.
Qed.

Lemma fromParts_wrote (w : Generate.world) (sep : string)
      (this : Generator.ImageGenerator) (l : list Generate.part) :
  SpecX.adds (SpecX.wrote w sep this) (Generate.fromParts w sep this l).
Proof.
  induction l as [|p rest IH]; cbn [Generate.fromParts].
  - apply adds_log, adds_throw, wrote_nothing.
  - destruct (JS.truthy (Generate.inlineOf p)).
    + apply adds_log, saveBase64Image_wrote.
    + destruct (JS.truthy (Generate.fileUriOf p)); [| exact IH].
      apply adds_log, downloadImageFromUrl_wrote.
Qed.

Lemma viaGenerateContent_adds (w : Generate.world) (sep : string)
      (this : Generator.ImageGenerator) (aspectRatio imageSize enhancedPrompt : string) :
  SpecX.adds
    (fun t r =>
       exists t',
         t = Generate.GenerateContent
               {| Generate.contentModel := Generator.modelName this;
                  Generate.contents := enhancedPrompt;
                  Generate.responseModalities := ["IMAGE"];
                  Generate.contentAspectRatio := aspectRatio;
                  Generate.contentSize :=
                    if Generate.highResolution (Generator.modelName this)
                    then Some imageSize else None |} :: t'
         /\ SpecX.wrote w sep this t' r)
    (Generate.viaGenerateContent w sep this aspectRatio imageSize enhancedPrompt).
Proof.
  unfold Generate.viaGenerateContent. apply adds_log.
  assert (forall (c0 : Generate.M unit) (c : Generate.M string) P,
             (c0 = Generate.ret tt \/ exists lv msg, c0 = Generate.log lv msg) ->
             SpecX.adds P c -> SpecX.adds P (Generate.bind c0 (fun _ => c))) as Hnote.
  { intros c0 c P [-> | (lv & msg & ->)] H; [apply adds_skip | apply adds_log]; exact H. }
  apply Hnote.
  { destruct (Generate.highResolution (Generator.modelName this));
      [right; eexists _, _; reflexivity |].
    destruct (negb (String.eqb imageSize "1K"));
      [right; eexists _, _; reflexivity | left; reflexivity]. }
  apply adds_called, adds_answer.
  - intros e _. apply wrote_nothing.
  - intros response _.
    destruct (Generate.candidates response) as [[|first others]|];
      try (apply adds_throw, wrote_nothing).
    destruct (Generate.content first) as [c|]; [| apply adds_throw, wrote_nothing].
    destruct (Generate.parts c) as [[|p rest]|]; try (apply adds_throw, wrote_nothing).
    apply fromParts_wrote.
Qed.

Lemma viaGenerateImages_adds (w : Generate.world) (sep : string)
      (this : Generator.ImageGenerator) (aspectRatio imageSize enhancedPrompt : string) :
  SpecX.adds
    (fun t r =>
       (imageSize = "4K" /\ t = [] /\ exists e, r = Exn.Throw e)
       \/ (imageSize <> "4K"
           /\ exists t',
               t = Generate.GenerateImages
                     {| Generate.imagesModel := Generator.modelName this;
                        Generate.imagesPrompt := enhancedPrompt;
                        Generate.imagesAspectRatio := aspectRatio;
                        Generate.numberOfImages := 1;
                        Generate.imagesSize :=
                          if String.eqb imageSize "1K" || String.eqb imageSize "2K"
                          then Some imageSize else None |} :: t'
               /\ SpecX.wrote w sep this t' r))
    (Generate.viaGenerateImages w sep this aspectRatio imageSize enhancedPrompt).
Proof.
  unfold Generate.viaGenerateImages.
  assert (forall size,
             SpecX.adds
               (fun t r =>
                  exists t',
                    t = Generate.GenerateImages
                          {| Generate.imagesModel := Generator.modelName this;
                             Generate.imagesPrompt := enhancedPrompt;
                             Generate.imagesAspectRatio := aspectRatio;
                             Generate.numberOfImages := 1;
                             Generate.imagesSize := size |} :: t'
                    /\ SpecX.wrote w sep this t' r)
               (Generate.bind
                  (Generate.called
                     (Generate.GenerateImages
                        {| Generate.imagesModel := Generator.modelName this;
                           Generate.imagesPrompt := enhancedPrompt;
                           Generate.imagesAspectRatio := aspectRatio;
                           Generate.numberOfImages := 1;
                           Generate.imagesSize := size |}))
                  (fun _ =>
                     Generate.bind
                       (Generate.answer
                          (Generate.generateImages w
                             {| Generate.imagesModel := Generator.modelName this;
                                Generate.imagesPrompt := enhancedPrompt;
                                Generate.imagesAspectRatio := aspectRatio;
                                Generate.numberOfImages := 1;
                                Generate.imagesSize := size |}))
                       (fun response =>
                          match Generate.generatedImages response with
                          | Some (first :: _) =>
                              match Generate.image first with
                              | Some found =>
                                  if JS.truthy (Generate.imageBytes found)
                                  then
                                    Generate.bind
                                      (Generate.log Log.Info
                                         "Found image bytes in generateImages response")
                                      (fun _ =>
                                         Generate.saveBase64Image w sep this
                                           (JS.orElse (Generate.imageMimeType found)
                                              "image/png"))
                                  else Generate.throw Generate.noImageData
                              | None => Generate.throw Generate.noImageData
                              end
                          | _ => Generate.throw Generate.noImageData
                          end)))) as Hcall.
  { intros size. apply adds_called, adds_answer.
    - intros e _. apply wrote_nothing.
    - intros response _.
      destruct (Generate.generatedImages response) as [[|first others]|];
        try (apply adds_throw, wrote_nothing).
      destruct (Generate.image first) as [found|]; [| apply adds_throw, wrote_nothing].
      destruct (JS.truthy (Generate.imageBytes found));
        [| apply adds_throw, wrote_nothing].
      apply adds_log, saveBase64Image_wrote. }
  destruct (String.eqb imageSize "1K" || String.eqb imageSize "2K") eqn:E12.
  - assert (imageSize <> "4K") as Hne.
    { intros ->. discriminate. }
    intros s. destruct (Hcall (Some imageSize) s) as (tail & Hc & Hp).
    exists tail. split; [exact Hc |]. right. split; [exact Hne | exact Hp].
  - destruct (String.eqb_spec imageSize "4K") as [-> | Hne].
    + intros s. exists []. cbn. rewrite app_nil_r. split; [reflexivity |].
      left. split; [reflexivity |]. split; [reflexivity |]. eexists. reflexivity.
    + intros s. destruct (Hcall None s) as (tail & Hc & Hp).
      exists tail. split; [exact Hc |]. right. split; [exact Hne | exact Hp].
Qed.

Lemma adds_tryCatch {A : Type}
      (P : list Generate.call -> Exn.result ImageGen.thrown A -> Prop)
      (Q : list Generate.call -> Exn.result ImageGen.thrown A -> Prop)
      (c : Generate.M A) (handler : ImageGen.thrown -> Generate.M A) :
  SpecX.adds P c -> (forall e, SpecX.adds Q (handler e)) ->
  SpecX.adds
    (fun t r =>
       (exists a, r = Exn.Ok a /\ P t (Exn.Ok a))
       \/ exists e t1 t2, t = (t1 ++ t2)%list /\ P t1 (Exn.Throw e) /\ Q t2 r)
    (Generate.tryCatch c handler).
Proof.
  intros Hc Hh s. unfold Generate.tryCatch.
  destruct (Hc s) as (t1 & Hc1 & Hp1).
  destruct (c s) as [s1 [a | e]]; cbn [fst snd] in *.
  - exists t1. split; [exact Hc1 |]. left. exists a. split; [reflexivity | exact Hp1].
  - destruct (Hh e s1) as (t2 & Hc2 & Hp2).
    exists (t1 ++ t2)%list. split; [rewrite Hc2, Hc1, app_assoc; reflexivity |].
    right. exists e, t1, t2. repeat split; assumption.
Qed.

Lemma ensureImagesDir_adds {A : Type}
      (P : list Generate.call -> Exn.result ImageGen.thrown A -> Prop)
      (w : Generate.world) (this : Generator.ImageGenerator) (c : Generate.M A) :
  (forall e, Generate.mkdirFailure w = Some e -> P [] (Exn.Throw e)) ->
  (Generate.mkdirFailure w = None -> SpecX.adds P c) ->
  SpecX.adds (fun t r => exists t', t = Generate.MkDir (Generator.imagesDir this) :: t'
                                    /\ P t' r)
    (Generate.bind (Generate.ensureImagesDir w this) (fun _ => c)).
Proof.
  intros He Hc s.
  cbv [Generate.ensureImagesDir Generate.bind Generate.tryCatch Generate.called
       Generate.failing Generate.log Generate.throw Generate.ret].
  destruct (Generate.mkdirFailure w) as [e|].
  - exists [Generate.MkDir (Generator.imagesDir this)]. cbn [fst snd Generate.calls].
    split; [reflexivity |]. exists []. split; [reflexivity | exact (He e eq_refl)].
  - cbn [Generate.logged Generate.calls Generate.clockReads].
    match goal with
    | |- context [c ?s1] => destruct (Hc eq_refl s1) as (tail & Hc1 & Hp1)
    end.
    exists (Generate.MkDir (Generator.imagesDir this) :: tail). split.
    + rewrite Hc1. cbn [Generate.calls]. rewrite <- app_assoc. reflexivity.
    + exists tail. split; [reflexivity | exact Hp1].
Qed.

Lemma apiOf_app (a b : list Generate.call) :
  SpecX.apiOf (a ++ b) = (SpecX.apiOf a ++ SpecX.apiOf b)%list.
Proof. apply List.filter_app. Qed.

(** What the body of [generateImage] calls, and how it ends. *)
Lemma attempt_adds (w : Generate.world) (sep : string) (config : Config.Config)
      (this : Generator.ImageGenerator) (prompt : string) :
  let imageSize := JS.orElse (Some (Config.imageSize (Config.app config))) "1K" in
  let aspectRatio := JS.orElse (Some (Config.aspectRatio (Config.app config))) "16:9" in
  let images :=
    Generate.GenerateImages
      {| Generate.imagesModel := Generator.modelName this;
         Generate.imagesPrompt := Generate.enhance prompt;
         Generate.imagesAspectRatio := aspectRatio;
         Generate.numberOfImages := 1;
         Generate.imagesSize :=
           if String.eqb imageSize "1K" || String.eqb imageSize "2K"
           then Some imageSize else None |} in
  let content :=
    Generate.GenerateContent
      {| Generate.contentModel := Generator.modelName this;
         Generate.contents := Generate.enhance prompt;
         Generate.responseModalities := ["IMAGE"];
         Generate.contentAspectRatio := aspectRatio;
         Generate.contentSize :=
           if Generate.highResolution (Generator.modelName this)
           then Some imageSize else None |} in
  SpecX.adds
    (fun t r =>
       exists t',
         t = Generate.MkDir (Generator.imagesDir this) :: t'
         /\ ((exists e, Generate.mkdirFailure w = Some e /\ t' = [] /\ r = Exn.Throw e)
             \/ (Generate.mkdirFailure w = None
                 /\ ((imageSize = "4K"
                      /\ exists t2, t' = content :: t2 /\ SpecX.wrote w sep this t2 r)
                     \/ (imageSize <> "4K"
                         /\ exists t1,
                             SpecX.apiOf t1 = []
                             /\ ((t' = images :: t1
                                  /\ SpecX.wrote w sep this t1 r
                                  /\ exists path, r = Exn.Ok path)
                                 \/ exists t2,
                                     t' = (images :: t1 ++ content :: t2)%list
                                     /\ SpecX.wrote w sep this t2 r))))))
    (Generate.attempt w sep config this prompt).
Proof.
  intros imageSize aspectRatio images content. unfold Generate.attempt.
  fold imageSize aspectRatio.
  eapply adds_weaken; [| apply ensureImagesDir_adds].
  - intros t r H. exact H.
  - intros e He. left. exists e. repeat split. exact He.
  - intros Hmk. do 3 apply adds_log.
    eapply adds_weaken;
      [| apply adds_tryCatch;
         [apply viaGenerateImages_adds
         | intros e; apply viaGenerateContent_adds]].
    intros t r H. right. split; [exact Hmk |].
    destruct H as [(path & -> & [(H4 & _ & e & He) | (Hne & t1 & -> & Hw)])
                  | (e & t1 & t2 & -> & [(H4 & -> & _) | (Hne & t1' & -> & Hw1)]
                     & (t2' & -> & Hw2))].
    + discriminate.
    + right. split; [exact Hne |]. exists t1. split; [apply Hw |].
      left. split; [reflexivity |]. split; [exact Hw |]. exists path. reflexivity.
    + left. split; [exact H4 |]. exists t2'. split; [reflexivity | exact Hw2].
    + right. split; [exact Hne |]. exists t1'. split; [apply Hw1 |].
      right. exists t2'. split; [reflexivity | exact Hw2].
Qed.

Lemma generateImage_run (w : Generate.world) (sep : string) (config : Config.Config)
      (this : Generator.ImageGenerator) (prompt : string) (s : Generate.state) :
  let body := Generate.attempt w sep config this prompt s in
  let run := Generate.generateImage w sep config this prompt s in
  Generate.calls (fst run) = Generate.calls (fst body)
  /\ match snd body with
     | Exn.Ok path => snd run = Exn.Ok path
     | Exn.Throw e =>
         snd run = Exn.Throw (ImageGen.rethrow (Generator.modelName this) e)
         /\ Generate.logged (fst run)
            = (Generate.logged (fst body)
               ++ [(Log.Error, "Failed to generate image")])%list
     end.
Proof.
  intros body run. subst body run. unfold Generate.generateImage.
  destruct (Generate.attempt w sep config this prompt s) as [s' [path | e]];
    cbn; repeat split.
Qed.

(** X14.  The requests [generateImage] sends to the API.  After the
    creation of the images directory, which ends the function when it
    fails: for the size 4K one request, to [generateContent]; for any
    other size a request to [generateImages] and, unless that has given
    an image that could be saved, one request to [generateContent] after
    it.  No request is sent twice; both carry the generator's model, the
    enhanced prompt and the aspect ratio, and [generateContent] carries
    the size only for a gemini-3 pro image model. *)
Theorem generateImage_requests :
  forall (w : Generate.world) (sep : string) (config : Config.Config)
         (this : Generator.ImageGenerator) (prompt : string) (s : Generate.state),
    let imageSize := JS.orElse (Some (Config.imageSize (Config.app config))) "1K" in
    let aspectRatio := JS.orElse (Some (Config.aspectRatio (Config.app config))) "16:9" in
    let images :=
      Generate.GenerateImages
        {| Generate.imagesModel := Generator.modelName this;
           Generate.imagesPrompt := Generate.enhance prompt;
           Generate.imagesAspectRatio := aspectRatio;
           Generate.numberOfImages := 1;
           Generate.imagesSize :=
             if String.eqb imageSize "1K" || String.eqb imageSize "2K"
             then Some imageSize else None |} in
    let content :=
      Generate.GenerateContent
        {| Generate.contentModel := Generator.modelName this;
           Generate.contents := Generate.enhance prompt;
           Generate.responseModalities := ["IMAGE"];
           Generate.contentAspectRatio := aspectRatio;
           Generate.contentSize :=
             if Generate.highResolution (Generator.modelName this)
             then Some imageSize else None |} in
    let run := Generate.generateImage w sep config this prompt s in
    exists tail,
      Generate.calls (fst run)
      = (Generate.calls s ++ Generate.MkDir (Generator.imagesDir this) :: tail)%list
      /\ match Generate.mkdirFailure w with
         | Some _ => tail = []
         | None =>
             if String.eqb imageSize "4K" then SpecX.apiOf tail = [content]
             else SpecX.apiOf tail = [images; content]
                  \/ (SpecX.apiOf tail = [images] /\ exists path, snd run = Exn.Ok path)
         end.
Proof.
  intros w sep config this prompt s imageSize aspectRatio images content run.
  destruct (generateImage_run w sep config this prompt s) as [Hcalls Hres].
  destruct (attempt_adds w sep config this prompt s) as (t & Hc & t' & -> & Hcases).
  fold imageSize aspectRatio in Hcases. fold images content in Hcases.
  exists t'. fold run in Hcalls. split; [rewrite Hcalls; exact Hc |].
  destruct Hcases as [(e & -> & -> & _) | (-> & Hcases)]; [reflexivity |].
  destruct Hcases as [(H4 & t2 & -> & Ha & _) | (Hne & t1 & Ha1 & Hcases)].
  - rewrite H4. cbn [String.eqb Ascii.eqb Bool.eqb].
    change (content :: t2) with ([content] ++ t2)%list. rewrite apiOf_app, Ha. reflexivity.
  - apply String.eqb_neq in Hne. rewrite Hne.
    destruct Hcases as [(-> & _ & path & Hr) | (t2 & -> & Ha2 & _)].
    + right. split.
      * change (images :: t1) with ([images] ++ t1)%list. rewrite apiOf_app, Ha1. reflexivity.
      * exists path. rewrite Hr in Hres. exact Hres.
    + left. change (images :: t1 ++ content :: t2)%list
        with ([images] ++ t1 ++ [content] ++ t2)%list.
      rewrite !apiOf_app, Ha1, Ha2. reflexivity.
Qed.

(** X15.  How [generateImage] ends.  A path it gives is that of a file
    it has written in this call, in the images directory, named after
    the clock with the extension jpg, png or webp; and what it throws
    has gone through the classification of its [catch], after the
    failure has been logged. *)
Theorem generateImage_outcome :
  forall (w : Generate.world) (sep : string) (config : Config.Config)
         (this : Generator.ImageGenerator) (prompt : string) (s : Generate.state),
    let run := Generate.generateImage w sep config this prompt s in
    (forall path,
        snd run = Exn.Ok path ->
        exists tail,
          Generate.calls (fst run) = (Generate.calls s ++ tail)%list
          /\ In (Generate.WriteFile path) tail
          /\ SpecX.written w sep this path)
    /\ (forall e,
           snd run = Exn.Throw e ->
           exists cause l,
             e = ImageGen.rethrow (Generator.modelName this) cause
             /\ Generate.logged (fst run)
                = (l ++ [(Log.Error, "Failed to generate image")])%list).
Proof.
  intros w sep config this prompt s run.
  destruct (generateImage_run w sep config this prompt s) as [Hcalls Hres].
  fold run in Hcalls, Hres.
  destruct (attempt_adds w sep config this prompt s) as (t & Hc & t' & -> & Hcases).
  split.
  - intros path Hr.
    destruct (snd (Generate.attempt w sep config this prompt s)) as [p | e] eqn:Hb.
    2: { destruct Hres as [Hres _]. rewrite Hres in Hr. discriminate. }
    rewrite Hres in Hr. injection Hr as ->.
    exists (Generate.MkDir (Generator.imagesDir this) :: t').
    split; [rewrite Hcalls; exact Hc |].
    destruct Hcases as [(e & _ & _ & He) | (_ & Hcases)]; [discriminate |].
    destruct Hcases as [(_ & t2 & -> & _ & Hp) | (_ & t1 & _ & Hcases)].
    + destruct (Hp path eq_refl) as [Hin Hw]. split; [right; right; exact Hin | exact Hw].
    + destruct Hcases as [(-> & (_ & Hp) & _) | (t2 & -> & _ & Hp)].
      * destruct (Hp path eq_refl) as [Hin Hw].
        split; [right; right; exact Hin | exact Hw].
      * destruct (Hp path eq_refl) as [Hin Hw]. split; [| exact Hw].
        right. right. apply in_or_app. right. right. exact Hin.
  - intros e Hr.
    destruct (snd (Generate.attempt w sep config this prompt s)) as [p | cause] eqn:Hb.
    { rewrite Hres in Hr. discriminate. }
    destruct Hres as [Hres Hlog]. rewrite Hres in Hr. injection Hr as <-.
    eexists _, _. split; [reflexivity | exact Hlog].
Qed.

(** ** Setting the wallpaper *)

Lemma viaRegistry_log (h : Wallpaper.host) (wallpaperPath : string)
      (l : list Log.entry) :
  Wallpaper.viaRegistry h wallpaperPath l
  = (l ++ [(Log.Info, "Wallpaper set via registry + SystemParametersInfo successfully")],
     Exn.Ok tt)%list
  \/ exists e, Wallpaper.viaRegistry h wallpaperPath l = (l, Exn.Throw e).
Proof.
  unfold Wallpaper.viaRegistry.
  cbv [Exn.bind Wallpaper.failing Exn.ret Exn.throw Exn.log].
  destruct (Wallpaper.execFailure h (Wallpaper.RegWallpaper wallpaperPath));
    [right; eexists; reflexivity |].
  destruct (Wallpaper.execFailure h Wallpaper.RegWallpaperStyle);
    [right; eexists; reflexivity |].
  destruct (Wallpaper.execFailure h Wallpaper.RegTileWallpaper);
    [right; eexists; reflexivity |].
  destruct (Wallpaper.writeFailure h); [right; eexists; reflexivity |].
  destruct (Wallpaper.execFailure h (Wallpaper.RunScript _));
    [right; eexists; reflexivity |].
  left. reflexivity.
Qed.

(** X16.  On Windows, once the image is there and has been copied,
    [setWallpaper] ends without an exception whatever becomes of the
    registry commands, of the script and of the wallpaper package, and
    [runOnce] logs that the update has completed successfully: a
    wallpaper that no method could set is not reported. *)
Theorem runOnce_on_windows_reports_success :
  forall (h : Wallpaper.host) (imagePath : string) (l : list Log.entry),
    Wallpaper.win32 h = true ->
    Wallpaper.existsSync h (Wallpaper.resolve h imagePath) = true ->
    Wallpaper.mkdirFailure h = None ->
    Wallpaper.copyFailure h = None ->
    (exists l', Wallpaper.setWallpaper h imagePath l = (l', Exn.Ok tt))
    /\ exists l',
         Wallpaper.runOnce h (Exn.Ok imagePath) l
         = ((l' ++ [(Log.Info, "Wallpaper update completed successfully")])%list,
            Exn.Ok tt).
Proof.
  intros h imagePath l Hwin Hex Hmk Hcp.
  assert (forall l0, exists l', Wallpaper.setWallpaper h imagePath l0 = (l', Exn.Ok tt))
    as Hset.
  { intros l0. unfold Wallpaper.setWallpaper. rewrite Hex, Hmk, Hcp, Hwin.
    cbv [Exn.tryCatch Exn.bind Wallpaper.failing Exn.ret Exn.throw Exn.log negb].
    match goal with
    | |- context [Wallpaper.viaRegistry h ?p ?l1] =>
        destruct (viaRegistry_log h p l1) as [-> | (e & ->)]
    end; [eexists; reflexivity |].
    unfold Wallpaper.viaPackage.
    cbv [Exn.tryCatch Exn.bind Wallpaper.failing Exn.ret Exn.throw Exn.log].
    destruct (Wallpaper.packageFailure h); eexists; reflexivity. }
  split; [apply Hset |].
  unfold Wallpaper.runOnce.
  cbv [Exn.tryCatch Exn.bind Exn.log].
  destruct (Hset (l ++ [(Log.Info, "Starting wallpaper update process")])%list)
    as (l' & ->).
  exists l'. reflexivity.
Qed.

Lemma runOnce_on_windows_reports_success_witness :
  (exists l', Wallpaper.setWallpaper SpecX.failingHost "C:\img.png" [] = (l', Exn.Ok tt))
  /\ exists l',
       Wallpaper.runOnce SpecX.failingHost (Exn.Ok "C:\img.png") []
       = ((l' ++ [(Log.Info, "Wallpaper update completed successfully")])%list,
          Exn.Ok tt).
Proof.
  apply (runOnce_on_windows_reports_success SpecX.failingHost "C:\img.png" []);
    reflexivity.
Defined.

(** X17.  The path that [setWallpaper] writes between single quotes in
    its PowerShell script is read back by PowerShell as the path
    itself, whatever single quotes it has. *)
Theorem wallpaper_path_quoted :
  forall path : string,
    SpecX.singleQuoted (Wallpaper.escapePath path) = Some path.
Proof. intros path. apply singleQuoted_doubled. Qed.

(** ** The file written by the setup *)

Lemma trimEnd_idempotent (s : string) : JS.trimEnd (JS.trimEnd s) = JS.trimEnd s.
Proof.
  induction s as [|c s IH]; [reflexivity |].
  cbn [JS.trimEnd]. destruct (JS.trimEnd s) as [|d r] eqn:E.
  - destruct (JS.isWhiteSpace c) eqn:Ew; [reflexivity |].
    cbn [JS.trimEnd]. rewrite Ew. reflexivity.
  - change (JS.trimEnd (String c (String d r)))
      with (match JS.trimEnd (String d r) with
            | EmptyString =>
                if JS.isWhiteSpace c then EmptyString else String c EmptyString
            | String a b => String c (String a b)
            end).
    rewrite IH. reflexivity.
Qed.

Lemma trimStart_head (s : string) :
  JS.trimStart s = ""
  \/ exists c r, JS.trimStart s = String c r /\ JS.isWhiteSpace c = false.
Proof.
  induction s as [|c s IH]; [left; reflexivity |].
  cbn [JS.trimStart]. destruct (JS.isWhiteSpace c) eqn:E; [exact IH |].
  right. exists c, s. split; [reflexivity | exact E].
Qed.

Lemma trim_idempotent (s : string) : JS.trim (JS.trim s) = JS.trim s.
Proof.
  unfold JS.trim. destruct (trimStart_head s) as [-> | (c & r & -> & Hc)]; [reflexivity |].
  assert (JS.trimStart (JS.trimEnd (String c r)) = JS.trimEnd (String c r)) as ->.
  { cbn [JS.trimEnd]. destruct (JS.trimEnd r); rewrite ?Hc; cbn [JS.trimStart];
      rewrite Hc; reflexivity. }
  apply trimEnd_idempotent.
Qed.

Lemma noLineTerminator_trim (s : string) :
  EnvFile.noLineTerminator s = true -> EnvFile.noLineTerminator (JS.trim s) = true.
Proof.
  assert (forall t, EnvFile.noLineTerminator t = true ->
                    EnvFile.noLineTerminator (JS.trimStart t) = true) as Hstart.
  { induction t as [|c t IH]; [reflexivity |]. intros H.
    cbn [JS.trimStart]. destruct (JS.isWhiteSpace c); [| exact H].
    cbn [EnvFile.noLineTerminator] in H. apply andb_true_iff in H. apply IH, H. }
  assert (forall t, EnvFile.noLineTerminator t = true ->
                    EnvFile.noLineTerminator (JS.trimEnd t) = true) as Hend.
  { induction t as [|c t IH]; [reflexivity |]. intros H.
    cbn [EnvFile.noLineTerminator] in H. apply andb_true_iff in H. destruct H as [Hc Ht].
    cbn [JS.trimEnd]. specialize (IH Ht). destruct (JS.trimEnd t) as [|d r].
    - destruct (JS.isWhiteSpace c); [reflexivity |].
      cbn [EnvFile.noLineTerminator]. rewrite Hc. reflexivity.
    - cbn [EnvFile.noLineTerminator] in *. rewrite Hc, IH. reflexivity. }
  intros H. unfold JS.trim. apply Hend, Hstart, H.
Qed.

Lemma noLineTerminator_orElse (s d : string) :
  EnvFile.noLineTerminator s = true -> EnvFile.noLineTerminator d = true ->
  EnvFile.noLineTerminator (JS.orElse (Some s) d) = true.
Proof. intros Hs Hd. cbn [JS.orElse]. destruct (String.eqb s ""); assumption. Qed.

(** A line [KEY=value] as it is read by [loadFreshConfig] and by the
    [load-config] handler. *)
Lemma readLine_assignment (acc : EnvFile.record) (k v : string) :
  Spec.keyOk k = true -> EnvFile.noLineTerminator v = true ->
  EnvFile.readLine acc (k ++ String "=" v)
  = EnvFile.set k (EnvFile.unquote (JS.trim v)) acc
  /\ EnvFile.readLineRaw acc (k ++ String "=" v) = EnvFile.set k (JS.trim v) acc.
Proof.
  intros Hk Hv. unfold Spec.keyOk in Hk.
  apply andb_true_iff in Hk. destruct Hk as [Hk Htrim].
  apply andb_true_iff in Hk. destruct Hk as [Hne Hchars].
  apply negb_true_iff in Hne. apply String.eqb_eq in Htrim.
  unfold EnvFile.readLine, EnvFile.readLineRaw.
  rewrite (keyAndRest_marker k v Hchars), Hne, Hv, Htrim. split; reflexivity.
Qed.

Lemma setup_lines (a : Setup.answers) :
  EnvFile.noLineTerminator (Setup.apiKey a) = true ->
  EnvFile.noLineTerminator (Setup.apiUrl a) = true ->
  EnvFile.noLineTerminator (Setup.imagePrompt a) = true ->
  EnvFile.noLineTerminator (Setup.scheduleTime a) = true ->
  EnvFile.noLineTerminator (Setup.timezone a) = true ->
  JS.split EnvFile.LF (Setup.envContent a) = Setup.envLines a.
Proof.
  intros H1 H2 H3 H4 H5. unfold Setup.envContent.
  apply split_join; [discriminate |].
  assert (forall k v, Spec.allChars (Spec.isNot EnvFile.LF) k = true ->
                      EnvFile.noLineTerminator v = true ->
                      Spec.allChars (Spec.isNot EnvFile.LF) (k ++ v) = true) as Hline.
  { intros k v Hk Hv. rewrite allChars_app, Hk.
    apply allChars_noLineTerminator, Hv. }
  unfold Setup.envLines.
  repeat (apply List.Forall_cons; [first [reflexivity | apply Hline; [reflexivity |]] |]);
    try apply List.Forall_nil.
  - apply noLineTerminator_trim, H1.
  - apply noLineTerminator_trim, noLineTerminator_orElse; [exact H2 | reflexivity].
  - apply noLineTerminator_orElse; [exact H3 | reflexivity].
  - apply noLineTerminator_orElse; [exact H4 | reflexivity].
  - apply noLineTerminator_orElse; [exact H5 | reflexivity].
Qed.

Lemma correctConfig_deprecated (c : EnvFile.record) (u : string) :
  EnvFile.get "GOOGLE_API_URL" c = Some u ->
  JS.truthy (Some u) = true -> EnvFile.isOldUrl u = true ->
  EnvFile.get "GOOGLE_API_URL" (EnvFile.correctConfig c) = Some Config.correctUrl.
Proof.
  intros Hget Ht Hold. unfold EnvFile.correctConfig. rewrite Hget, Ht.
  assert (JS.orElse (Some u) "" = u) as ->.
  { cbn [JS.orElse]. cbn [JS.truthy] in Ht. apply negb_true_iff in Ht.
    rewrite Ht. reflexivity. }
  rewrite Hold. cbn [andb]. rewrite get_set_same by discriminate.
  replace (JS.truthy (Some EnvFile.correctUrl)) with true by (vm_compute; reflexivity).
  cbn [negb]. apply get_set_same; discriminate.
Qed.

(** X18.  The file that [setup] writes is read back by the application:
    [loadFreshConfig] gives the key that was typed, without the white
    space around it, and each other answer or its default, with the
    white space around them and one pair of quotes around them taken
    off; [hasApiKey] finds the key in development unless it is the
    placeholder; and when the question of the endpoint was left
    unanswered, the [load-config] handler gives the current endpoint in
    place of the default that [setup] has written. *)
Theorem setup_file_is_read_back :
  forall (envExists : bool) (a : Setup.answers),
    EnvFile.noLineTerminator (Setup.apiKey a) = true ->
    EnvFile.noLineTerminator (Setup.apiUrl a) = true ->
    EnvFile.noLineTerminator (Setup.imagePrompt a) = true ->
    EnvFile.noLineTerminator (Setup.scheduleTime a) = true ->
    EnvFile.noLineTerminator (Setup.timezone a) = true ->
    (envExists = false \/ JS.toLowerCase (Setup.overwrite a) = "y") ->
    JS.trim (Setup.apiKey a) <> "" ->
    exists content,
      Setup.setup envExists a false = Setup.Written content
      /\ (let read := EnvFile.loadFreshConfig [Some content] in
          let given value := Some (EnvFile.unquote (JS.trim value)) in
          EnvFile.get "GOOGLE_API_KEY" read = given (Setup.apiKey a)
          /\ EnvFile.get "GOOGLE_API_URL" read
             = given (JS.orElse (Some (Setup.apiUrl a)) Setup.defaultApiUrl)
          /\ EnvFile.get "IMAGE_PROMPT" read
             = given (JS.orElse (Some (Setup.imagePrompt a)) Config.defaultPrompt)
          /\ EnvFile.get "SCHEDULE_TIME" read
             = given (JS.orElse (Some (Setup.scheduleTime a)) "09:00")
          /\ EnvFile.get "TIMEZONE" read
             = given (JS.orElse (Some (Setup.timezone a)) "America/New_York"))
      /\ (JS.trim (Setup.apiKey a) <> ApiKey.placeholder ->
          ApiKey.hasApiKey true ApiKey.Absent (ApiKey.Readable content) = true)
      /\ (Setup.apiUrl a = "" ->
          EnvFile.get "GOOGLE_API_URL" (EnvFile.loadConfig content)
          = Some Config.correctUrl).
Proof.
  intros envExists a H1 H2 H3 H4 H5 Hover Hkey.
  exists (Setup.envContent a).
  pose proof (setup_lines a H1 H2 H3 H4 H5) as Hlines.
  assert (EnvFile.noLineTerminator (JS.trim (Setup.apiKey a)) = true) as N1
    by apply noLineTerminator_trim, H1.
  assert (EnvFile.noLineTerminator
            (JS.trim (JS.orElse (Some (Setup.apiUrl a)) Setup.defaultApiUrl)) = true) as N2
    by (apply noLineTerminator_trim, noLineTerminator_orElse; [exact H2 | reflexivity]).
  assert (EnvFile.noLineTerminator
            (JS.orElse (Some (Setup.imagePrompt a)) Config.defaultPrompt) = true) as N3
    by (apply noLineTerminator_orElse; [exact H3 | reflexivity]).
  assert (EnvFile.noLineTerminator
            (JS.orElse (Some (Setup.scheduleTime a)) "09:00") = true) as N4
    by (apply noLineTerminator_orElse; [exact H4 | reflexivity]).
  assert (EnvFile.noLineTerminator
            (JS.orElse (Some (Setup.timezone a)) "America/New_York") = true) as N5
    by (apply noLineTerminator_orElse; [exact H5 | reflexivity]).
  split; [| split; [| split]].
  - unfold Setup.setup.
    assert (envExists && negb (String.eqb (JS.toLowerCase (Setup.overwrite a)) "y") = false)
      as ->.
    { destruct Hover as [-> | ->]; [reflexivity | apply andb_false_r]. }
    assert (Setup.apiKey a <> "") as Hne by (intros E; rewrite E in Hkey; apply Hkey; reflexivity).
    cbn [JS.truthy]. apply String.eqb_neq in Hne, Hkey. rewrite Hne, Hkey. reflexivity.
  - assert (EnvFile.loadFreshConfig [Some (Setup.envContent a)]
            = fold_left EnvFile.readLine (Setup.envLines a) []) as ->.
    { unfold EnvFile.loadFreshConfig. cbn [EnvFile.loadFrom].
      unfold EnvFile.readContent. rewrite Hlines.
      destruct (fold_left EnvFile.readLine (Setup.envLines a) []); reflexivity. }
    unfold Setup.envLines. cbn [fold_left].
    change ("GOOGLE_API_KEY=" ++ ?v)%string with ("GOOGLE_API_KEY" ++ String "=" v)%string.
    change ("GOOGLE_API_URL=" ++ ?v)%string with ("GOOGLE_API_URL" ++ String "=" v)%string.
    change ("IMAGE_PROMPT=" ++ ?v)%string with ("IMAGE_PROMPT" ++ String "=" v)%string.
    change ("SCHEDULE_TIME=" ++ ?v)%string with ("SCHEDULE_TIME" ++ String "=" v)%string.
    change ("TIMEZONE=" ++ ?v)%string with ("TIMEZONE" ++ String "=" v)%string.
    change (EnvFile.readLine [] "# Google API Configuration") with (@nil (string * string)).
    change (EnvFile.readLine []
              "# Get your API key from: https://aistudio.google.com/ (or your Google API provider)")
      with (@nil (string * string)).
    rewrite (proj1 (readLine_assignment [] "GOOGLE_API_KEY" _ eq_refl N1)).
    rewrite (proj1 (readLine_assignment _ "GOOGLE_API_URL" _ eq_refl N2)).
    match goal with
    | |- context [EnvFile.readLine ?acc ""] =>
        change (EnvFile.readLine acc "") with acc
    end.
    match goal with
    | |- context [EnvFile.readLine ?acc "# Application Configuration"] =>
        change (EnvFile.readLine acc "# Application Configuration") with acc
    end.
    rewrite (proj1 (readLine_assignment _ "IMAGE_PROMPT" _ eq_refl N3)).
    match goal with
    | |- context [EnvFile.readLine ?acc "IMAGES_DIR=./images"] =>
        replace (EnvFile.readLine acc "IMAGES_DIR=./images")
          with (EnvFile.set "IMAGES_DIR" "./images" acc)
          by (symmetry; apply (readLine_assignment acc "IMAGES_DIR" "./images" eq_refl eq_refl))
    end.
    match goal with
    | |- context [EnvFile.readLine ?acc "LOG_LEVEL=info"] =>
        replace (EnvFile.readLine acc "LOG_LEVEL=info")
          with (EnvFile.set "LOG_LEVEL" "info" acc)
          by (symmetry; apply (readLine_assignment acc "LOG_LEVEL" "info" eq_refl eq_refl))
    end.
    match goal with
    | |- context [EnvFile.readLine ?acc ""] =>
        change (EnvFile.readLine acc "") with acc
    end.
    match goal with
    | |- context [EnvFile.readLine ?acc
                    "# Scheduling Configuration (if using built-in scheduler)"] =>
        change (EnvFile.readLine acc
                  "# Scheduling Configuration (if using built-in scheduler)") with acc
    end.
    rewrite (proj1 (readLine_assignment _ "SCHEDULE_TIME" _ eq_refl N4)).
    rewrite (proj1 (readLine_assignment _ "TIMEZONE" _ eq_refl N5)).
    match goal with
    | |- context [EnvFile.readLine ?acc ""] =>
        change (EnvFile.readLine acc "") with acc
    end.
    cbv zeta. rewrite !trim_idempotent.
    repeat split;
      repeat (rewrite get_set_other by discriminate); apply get_set_same; discriminate.
  - intros Hph. unfold ApiKey.hasApiKey.
    assert (ApiKey.hasKey (Setup.envContent a) = true) as ->; [| reflexivity].
    assert (In (ApiKey.marker ++ JS.trim (Setup.apiKey a))%string (Setup.envLines a)) as Hin.
    { right. right. left. reflexivity. }
    unfold ApiKey.hasKey. apply andb_true_iff. split.
    + unfold Setup.envContent. apply (includes_join _ _ _ _ Hin).
      apply includes_app_l. reflexivity.
    + rewrite Hlines. apply existsb_exists. eexists. split; [exact Hin |].
      unfold ApiKey.configured, ApiKey.keyLine. rewrite startsWith_prefix.
      change 15%nat with (String.length ApiKey.marker). rewrite dropChars_prefix.
      rewrite (isEmpty_false _ Hkey), N1. cbn [negb andb].
      rewrite trim_idempotent, (isEmpty_false _ Hkey).
      apply String.eqb_neq in Hph. rewrite Hph. reflexivity.
  - intros Hurl. unfold EnvFile.loadConfig.
    assert (JS.isEmpty (Setup.envContent a) = false) as ->.
    { unfold Setup.envContent, Setup.envLines. reflexivity. }
    apply (correctConfig_deprecated _ Setup.defaultApiUrl); [| reflexivity | reflexivity].
    rewrite Hlines. unfold Setup.envLines. rewrite Hurl. cbn [fold_left].
    change (JS.orElse (Some "") Setup.defaultApiUrl) with Setup.defaultApiUrl.
    change ("GOOGLE_API_KEY=" ++ ?v)%string with ("GOOGLE_API_KEY" ++ String "=" v)%string.
    change ("IMAGE_PROMPT=" ++ ?v)%string with ("IMAGE_PROMPT" ++ String "=" v)%string.
    change ("SCHEDULE_TIME=" ++ ?v)%string with ("SCHEDULE_TIME" ++ String "=" v)%string.
    change ("TIMEZONE=" ++ ?v)%string with ("TIMEZONE" ++ String "=" v)%string.
    change (EnvFile.readLineRaw [] "# Google API Configuration")
      with (@nil (string * string)).
    change (EnvFile.readLineRaw []
              "# Get your API key from: https://aistudio.google.com/ (or your Google API provider)")
      with (@nil (string * string)).
    rewrite (proj2 (readLine_assignment [] "GOOGLE_API_KEY" _ eq_refl N1)).
    match goal with
    | |- context [EnvFile.readLineRaw ?acc ("GOOGLE_API_URL=" ++ JS.trim Setup.defaultApiUrl)] =>
        replace (EnvFile.readLineRaw acc ("GOOGLE_API_URL=" ++ JS.trim Setup.defaultApiUrl))
          with (EnvFile.set "GOOGLE_API_URL" Setup.defaultApiUrl acc)
          by (symmetry;
              apply (readLine_assignment acc "GOOGLE_API_URL" Setup.defaultApiUrl
                       eq_refl eq_refl))
    end.
    match goal with
    | |- context [EnvFile.readLineRaw ?acc ""] =>
        change (EnvFile.readLineRaw acc "") with acc
    end.
    match goal with
    | |- context [EnvFile.readLineRaw ?acc "# Application Configuration"] =>
        change (EnvFile.readLineRaw acc "# Application Configuration") with acc
    end.
    rewrite (proj2 (readLine_assignment _ "IMAGE_PROMPT" _ eq_refl N3)).
    match goal with
    | |- context [EnvFile.readLineRaw ?acc "IMAGES_DIR=./images"] =>
        replace (EnvFile.readLineRaw acc "IMAGES_DIR=./images")
          with (EnvFile.set "IMAGES_DIR" "./images" acc)
          by (symmetry; apply (readLine_assignment acc "IMAGES_DIR" "./images" eq_refl eq_refl))
    end.
    match goal with
    | |- context [EnvFile.readLineRaw ?acc "LOG_LEVEL=info"] =>
        replace (EnvFile.readLineRaw acc "LOG_LEVEL=info")
          with (EnvFile.set "LOG_LEVEL" "info" acc)
          by (symmetry; apply (readLine_assignment acc "LOG_LEVEL" "info" eq_refl eq_refl))
    end.
    match goal with
    | |- context [EnvFile.readLineRaw ?acc ""] =>
        change (EnvFile.readLineRaw acc "") with acc
    end.
    match goal with
    | |- context [EnvFile.readLineRaw ?acc
                    "# Scheduling Configuration (if using built-in scheduler)"] =>
        change (EnvFile.readLineRaw acc
                  "# Scheduling Configuration (if using built-in scheduler)") with acc
    end.
    rewrite (proj2 (readLine_assignment _ "SCHEDULE_TIME" _ eq_refl N4)).
    rewrite (proj2 (readLine_assignment _ "TIMEZONE" _ eq_refl N5)).
    match goal with
    | |- context [EnvFile.readLineRaw ?acc ""] =>
        change (EnvFile.readLineRaw acc "") with acc
    end.
    repeat (rewrite get_set_other by discriminate). apply get_set_same; discriminate.
Qed.

Lemma setup_file_is_read_back_witness :
  exists content,
    Setup.setup false SpecX.typed false = Setup.Written content
    /\ EnvFile.get "GOOGLE_API_KEY" (EnvFile.loadFreshConfig [Some content])
       = Some "AIza-key"
    /\ EnvFile.get "GOOGLE_API_URL" (EnvFile.loadConfig content)
       = Some Config.correctUrl.
Proof.
  destruct (setup_file_is_read_back false SpecX.typed)
    as (content & Hw & (Hk & _) & _ & Hu).
  - reflexivity.
  - reflexivity.
  - reflexivity.
  - reflexivity.
  - reflexivity.
  - left. reflexivity.
  - discriminate.
  - exists content. split; [exact Hw |]. split; [exact Hk | exact (Hu eq_refl)].
Defined.

(** ** Starting the schedule twice *)

Lemma startDailySchedule_arms (cfg : Config.Config) (w : Sched.world) (h m : Z) :
  Config.time (Config.schedule cfg) = Spec.hhmm h m ->
  (0 <= h < 24)%Z -> (0 <= m < 60)%Z ->
  (Z.abs (Sched.localTZA w) <= Date.msPerDay)%Z ->
  (Z.abs (Sched.clock w) <= 8000000000000000)%Z ->
  let target := Spec.targetInZone (Sched.localTZA w) h m (Sched.clock w) in
  exists w1,
    Sched.startDailySchedule cfg w = Exn.Ok w1
    /\ Sched.timers w1
       = (Sched.timers w
          ++ [{| Sched.handle := Sched.nextHandle w; Sched.kind := Sched.Timeout;
                 Sched.after := (target - Sched.clock w)%Z; Sched.due := target;
                 Sched.action := Sched.FirstRun |}])%list
    /\ Sched.clock w1 = Sched.clock w
    /\ Sched.localTZA w1 = Sched.localTZA w
    /\ Sched.nextHandle w1 = S (Sched.nextHandle w)
    /\ Sched.intervalId w1 = Sched.intervalId w
    /\ (Sched.clock w < target)%Z.
Proof.
  intros Htime Hh Hm Hz Hnow target.
  destruct (msUntilNext_local h m (Sched.localTZA w) (Sched.clock w) Hh Hm Hz Hnow)
    as (Hms & Hdelay & Htd).
  pose proof (scheduledTime_local h m (Sched.localTZA w) (Sched.clock w) Hh Hm Hz Hnow)
    as Hst.
  fold target in Hms, Hdelay, Htd, Hst.
  rewrite startDailySchedule_eq. rewrite Htime.
  cbn [Sched.logInfo Sched.clock Sched.localTZA]. rewrite Hst, Hms.
  cbn [Sched.moreThanAnHour]. eexists. split; [reflexivity |].
  unfold Sched.arm. cbn [fst Sched.timers Sched.clock Sched.nextHandle].
  rewrite Htd.
  destruct (3600000 <? target - Sched.clock w)%Z;
    cbn [Sched.runOnce Sched.logInfo Sched.timers Sched.clock Sched.nextHandle
         Sched.localTZA Sched.intervalId];
    (split; [do 3 f_equal; lia | repeat split; lia]).
Qed.

Lemma fireNext_first_run (w : Sched.world) (t : Sched.timer) :
  Sched.earliest (Sched.timers w) = Some t ->
  Sched.kind t = Sched.Timeout -> Sched.action t = Sched.FirstRun ->
  (Sched.clock w <= Sched.due t)%Z ->
  exists w',
    Sched.fireNext w = Some w'
    /\ Sched.timers w'
       = (List.filter (fun t' => negb (Nat.eqb (Sched.handle t') (Sched.handle t)))
                      (Sched.timers w)
          ++ [{| Sched.handle := Sched.nextHandle w; Sched.kind := Sched.Interval;
                 Sched.after := Sched.dailyInterval;
                 Sched.due := (Sched.due t + Sched.dailyInterval)%Z;
                 Sched.action := Sched.DailyRun |}])%list
    /\ Sched.clock w' = Sched.due t
    /\ Sched.runs w' = (Sched.runs w ++ [Sched.due t])%list
    /\ Sched.intervalId w' = Some (Sched.nextHandle w)
    /\ Sched.nextHandle w' = S (Sched.nextHandle w).
Proof.
  intros He Hk Ha Hc. unfold Sched.fireNext. rewrite He, Ha.
  eexists. split; [reflexivity |].
  unfold Sched.rearm. rewrite Hk.
  unfold Sched.runCallback, Sched.arm, Sched.runOnce, Sched.logInfo, Sched.setTimers,
    Sched.setIntervalId.
  cbn [Sched.timers Sched.clock Sched.runs Sched.intervalId Sched.localTZA
       Sched.nextHandle Sched.logged].
  rewrite Z.max_r by lia. rewrite app_nil_r.
  change (Sched.timerDelay (Some Sched.dailyInterval)) with Sched.dailyInterval.
  repeat split.
Qed.

(** X19.  [startDailySchedule] does not end a schedule that is running:
    started twice, the scheduler runs the job twice at the scheduled
    instant, and [stop] afterwards ends one of the two daily series
    only, so that the job goes on running every 24 hours. *)
Theorem second_start_is_not_stopped :
  forall (cfg : Config.Config) (w : Sched.world) (h m : Z),
    Config.time (Config.schedule cfg) = Spec.hhmm h m ->
    (0 <= h < 24)%Z -> (0 <= m < 60)%Z ->
    (Z.abs (Sched.localTZA w) <= Date.msPerDay)%Z ->
    (Z.abs (Sched.clock w) <= 8000000000000000)%Z ->
    Sched.timers w = [] ->
    let target := Spec.targetInZone (Sched.localTZA w) h m (Sched.clock w) in
    exists w1 w2 w4 w5,
      Sched.startDailySchedule cfg w = Exn.Ok w1
      /\ Sched.startDailySchedule cfg w1 = Exn.Ok w2
      /\ SpecX.fireMany 2 w2 = Some w4
      /\ Sched.runs w4 = (Sched.runs w2 ++ [target; target])%list
      /\ Sched.intervalId (Sched.stop w4) = None
      /\ Sched.fireNext (Sched.stop w4) = Some w5
      /\ Sched.runs w5 = (Sched.runs w4 ++ [(target + Sched.dailyInterval)%Z])%list.
Proof.
  intros cfg w h m Htime Hh Hm Hz Hnow Hts target.
  destruct (startDailySchedule_arms cfg w h m Htime Hh Hm Hz Hnow)
    as (w1 & Hs1 & Ht1 & Hc1 & Hz1 & Hn1 & _ & Hlt).
  fold target in Ht1, Hlt. rewrite Hts in Ht1. cbn [app] in Ht1.
  assert (Z.abs (Sched.localTZA w1) <= Date.msPerDay)%Z as Hz' by (rewrite Hz1; exact Hz).
  assert (Z.abs (Sched.clock w1) <= 8000000000000000)%Z as Hnow' by (rewrite Hc1; exact Hnow).
  destruct (startDailySchedule_arms cfg w1 h m Htime Hh Hm Hz' Hnow')
    as (w2 & Hs2 & Ht2 & Hc2 & Hz2 & Hn2 & _ & _).
  rewrite Hz1, Hc1 in Ht2. fold target in Ht2. rewrite Ht1, Hn1 in Ht2. cbn [app] in Ht2.
  rewrite Hc1 in Hc2. rewrite Hn1 in Hn2.
  set (n := Sched.nextHandle w) in *.
  assert (forall k, Nat.eqb (S k) k = false) as Hsk.
  { intros k. apply Nat.eqb_neq. lia. }
  assert (forall k, Nat.eqb k (S k) = false) as Hks.
  { intros k. apply Nat.eqb_neq. lia. }
  (* the first timeout fires *)
  destruct (fireNext_first_run w2
              {| Sched.handle := n; Sched.kind := Sched.Timeout;
                 Sched.after := (target - Sched.clock w)%Z; Sched.due := target;
                 Sched.action := Sched.FirstRun |})
    as (w3 & Hf3 & Ht3 & Hc3 & Hr3 & Hi3 & Hn3).
  { rewrite Ht2. cbn [Sched.earliest Sched.due]. rewrite Z.ltb_irrefl. reflexivity. }
  { reflexivity. }
  { reflexivity. }
  { cbn [Sched.due]. lia. }
  rewrite Ht2 in Ht3. cbn [List.filter Sched.handle Sched.due] in Ht3, Hc3, Hr3.
  rewrite Nat.eqb_refl, Hsk in Ht3. cbn [negb app] in Ht3. rewrite Hn2 in Ht3, Hi3, Hn3.
  (* the second timeout fires *)
  destruct (fireNext_first_run w3
              {| Sched.handle := S n; Sched.kind := Sched.Timeout;
                 Sched.after := (target - Sched.clock w)%Z; Sched.due := target;
                 Sched.action := Sched.FirstRun |})
    as (w4 & Hf4 & Ht4 & Hc4 & Hr4 & Hi4 & Hn4).
  { rewrite Ht3. cbn [Sched.earliest Sched.due].
    replace (target + Sched.dailyInterval <? target)%Z with false; [reflexivity |].
    symmetry. apply Z.ltb_ge. unfold Sched.dailyInterval. lia. }
  { reflexivity. }
  { reflexivity. }
  { cbn [Sched.due]. lia. }
  rewrite Ht3 in Ht4. cbn [List.filter Sched.handle Sched.due] in Ht4, Hc4, Hr4.
  rewrite Nat.eqb_refl, Hsk in Ht4. cbn [negb app] in Ht4. rewrite Hn3 in Ht4, Hi4, Hn4.
  (* stop, and the interval that is left fires *)
  assert (Sched.timers (Sched.stop w4)
          = [{| Sched.handle := S (S n); Sched.kind := Sched.Interval;
                Sched.after := Sched.dailyInterval;
                Sched.due := (target + Sched.dailyInterval)%Z;
                Sched.action := Sched.DailyRun |}]
          /\ Sched.intervalId (Sched.stop w4) = None
          /\ Sched.clock (Sched.stop w4) = target
          /\ Sched.runs (Sched.stop w4) = Sched.runs w4) as (Hts' & Hid' & Hcs' & Hrs').
  { unfold Sched.stop. rewrite Hi4.
    cbn [Sched.logInfo Sched.setIntervalId Sched.clearInterval Sched.timers
         Sched.intervalId Sched.clock Sched.runs].
    rewrite Ht4. cbn [List.filter Sched.handle].
    rewrite Nat.eqb_refl, Hks. cbn [negb]. repeat split. exact Hc4. }
  destruct (fireNext_interval (Sched.stop w4) (S (S n)) (target + Sched.dailyInterval)%Z Hts')
    as (w5 & Hf5 & _ & _ & Hr5 & _).
  { rewrite Hcs'. unfold Sched.dailyInterval. lia. }
  exists w1, w2, w4, w5.
  split; [exact Hs1 |]. split; [exact Hs2 |].
  split; [cbn [SpecX.fireMany]; rewrite Hf3, Hf4; reflexivity |].
  split; [rewrite Hr4, Hr3, <- app_assoc; reflexivity |].
  split; [exact Hid' |]. split; [exact Hf5 |].
  rewrite Hr5, Hrs'. reflexivity.
Qed.

Lemma second_start_is_not_stopped_witness :
  exists w1 w2 w4 w5,
    Sched.startDailySchedule Spec.defaultConfig (Sched.fresh Spec.jan15_0800 0)
    = Exn.Ok w1
    /\ Sched.startDailySchedule Spec.defaultConfig w1 = Exn.Ok w2
    /\ SpecX.fireMany 2 w2 = Some w4
    /\ Sched.runs w4 = (Sched.runs w2 ++ [1705309200000; 1705309200000]%Z)%list
    /\ Sched.intervalId (Sched.stop w4) = None
    /\ Sched.fireNext (Sched.stop w4) = Some w5
    /\ Sched.runs w5 = (Sched.runs w4 ++ [1705395600000%Z])%list.
Proof.
  apply (second_start_is_not_stopped
           Spec.defaultConfig (Sched.fresh Spec.jan15_0800 0) 9 0).
  - reflexivity.
  - lia.
  - lia.
  - cbn. unfold Date.msPerDay. lia.
  - cbn. unfold Spec.jan15_0800. lia.
  - reflexivity.
Defined.

(** ** The file that [load-config] writes back *)

Lemma keyAndRest_parts (line k r : string) :
  EnvFile.keyAndRest line = Some (k, r) ->
  line = (k ++ String "=" r)%string
  /\ Spec.allChars (fun c => Spec.isNot "#" c && Spec.isNot "=" c) k = true.
Proof.
  revert k r. induction line as [|c line IH]; intros k r H; [discriminate |].
  cbn [EnvFile.keyAndRest] in H.
  destruct (Ascii.eqb c "=") eqn:Ee.
  - injection H as <- <-. apply Ascii.eqb_eq in Ee. subst c. split; reflexivity.
  - destruct (Ascii.eqb c "#") eqn:Eh; [discriminate |].
    destruct (EnvFile.keyAndRest line) as [[k' r']|]; [| discriminate].
    injection H as <- <-. destruct (IH k' r' eq_refl) as [-> Hk]. split; [reflexivity |].
    cbn [Spec.allChars]. unfold Spec.isNot at 1 2. rewrite Ee, Eh, Hk. reflexivity.
Qed.

Lemma allChars_trim (p : ascii -> bool) (s : string) :
  Spec.allChars p s = true -> Spec.allChars p (JS.trim s) = true.
Proof.
  assert (forall t, Spec.allChars p t = true ->
                    Spec.allChars p (JS.trimStart t) = true) as Hstart.
  { induction t as [|c t IH]; [reflexivity |]. intros H.
    cbn [JS.trimStart]. destruct (JS.isWhiteSpace c); [| exact H].
    cbn [Spec.allChars] in H. apply andb_true_iff in H. apply IH, H. }
  assert (forall t, Spec.allChars p t = true ->
                    Spec.allChars p (JS.trimEnd t) = true) as Hend.
  { induction t as [|c t IH]; [reflexivity |]. intros H.
    cbn [Spec.allChars] in H. apply andb_true_iff in H. destruct H as [Hc Ht].
    cbn [JS.trimEnd]. specialize (IH Ht). destruct (JS.trimEnd t) as [|d r].
    - destruct (JS.isWhiteSpace c); [reflexivity |].
      cbn [Spec.allChars]. rewrite Hc. reflexivity.
    - cbn [Spec.allChars] in *. rewrite Hc, IH. reflexivity. }
  intros H. unfold JS.trim. apply Hend, Hstart, H.
Qed.

Lemma set_rawOk (k v : string) (o : EnvFile.record) :
  SpecX.rawOk (k, v) -> Forall SpecX.rawOk o -> Forall SpecX.rawOk (EnvFile.set k v o).
Proof.
  intros Hkv Ho. induction o as [|[a b] o IH]; cbn [EnvFile.set].
  - destruct (String.eqb k "__proto__"); constructor; [exact Hkv | constructor].
  - inversion Ho as [|? ? Hab Ho']; subst.
    destruct (String.eqb a k) eqn:E.
    + apply String.eqb_eq in E. subst a. constructor; [exact Hkv | exact Ho'].
    + constructor; [exact Hab | apply IH, Ho'].
Qed.

Lemma readLineRaw_rawOk (acc : EnvFile.record) (line : string) :
  Spec.allChars (Spec.isNot EnvFile.LF) line = true ->
  Forall SpecX.rawOk acc /\ List.NoDup (map fst acc) ->
  Forall SpecX.rawOk (EnvFile.readLineRaw acc line)
  /\ List.NoDup (map fst (EnvFile.readLineRaw acc line)).
Proof.
  intros Hline [Hok Hnd]. unfold EnvFile.readLineRaw, EnvFile.matchLine.
  destruct (EnvFile.keyAndRest line) as [[k r]|] eqn:E; [| split; assumption].
  destruct (JS.isEmpty k); [split; assumption |].
  destruct (EnvFile.noLineTerminator r) eqn:Er; [| split; assumption].
  split; [| apply set_NoDup, Hnd].
  apply set_rawOk; [| exact Hok].
  destruct (keyAndRest_parts _ _ _ E) as [-> Hk].
  rewrite allChars_app in Hline. apply andb_true_iff in Hline. destruct Hline as [Hklf _].
  split; [| split].
  - cbn [fst]. destruct (JS.trim k) as [|c t] eqn:Et; [left; reflexivity |].
    right. rewrite <- Et. unfold Spec.keyOk.
    rewrite trim_idempotent, String.eqb_refl, andb_true_r.
    apply andb_true_iff. split; [rewrite Et; reflexivity |].
    apply allChars_trim.
    clear - Hk Hklf. induction k as [|c k IH]; [reflexivity |].
    cbn [Spec.allChars] in *.
    apply andb_true_iff in Hk, Hklf. destruct Hk as [Hc Hk], Hklf as [Hl Hklf].
    rewrite Hc, Hl, (IH Hklf Hk). reflexivity.
  - cbn [snd]. apply noLineTerminator_trim, Er.
  - cbn [snd]. apply trim_idempotent.
Qed.

Lemma readRaw_rawOk (content : string) :
  Forall SpecX.rawOk (LoadConfig.readRaw content)
  /\ List.NoDup (map fst (LoadConfig.readRaw content)).
Proof.
  unfold LoadConfig.readRaw.
  destruct (JS.isEmpty content); [split; constructor |].
  pose proof (split_pieces EnvFile.LF content) as Hlines.
  assert (forall lines acc,
             Forall (fun c => Spec.allChars (Spec.isNot EnvFile.LF) c = true) lines ->
             Forall SpecX.rawOk acc /\ List.NoDup (map fst acc) ->
             Forall SpecX.rawOk (fold_left EnvFile.readLineRaw lines acc)
             /\ List.NoDup (map fst (fold_left EnvFile.readLineRaw lines acc))) as Hfold.
  { induction lines as [|line lines IH]; intros acc Hl Hacc; [exact Hacc |].
    inversion Hl as [|? ? Hline Hl']; subst. cbn [fold_left].
    apply IH; [exact Hl' | apply readLineRaw_rawOk; assumption]. }
  apply Hfold; [exact Hlines | split; constructor].
Qed.

(** No object that the handlers fill has a [__proto__] of its own. *)
Lemma set_no_proto (k v : string) (o : EnvFile.record) :
  ~ In "__proto__" (map fst o) -> ~ In "__proto__" (map fst (EnvFile.set k v o)).
Proof.
  induction o as [|[a b] o IH]; intros H; cbn [EnvFile.set].
  - destruct (String.eqb_spec k "__proto__") as [E | Hne]; [exact H |].
    cbn. intros [E | []]. congruence.
  - destruct (String.eqb a k); [exact H |].
    cbn [map fst] in *. intros [E | Hin]; [apply H; left; exact E |].
    apply IH; [| exact Hin]. intros Hin'. apply H. right. exact Hin'.
Qed.

Lemma readRaw_no_proto (content : string) :
  ~ In "__proto__" (map fst (LoadConfig.readRaw content)).
Proof.
  unfold LoadConfig.readRaw. destruct (JS.isEmpty content); [intros [] |].
  assert (forall lines acc,
             ~ In "__proto__" (map fst acc) ->
             ~ In "__proto__" (map fst (fold_left EnvFile.readLineRaw lines acc))) as Hfold.
  { induction lines as [|line lines IH]; intros acc Hacc; [exact Hacc |].
    cbn [fold_left]. apply IH. unfold EnvFile.readLineRaw.
    destruct (EnvFile.matchLine line) as [[k r]|]; [| exact Hacc].
    apply set_no_proto, Hacc. }
  apply Hfold. intros [].
Qed.

Lemma set_absent (k v : string) (o : EnvFile.record) :
  k <> "__proto__" ->
  ~ In k (map fst o) -> EnvFile.set k v o = (o ++ [(k, v)])%list.
Proof.
  intros Hk. apply String.eqb_neq in Hk.
  induction o as [|[a b] o IH]; intros H; [cbn; rewrite Hk; reflexivity |].
  cbn [EnvFile.set]. destruct (String.eqb_spec a k) as [-> | Hne].
  - exfalso. apply H. left. reflexivity.
  - cbn [app]. rewrite IH; [reflexivity |]. intros Hin. apply H. right. exact Hin.
Qed.

(** Entries with names of settings as keys, written one on a line and
    read by the handler, come back as they were. *)
Lemma readLineRaw_entries (c acc : EnvFile.record) :
  List.NoDup (map fst c) ->
  ~ In "__proto__" (map fst c) ->
  Forall (fun kv => Spec.keyOk (fst kv) = true
                    /\ EnvFile.noLineTerminator (snd kv) = true
                    /\ JS.trim (snd kv) = snd kv) c ->
  (forall k, In k (map fst c) -> ~ In k (map fst acc)) ->
  fold_left EnvFile.readLineRaw (map LoadConfig.rawEntry c) acc = (acc ++ c)%list.
Proof.
  revert acc. induction c as [|[k v] c IH]; intros acc Hnd Hproto Hok Hdis.
  - cbn. rewrite app_nil_r. reflexivity.
  - inversion Hnd as [|? ? Hk Hnd']; subst.
    inversion Hok as [|? ? (Hkey & Hv & Ht) Hok']; subst. cbn [fst snd] in *.
    cbn [map fold_left].
    change (LoadConfig.rawEntry (k, v)) with (k ++ String "=" v)%string.
    rewrite (proj2 (readLine_assignment acc k v Hkey Hv)), Ht.
    rewrite set_absent;
      [| intros E; apply Hproto; left; exact E | apply Hdis; left; reflexivity].
    rewrite IH;
      [rewrite <- app_assoc; reflexivity | exact Hnd'
       | intros Hin; apply Hproto; right; exact Hin | exact Hok' |].
    intros k' Hk' Hin. rewrite map_app in Hin. apply in_app_or in Hin.
    destruct Hin as [Hin | [<- | []]].
    + apply (Hdis k'); [right; exact Hk' | exact Hin].
    + apply Hk. exact Hk'.
Qed.

(** X20.  The correction that the [load-config] handler writes back is
    stable: when no key of the file is empty, the handler gives the same
    settings from the file it has written as it gave from the file it
    has read, with the current endpoint, and it writes nothing back a
    second time. *)
Theorem load_config_correction_is_stable :
  forall content written : string,
    LoadConfig.writeBack content = Some written ->
    ~ In "" (map fst (LoadConfig.readRaw content)) ->
    EnvFile.loadConfig written = EnvFile.loadConfig content
    /\ EnvFile.get "GOOGLE_API_URL" (EnvFile.loadConfig written) = Some Config.correctUrl
    /\ LoadConfig.writeBack written = None.
Proof.
  intros content written Hwb Hkeys. unfold LoadConfig.writeBack in Hwb.
  destruct (LoadConfig.deprecated (LoadConfig.readRaw content)) eqn:Hdep; [| discriminate].
  injection Hwb as <-.
  set (c := EnvFile.set "GOOGLE_API_URL" EnvFile.correctUrl (LoadConfig.readRaw content)).
  destruct (readRaw_rawOk content) as [Hok Hnd].
  assert (Forall (fun kv => Spec.keyOk (fst kv) = true
                            /\ EnvFile.noLineTerminator (snd kv) = true
                            /\ JS.trim (snd kv) = snd kv) c) as Hc.
  { assert (Forall SpecX.rawOk c) as Hraw.
    { apply set_rawOk; [| exact Hok]. split; [right; reflexivity | split; reflexivity]. }
    apply List.Forall_forall. intros [k v] Hin.
    pose proof (proj1 (List.Forall_forall _ _) Hraw (k, v) Hin) as ([E | Hk] & Hv & Ht);
      cbn [fst snd] in *; [| tauto].
    exfalso. subst k.
    assert (In "" (map fst c)) as Hin' by (apply in_map_iff; exists ("", v); tauto).
    apply set_keys_In in Hin'. destruct Hin' as [H | H]; [exact (Hkeys H) | discriminate]. }
  assert (List.NoDup (map fst c)) as Hndc by apply set_NoDup, Hnd.
  assert (EnvFile.get "GOOGLE_API_URL" c = Some Config.correctUrl) as Hurl
    by (apply get_set_same; discriminate).
  assert (c <> []) as Hne.
  { intros E. rewrite E in Hurl. discriminate. }
  set (text := JS.join (EnvFile.quote EnvFile.LF) (map LoadConfig.rawEntry c)).
  assert (LoadConfig.readRaw text = c) as Hread.
  { unfold LoadConfig.readRaw.
    assert (JS.split EnvFile.LF text = map LoadConfig.rawEntry c) as Hsplit.
    { apply split_join.
      - destruct c; [congruence | discriminate].
      - apply List.Forall_map, List.Forall_forall. intros [k v] Hin.
        pose proof (proj1 (List.Forall_forall _ _) Hc (k, v) Hin) as (Hk & Hv & _).
        cbn [fst snd] in *. unfold LoadConfig.rawEntry. cbn [fst snd].
        unfold Spec.keyOk in Hk. apply andb_true_iff in Hk. destruct Hk as [Hk _].
        apply andb_true_iff in Hk. destruct Hk as [_ Hk].
        rewrite !allChars_app. apply andb_true_iff. split.
        + eapply allChars_impl; [| exact Hk]. intros ch H.
          apply andb_true_iff in H. tauto.
        + apply andb_true_iff. split; [reflexivity |].
          apply allChars_noLineTerminator, Hv. }
    assert (JS.isEmpty text = false) as ->.
    { destruct text eqn:E; [| reflexivity]. cbn [JS.split] in Hsplit.
      destruct c as [|[k v] c']; [congruence |].
      destruct c'; cbn [map] in Hsplit; [| discriminate].
      injection Hsplit as Hs. unfold LoadConfig.rawEntry in Hs. cbn [fst snd] in Hs.
      destruct k; discriminate. }
    rewrite Hsplit.
    rewrite readLineRaw_entries;
      [reflexivity | exact Hndc | apply set_no_proto, readRaw_no_proto | exact Hc |].
    intros k _ []. }
  assert (EnvFile.correctConfig c = c) as Hfix.
  { apply (proj2 (proj2 (correction_keeps_current ∅ "" c))). exact Hurl. }
  assert (EnvFile.loadConfig text = c) as Hload.
  { change (EnvFile.loadConfig text) with (EnvFile.correctConfig (LoadConfig.readRaw text)).
    rewrite Hread. exact Hfix. }
  split; [| split].
  - rewrite Hload.
    change (EnvFile.loadConfig content)
      with (EnvFile.correctConfig (LoadConfig.readRaw content)).
    unfold EnvFile.correctConfig. fold (LoadConfig.deprecated (LoadConfig.readRaw content)).
    rewrite Hdep. fold c. rewrite Hurl.
    replace (JS.truthy (Some Config.correctUrl)) with true by (vm_compute; reflexivity).
    reflexivity.
  - rewrite Hload. exact Hurl.
  - unfold LoadConfig.writeBack. rewrite Hread. unfold LoadConfig.deprecated.
    rewrite Hurl.
    replace (EnvFile.isOldUrl (JS.orElse (Some Config.correctUrl) "")) with false
      by (vm_compute; reflexivity).
    rewrite andb_false_r. reflexivity.
Qed.

Lemma load_config_correction_is_stable_witness :
  LoadConfig.writeBack
    ("GOOGLE_API_URL=https://api.google.com/nano-banana-pro/generate"
     ++ String EnvFile.LF "IMAGE_SIZE=2K")
  = Some ("GOOGLE_API_URL=" ++ Config.correctUrl ++ String EnvFile.LF "IMAGE_SIZE=2K")
  /\ LoadConfig.writeBack
       ("GOOGLE_API_URL=" ++ Config.correctUrl ++ String EnvFile.LF "IMAGE_SIZE=2K")
     = None.
Proof.
  split; [reflexivity |].
  apply (load_config_correction_is_stable
           ("GOOGLE_API_URL=https://api.google.com/nano-banana-pro/generate"
            ++ String EnvFile.LF "IMAGE_SIZE=2K")).
  - reflexivity.
  - cbn. intros [H | [H | []]]; discriminate H.
Defined.

(** ** A schedule time that cannot be read *)

(** X21.  A schedule time that has no colon, or whose hours or minutes
    are not a finite number, makes [startDailySchedule] throw a
    RangeError when it has logged its first line and nothing else: no
    timer is armed, the job is not run and the scheduler holds no new
    handle. *)
Theorem unreadable_schedule_time_throws :
  forall (cfg : Config.Config) (w : Sched.world),
    let time := Config.time (Config.schedule cfg) in
    let parts := map JS.Number (JS.split ":" time) in
    Spec.allChars (Spec.isNot ":") time = true
    \/ Date.toInteger (Sched.toNumber (nth_error parts 0)) = None
    \/ Date.toInteger (Sched.toNumber (nth_error parts 1)) = None ->
    exists w',
      Sched.callStartDailySchedule cfg w = (w', Exn.Throw Sched.RangeError)
      /\ Sched.timers w' = Sched.timers w
      /\ Sched.runs w' = Sched.runs w
      /\ Sched.intervalId w' = Sched.intervalId w
      /\ Sched.clock w' = Sched.clock w
      /\ Sched.logged w'
         = (Sched.logged w ++ [(Log.Info, "Starting daily scheduler")])%list
      /\ Sched.startDailySchedule cfg w = Exn.Throw Sched.RangeError.
Proof.
  intros cfg w time parts H.
  assert (Date.toInteger (Sched.toNumber (nth_error parts 0)) = None
          \/ Date.toInteger (Sched.toNumber (nth_error parts 1)) = None) as Hbad.
  { destruct H as [H | H]; [| exact H]. right. subst parts.
    rewrite (split_one _ _ H). reflexivity. }
  assert (Sched.scheduledTime time (Sched.localTZA w) (Sched.clock w) = None) as Hnone.
  { unfold Sched.scheduledTime. fold parts.
    assert (Date.setHours (Sched.localTZA w) (Some (Sched.clock w))
              (Sched.toNumber (nth_error parts 0)) (Sched.toNumber (nth_error parts 1))
              (JS.ofZ 0) (JS.ofZ 0) = None) as ->.
    { unfold Date.setHours, Date.MakeTime.
      destruct Hbad as [-> | Hm]; [reflexivity |]. rewrite Hm.
      destruct (Date.toInteger (Sched.toNumber (nth_error parts 0))); reflexivity. }
    reflexivity. }
  assert (Sched.callStartDailySchedule cfg w
          = (Sched.logInfo "Starting daily scheduler" w, Exn.Throw Sched.RangeError))
    as Hcall.
  { unfold Sched.callStartDailySchedule.
    cbn [Sched.logInfo Sched.clock Sched.localTZA]. fold time. rewrite Hnone.
    reflexivity. }
  exists (Sched.logInfo "Starting daily scheduler" w).
  split; [exact Hcall |]. repeat (split; [reflexivity |]).
  unfold Sched.startDailySchedule. rewrite Hcall. reflexivity.
Qed.

Lemma unreadable_schedule_time_throws_witness :
  exists w',
    Sched.callStartDailySchedule SpecX.noColonConfig (Sched.fresh Spec.jan15_0800 0)
    = (w', Exn.Throw Sched.RangeError)
    /\ Sched.timers w' = []
    /\ Sched.runs w' = [].
Proof.
  destruct (unreadable_schedule_time_throws SpecX.noColonConfig
              (Sched.fresh Spec.jan15_0800 0))
    as (w' & Hcall & Ht & Hr & _).
  - left. reflexivity.
  - exists w'. split; [exact Hcall |]. split; [exact Ht | exact Hr].
Defined.
